(** * install-tx3-nextjs: the configuration mergers and the install / init
      pipelines, embedded from the TypeScript sources.

    - [src/templates/next-config.ts]: [generateNextConfig]
    - [src/commands/install.ts]: [installCommand], [updateTsConfig],
      [createTx3Files] (both revisions of the command)
    - [src/commands/init.ts]: [initCommand], [initializeShadcnProject], the
      [validate] function of the name prompt

    Thrown JavaScript errors are values of [exn]; a function that may throw
    returns a [result]. *)

From Stdlib Require Import ZArith Ascii String List Bool Lia.
From stdpp Require Import gmap strings list.

Local Open Scope Z_scope.
Local Open Scope stdpp_scope.

(** ** Thrown values *)

Inductive exn : Type :=
  | Error (message : string)
  | TypeError (message : string).

(** How a call ends: it returns, it throws, or it ends the process with
    [process.exit(code)], which no [catch] intercepts. *)
Inductive result (A : Type) : Type :=
  | Ok (a : A)
  | Throw (e : exn)
  | Exit (code : Z).
Arguments Ok {A} a.
Arguments Throw {A} e.
Arguments Exit {A} code.

(** ** String primitives of the JavaScript runtime *)

Definition nl : ascii := "010"%char.
Definition dquote : ascii := "034"%char.

(** [String.prototype.startsWith] *)
Fixpoint startsWith (p s : string) : bool :=
  match p, s with
  | EmptyString, _ => true
  | String _ _, EmptyString => false
  | String a p', String b s' => if Ascii.eqb a b then startsWith p' s' else false
  end.

(** [String.prototype.includes]: some suffix of [s] starts with [p]. *)
Fixpoint includes (p s : string) : bool :=
  startsWith p s ||
  match s with
  | EmptyString => false
  | String _ s' => includes p s'
  end.

(** [s.split(sep)] for a one-character separator: never empty, one more
    piece than there are separators. *)
Fixpoint split (sep : ascii) (s : string) : list string :=
  match s with
  | EmptyString => [EmptyString]
  | String c s' =>
      if Ascii.eqb c sep then EmptyString :: split sep s'
      else match split sep s' with
           | [] => [String c EmptyString]
           | l :: ls => String c l :: ls
           end
  end.

(** [parts.join(sep)] *)
Fixpoint join (sep : string) (parts : list string) : string :=
  match parts with
  | [] => EmptyString
  | [p] => p
  | p :: ps => p +:+ sep +:+ join sep ps
  end.

Definition newline : string := String nl EmptyString.

(** [(line.match(/c/g) || []).length] for a one-character pattern. *)
Fixpoint count_char (c : ascii) (s : string) : Z :=
  match s with
  | EmptyString => 0
  | String a s' => (if Ascii.eqb a c then 1 else 0) + count_char c s'
  end.

(** [Array.prototype.findIndex], with [None] for [-1]. *)
Fixpoint findIndex {A : Type} (p : A -> bool) (l : list A) : option nat :=
  match l with
  | [] => None
  | x :: l' => if p x then Some O else option_map S (findIndex p l')
  end.

(** [lines.splice(i, 0, ...ins)] for [i] within the array. *)
Definition splice {A : Type} (i : nat) (ins l : list A) : list A :=
  take i l ++ ins ++ drop i l.

(** ** [src/templates/next-config.ts] *)
Module NextConfig.

(** The template literal [nextConfigWebpackTemplate], line by line; the
    literal starts with a line break, so its first line is empty. *)
Definition nextConfigWebpackTemplate_lines : list string :=
  [ "";
    "webpack: (config) => {";
    "  // Add alias for @tx3";
    "  config.resolve.alias = {";
    "    ...config.resolve.alias,";
    "    '@tx3': './node_modules/.tx3',";
    "  };";
    "";
    "  // Configure webpack to handle TypeScript files in .tx3 directory";
    "  config.module.rules.push({";
    "    test: /\.ts$/,";
    "    include: /node_modules\/\.tx3/,";
    "    use: [";
    "      {";
    "        loader: 'ts-loader',";
    "        options: {";
    "          transpileOnly: true,";
    "          compilerOptions: {";
    "            module: 'esnext',";
    "            target: 'es2017',";
    "            moduleResolution: 'node',";
    "            esModuleInterop: true,";
    "            allowSyntheticDefaultImports: true,";
    "            skipLibCheck: true,";
    "          },";
    "        },";
    "      },";
    "    ],";
    "  });";
    "";
    "  return config;";
    "}," ].

Definition nextConfigWebpackTemplate : string :=
  join newline nextConfigWebpackTemplate_lines.

Definition conflict_message : string :=
  "Existing webpack configuration detected. Please manually merge the TX3 webpack configuration.".
Definition no_start_message : string :=
  "Could not parse existing Next.js configuration".
Definition no_insertion_message : string :=
  "Could not find insertion point in Next.js configuration".

(** The module text written when there is no configuration yet. *)
Definition new_config : string :=
  join newline
    [ "/** @type {import('next').NextConfig} */";
      "const nextConfig = {";
      "  " +:+ nextConfigWebpackTemplate;
      "};";
      "";
      "export default nextConfig;";
      "" ].

(** The predicate of [lines.findIndex(...)]. *)
Definition is_config_start (line : string) : bool :=
  includes "const nextConfig" line || includes "module.exports" line.

(** The [for] loop that looks for the closing brace: [ls] are the lines from
    index [i] on, [braceCount] and [foundOpenBrace] the loop variables. *)
Fixpoint scan_braces (ls : list string) (i : nat)
    (braceCount : Z) (foundOpenBrace : bool) : option nat :=
  match ls with
  | [] => None
  | line :: rest =>
      let opened := includes "{" line in
      let foundOpenBrace := foundOpenBrace || opened in
      let braceCount :=
        if opened then braceCount + count_char "{" line else braceCount in
      if foundOpenBrace then
        let braceCount := braceCount - count_char "}" line in
        if braceCount =? 0 then Some i
        else scan_braces rest (S i) braceCount foundOpenBrace
      else scan_braces rest (S i) braceCount foundOpenBrace
  end.

Definition find_insertIndex (lines : list string) (configObjectStart : nat)
    : option nat :=
  scan_braces (drop configObjectStart lines) configObjectStart 0 false.

(** [nextConfigWebpackTemplate.split('\n').map(line => '  ' + line)] *)
Definition webpackConfig : list string :=
  map (fun line => "  " +:+ line) (split nl nextConfigWebpackTemplate).

(** [generateNextConfig(existingConfig?)]: [None] is an omitted argument;
    the empty string is falsy and takes the same branch. *)
Definition generateNextConfig (existingConfig : option string) : result string :=
  match existingConfig with
  | None | Some EmptyString => Ok new_config
  | Some existingConfig =>
      if includes "webpack:" existingConfig then
        Throw (Error conflict_message)
      else
        let lines := split nl existingConfig in
        match findIndex is_config_start lines with
        | None => Throw (Error no_start_message)
        | Some configObjectStart =>
            match find_insertIndex lines configObjectStart with
            | None => Throw (Error no_insertion_message)
            | Some insertIndex =>
                Ok (join newline (splice insertIndex webpackConfig lines))
            end
        end
  end.

End NextConfig.


(** ** JavaScript values that [JSON.parse] builds *)
Module Js.

(** A number is kept as the text [JSON.stringify] prints for it: the code
    never computes with numbers, it only tests them for truthiness and prints
    them back.  An array carries its elements and, separately, the named
    properties assigned to it ([JSON.stringify] skips those).  Property lists
    are in enumeration order. *)
#[warnings="-register-all"] Inductive value : Type :=
  | VNull
  | VBool (b : bool)
  | VNumber (text : string)
  | VString (s : string)
  | VArray (elems : list value) (props : list (string * value))
  | VObject (props : list (string * value)).

Definition props_t : Type := list (string * value).

Fixpoint alookup (k : string) (ps : props_t) : option value :=
  match ps with
  | [] => None
  | (k', v) :: ps' => if String.eqb k k' then Some v else alookup k ps'
  end.

(** Assignment to a property: an existing key keeps its place, a new key
    (not an array index) goes last. *)
Fixpoint aset (k : string) (v : value) (ps : props_t) : props_t :=
  match ps with
  | [] => [(k, v)]
  | (k', v') :: ps' =>
      if String.eqb k k' then (k, v) :: ps' else (k', v') :: aset k v ps'
  end.

(** [ToBoolean]; [None] is [undefined]. *)
Definition truthy (v : option value) : bool :=
  match v with
  | None => false
  | Some VNull => false
  | Some (VBool b) => b
  | Some (VNumber text) => negb (String.eqb text "0")
  | Some (VString s) => negb (String.eqb s "")
  | Some (VArray _ _) => true
  | Some (VObject _) => true
  end.

(** [o.k] for a key [k] that is no array index, not [length] and not a
    member of a built-in prototype (the keys the commands use:
    [compilerOptions], [paths], [scripts]). *)
Definition get (o : option value) (k : string) : result (option value) :=
  match o with
  | None => Throw (TypeError "Cannot read properties of undefined")
  | Some VNull => Throw (TypeError "Cannot read properties of null")
  | Some (VObject ps) => Ok (alookup k ps)
  | Some (VArray _ ps) => Ok (alookup k ps)
  | Some _ => Ok None
  end.

(** [o.k = v] in strict mode (the sources are ES modules); the result is the
    object after the assignment. *)
Definition set (o : option value) (k : string) (v : value) : result value :=
  match o with
  | None => Throw (TypeError "Cannot set properties of undefined")
  | Some VNull => Throw (TypeError "Cannot set properties of null")
  | Some (VObject ps) => Ok (VObject (aset k v ps))
  | Some (VArray es ps) => Ok (VArray es (aset k v ps))
  | Some _ => Throw (TypeError "Cannot create property")
  end.

(** *** [JSON.stringify(value, null, space)] *)

Definition hex_digit (n : nat) : ascii :=
  match n with
  | 0 => "0" | 1 => "1" | 2 => "2" | 3 => "3" | 4 => "4" | 5 => "5"
  | 6 => "6" | 7 => "7" | 8 => "8" | 9 => "9" | 10 => "a" | 11 => "b"
  | 12 => "c" | 13 => "d" | 14 => "e" | _ => "f"
  end%nat%char.

(** One character of [QuoteJSONString]. *)
Definition quote_char (c : ascii) : string :=
  let n := nat_of_ascii c in
  if Nat.eqb n 8 then "\b"
  else if Nat.eqb n 9 then "\t"
  else if Nat.eqb n 10 then "\n"
  else if Nat.eqb n 12 then "\f"
  else if Nat.eqb n 13 then "\r"
  else if Nat.eqb n 34 then String "\" (String dquote "")
  else if Nat.eqb n 92 then "\\"
  else if Nat.ltb n 32 then
    "\u00" +:+ String (hex_digit (n / 16)) (String (hex_digit (n mod 16)) "")
  else String c "".

Fixpoint quote_body (s : string) : string :=
  match s with
  | EmptyString => EmptyString
  | String c s' => quote_char c +:+ quote_body s'
  end.

Definition quote (s : string) : string :=
  String dquote (quote_body s +:+ String dquote "").

(** The wrapping of [SerializeJSONObject] / [SerializeJSONArray]. *)
Definition wrap (open close gap stepback : string) (partial : list string)
    : string :=
  match partial with
  | [] => open +:+ close
  | _ =>
      if String.eqb gap "" then open +:+ join "," partial +:+ close
      else
        let indent := stepback +:+ gap in
        open +:+ String nl indent
          +:+ join ("," +:+ String nl indent) partial
          +:+ String nl stepback +:+ close
  end.

(** [SerializeJSONProperty] at indentation [indent]. *)
Fixpoint serialize (gap indent : string) (v : value) : string :=
  match v with
  | VNull => "null"
  | VBool true => "true"
  | VBool false => "false"
  | VNumber text => text
  | VString s => quote s
  | VArray elems _ =>
      wrap "[" "]" gap indent (map (serialize gap (indent +:+ gap)) elems)
  | VObject props =>
      wrap "{" "}" gap indent
        (map (fun kv =>
                quote (fst kv)
                  +:+ (if String.eqb gap "" then ":" else ": ")
                  +:+ serialize gap (indent +:+ gap) (snd kv))
             props)
  end.

Fixpoint spaces (n : nat) : string :=
  match n with
  | O => EmptyString
  | S n' => String " " (spaces n')
  end.

Definition JSON_stringify (v : value) (space : nat) : string :=
  serialize (spaces (Nat.min space 10)) "" v.

End Js.
Import Js.

(** ** State and control: a computation runs in a state, may change it, and
    returns, throws or exits.  What was changed before a throw stays
    changed. *)

Definition M (S A : Type) : Type := S -> S * result A.

#[global] Instance M_ret {S} : MRet (M S) := fun A a s => (s, Ok a).

#[global] Instance M_bind {S} : MBind (M S) := fun A B f m s =>
  match m s with
  | (s', Ok a) => f a s'
  | (s', Throw e) => (s', Throw e)
  | (s', Exit code) => (s', Exit code)
  end.

Definition throw {S A} (e : exn) : M S A := fun s => (s, Throw e).

Definition process_exit {S A} (code : Z) : M S A := fun s => (s, Exit code).

(** [try { m } catch (error) { handler(error) }] *)
Definition try_catch {S A} (m : M S A) (handler : exn -> M S A) : M S A :=
  fun s =>
    match m s with
    | (s', Throw e) => handler e s'
    | r => r
    end.

Definition gets {S A} (f : S -> A) : M S A := fun s => (s, Ok (f s)).

Definition modify {S} (f : S -> S) : M S unit := fun s => (f s, Ok tt).

(** [if (c) { m }] *)
Definition when {S} (c : bool) (m : M S unit) : M S unit :=
  if c then m else mret tt.

(** [for (const x of l) { body(x) }] *)
Fixpoint for_each {S A} (l : list A) (body : A -> M S unit) : M S unit :=
  match l with
  | [] => mret tt
  | x :: l' => body x ;; for_each l' body
  end.

(** ** The process and its file system *)

(** An absolute path, as its segments from the root. *)
Abbreviation path := (list string).

Inductive spinner_call : Type := Start | Succeed | Fail | Warn | Stop.

(** What the command prints; texts are kept without emoji and colour. *)
Inductive event : Type :=
  | Log (text : string)
  | LogError (text : string)
  | Spinner (call : spinner_call) (text : string).

Record world : Type := World {
  cwd : path;
  files : gmap path string;
  dirs : gset path;
  console : list event
}.

Definition set_cwd (c : path) (w : world) : world :=
  World c (files w) (dirs w) (console w).
Definition set_files (f : gmap path string) (w : world) : world :=
  World (cwd w) f (dirs w) (console w).
Definition set_dirs (d : gset path) (w : world) : world :=
  World (cwd w) (files w) d (console w).
Definition print (e : event) (w : world) : world :=
  World (cwd w) (files w) (dirs w) (console w ++ [e]).

(** [path.resolve(cwd, p)] *)
Definition push_segment (acc : path) (seg : string) : path :=
  if String.eqb seg "" || String.eqb seg "." then acc
  else if String.eqb seg ".." then removelast acc
  else acc ++ [seg].

Definition resolve (cwd : path) (p : string) : path :=
  fold_left push_segment (split "/" p) (if startsWith "/" p then [] else cwd).

Definition exn_toString (e : exn) : string :=
  match e with
  | Error m => "Error: " +:+ m
  | TypeError m => "TypeError: " +:+ m
  end.

(** [error instanceof Error ? error.message : 'Unknown error'] *)
Definition exn_message (e : exn) : string :=
  match e with
  | Error m => m
  | TypeError m => m
  end.

(** ** FileUtils

    [src/utils/file-utils.ts] is not among the sources; the commands call
    it by these names.  Paths are resolved against the working directory. *)
Module FileUtils.

(** Modelled from the spec: the BackupEntry of the data model. *)
Record BackupEntry : Type := {
  originalPath : string;
  backupPath : string;
  existedBefore : bool
}.

(** Modelled from the spec: the dedicated hidden backup directory of
    section 6. *)
Definition backupDir : string := ".tx3-backup".

(** Modelled from the spec: [fs.existsSync] for a file. *)
Definition fileExists (p : string) (w : world) : bool :=
  bool_decide (is_Some (files w !! resolve (cwd w) p)).

(** Modelled from the spec: [fs.existsSync] for a directory. *)
Definition directoryExists (p : string) (w : world) : bool :=
  bool_decide (resolve (cwd w) p ∈ dirs w).

(** Modelled from the spec: [fs.readFileSync]; a missing file is an
    error. *)
Definition readFile (p : string) : M world string := fun w =>
  match files w !! resolve (cwd w) p with
  | Some content => (w, Ok content)
  | None => (w, Throw (Error ("ENOENT: no such file or directory, open " +:+ p)))
  end.

(** Modelled from the spec: [fs.writeFileSync], which overwrites a file and
    fails on a directory. *)
Definition writeFile (p content : string) : M world unit := fun w =>
  if directoryExists p w then
    (w, Throw (Error ("EISDIR: illegal operation on a directory, open " +:+ p)))
  else (set_files (<[resolve (cwd w) p := content]> (files w)) w, Ok tt).

(** Modelled from the spec: [fs.unlinkSync]. *)
Definition deleteFile (p : string) : M world unit := fun w =>
  (set_files (delete (resolve (cwd w) p) (files w)) w, Ok tt).

Fixpoint prefixes_of (p : path) : list path :=
  match p with
  | [] => [[]]
  | x :: p' => [] :: map (cons x) (prefixes_of p')
  end.

(** [fs.mkdirSync(p, { recursive: true })]: the directory and its missing
    ancestors; an existing directory is no error, an existing file is. *)
Definition mkdir_recursive (p : string) : M world unit := fun w =>
  let target := resolve (cwd w) p in
  if bool_decide (is_Some (files w !! target)) then
    (w, Throw (Error ("EEXIST: file already exists, mkdir " +:+ p)))
  else
    (set_dirs (dirs w ∪ list_to_set (prefixes_of target)) w, Ok tt).

(** Modelled from the spec: target directories are created if absent
    (section 4.5). *)
Definition createDirectory (p : string) : M world unit := mkdir_recursive p.

(** Modelled from the spec: the directory is deleted entirely (section
    4.6), with everything below it. *)
Definition removeDirectory (p : string) : M world unit := fun w =>
  let target := resolve (cwd w) p in
  (World (cwd w)
     (filter (fun kv => ¬ target `prefix_of` kv.1) (files w))
     (filter (fun d => ¬ target `prefix_of` d) (dirs w))
     (console w), Ok tt).

(** Modelled from the spec: [ensureBackupArea], the backup directory
    created if absent. *)
Definition ensureBackupDir : M world unit := createDirectory backupDir.

(** Modelled from the spec: [backupFile] copies the bytes of an existing
    file into the backup area under its relative path and records
    [existedBefore = true]; for a missing file it records
    [existedBefore = false] and copies nothing. *)
Definition backupFile (p : string) : M world BackupEntry :=
  let bp := backupDir +:+ "/" +:+ p in
  exists_ ← gets (fileExists p);
  if (exists_ : bool) then
    content ← readFile p;
    writeFile bp content;;
    mret {| originalPath := p; backupPath := bp; existedBefore := true |}
  else
    mret {| originalPath := p; backupPath := bp; existedBefore := false |}.

(** Modelled from the spec: [restoreFromBackup] copies the backup bytes
    back over the original when it existed before, and deletes the original
    if present when it did not. *)
Definition restoreFromBackup (entry : BackupEntry) : M world unit :=
  if existedBefore entry then
    content ← readFile (backupPath entry);
    writeFile (originalPath entry) content
  else
    exists_ ← gets (fileExists (originalPath entry));
    when exists_ (deleteFile (originalPath entry)).

End FileUtils.
Import FileUtils.

#[global] Instance result_ret : MRet result := fun A a => Ok a.

#[global] Instance result_bind : MBind result := fun A B f r =>
  match r with
  | Ok a => f a
  | Throw e => Throw e
  | Exit code => Exit code
  end.

Definition lift_result {S A} (r : result A) : M S A := fun s => (s, r).

(** ** Collaborators that are not among the sources *)

Inductive question : Type :=
  | ProceedAnyway | ShouldInstallTrix | ShouldIncludeDevnet
  | ConfirmInstall | ConfirmInit.

Record ValidationResult : Type := {
  isValid : bool;
  errors : list string;
  warnings : list string
}.

(** The runtime's [JSON.parse], the answers given at the [inquirer] prompts,
    the child processes, the modules [ProjectValidator], [PackageUtils],
    [TrixInstaller], [DevnetInstaller] and the three file templates. *)
Class Collaborators : Type := {
  JSON_parse : string -> option value;
  confirm : question -> world -> bool;
  ask_project_name : world -> string;
  execSync : string -> option string -> M world unit;
  validateFreshProject : world -> ValidationResult;
  validateNextJsProject : world -> ValidationResult;
  detectPackageManager : world -> string;
  getMissingPackages : list string -> M world (list string);
  installPackages : list string -> bool -> M world unit;
  addScripts : list (string * string) -> M world value;
  readPackageJson : M world value;
  writePackageJson : value -> M world unit;
  checkTrixInstalled : world -> bool;
  installTrix : bool -> M world unit;
  copyDevnetFolder : string -> M world unit;
  trixTomlTemplate : string;
  mainTx3Template : string;
  generateScriptTemplate : string
}.

Definition log (text : string) : M world unit := modify (print (Log text)).
Definition log_error (text : string) : M world unit :=
  modify (print (LogError text)).
Definition spinner (call : spinner_call) (text : string) : M world unit :=
  modify (print (Spinner call text)).

(** [if (spinner) { spinner.call(text) } else { console.log(text) }] with
    [spinner = options.verbose ? null : ora()] *)
Definition progress (verbose : bool) (call : spinner_call) (text : string)
    : M world unit :=
  if verbose then log text else spinner call text.

Definition chdir (p : string) : M world unit := fun w =>
  if directoryExists p w then (set_cwd (resolve (cwd w) p) w, Ok tt)
  else (w, Throw (Error ("ENOENT: no such file or directory, chdir " +:+ p))).

(** The state of one [installCommand] call: the process and the local array
    [backups], which the [catch] block reads as the [try] block left it. *)
Record istate : Type := IState {
  iworld : world;
  backups : list BackupEntry
}.

Definition lift {A} (m : M world A) : M istate A := fun s =>
  let (w', r) := m (iworld s) in (IState w' (backups s), r).

(** [backups.push(entry)] *)
Definition push_backup (entry : BackupEntry) : M istate unit :=
  modify (fun s => IState (iworld s) (backups s ++ [entry])).

(** Runs a body that starts with [backups = []]. *)
Definition with_backups {A} (m : M istate A) : M world A := fun w =>
  let (s', r) := m (IState w []) in (iworld s', r).

Record InstallOptions : Type := {
  dryRun : bool;
  force : bool;
  fresh : bool;
  verbose : bool
}.

Record InitOptions : Type := {
  projectName : option string;
  init_dryRun : bool
}.

(** ** [src/commands/install.ts] *)
Section Install.
Context `{Collaborators}.

Definition ask (q : question) : M world bool := gets (confirm q).

(** [o.k.<...> = v]: evaluates [o.k], performs the inner assignment on that
    object, which [o] still holds under [k].  A parsed document is a tree
    without sharing, so the assignment in place is the same as putting the
    updated child back. *)
Definition assign_in (o : value) (k : string)
    (inner : option value -> result value) : result value :=
  child ← get (Some o) k;
  child' ← inner child;
  set (Some o) k child'.

Definition tx3_glob_paths : value := VArray [VString "./tx3/bindings/*"] [].
Definition tx3_root_paths : value := VArray [VString "./tx3/bindings"] [].

(** Lines 211-223 of [updateTsConfig], on the parsed document. *)
Definition setTx3Paths (tsconfig : value) : result value :=
  (* if (!tsconfig.compilerOptions) tsconfig.compilerOptions = {}; *)
  compilerOptions ← get (Some tsconfig) "compilerOptions";
  tsconfig ← (if truthy compilerOptions then Ok tsconfig
              else set (Some tsconfig) "compilerOptions" (VObject []));
  (* if (!tsconfig.compilerOptions.paths) tsconfig.compilerOptions.paths = {}; *)
  compilerOptions ← get (Some tsconfig) "compilerOptions";
  paths ← get compilerOptions "paths";
  tsconfig ← (if truthy paths then Ok tsconfig
              else assign_in tsconfig "compilerOptions"
                     (fun co => set co "paths" (VObject [])));
  (* tsconfig.compilerOptions.paths["@tx3/*"] = ["./tx3/bindings/*"]; *)
  tsconfig ← assign_in tsconfig "compilerOptions" (fun co =>
                paths ← get co "paths";
                paths' ← set paths "@tx3/*" tx3_glob_paths;
                set co "paths" paths');
  (* tsconfig.compilerOptions.paths["@tx3"] = ["./tx3/bindings"]; *)
  assign_in tsconfig "compilerOptions" (fun co =>
    paths ← get co "paths";
    paths' ← set paths "@tx3" tx3_root_paths;
    set co "paths" paths').

(** Lines 202-226 of [updateTsConfig] between the read and the write: the
    text of the file to the text written back. *)
Definition mergeTsconfigPaths (existingContent : string) : result string :=
  match JSON_parse existingContent with
  | None => Throw (Error "Failed to parse tsconfig.json")
  | Some tsconfig =>
      tsconfig' ← setTx3Paths tsconfig;
      Ok (JSON_stringify tsconfig' 2)
  end.

Definition tsconfigPath : string := "tsconfig.json".

Definition updateTsConfig : M world unit :=
  exists_ ← gets (fileExists tsconfigPath);
  if negb exists_ then throw (Error "tsconfig.json not found")
  else
    existingContent ← readFile tsconfigPath;
    updated ← lift_result (mergeTsconfigPaths existingContent);
    writeFile tsconfigPath updated.

Definition createTx3Files : M world unit :=
  createDirectory "tx3";;
  createDirectory "scripts";;
  writeFile "tx3/trix.toml" trixTomlTemplate;;
  writeFile "tx3/main.tx3" mainTx3Template;;
  writeFile "scripts/generate-tx3.mjs" generateScriptTemplate.

Definition requiredPackages : list string := ["tx3-sdk"; "tx3-trp"].
Definition requiredDevPackages : list string :=
  ["glob"; "dotenv"; "nodemon"; "concurrently"].

Definition tx3_scripts : list (string * string) :=
  [ ("tx3:generate", "node scripts/generate-tx3.mjs");
    ("watch:tx3",
     "nodemon --watch tx3 --ext tx3 --exec " +:+ String dquote "npm run tx3:generate"
       +:+ String dquote "");
    ("dev",
     "concurrently " +:+ String dquote "next dev --turbopack" +:+ String dquote " "
       +:+ String dquote "npm run watch:tx3" +:+ String dquote "") ].

Definition nonempty {A} (l : list A) : bool :=
  match l with [] => false | _ => true end.

(** The [try] block from the backup to the TX3 files (lines 84-134), the
    same in both revisions but for the spinner, one definition for each of
    its five steps. *)

(** Lines 84-97. *)
Definition take_backups (verbose : bool) : M istate unit :=
  lift (progress verbose Start "Creating backup...");;
  lift ensureBackupDir;;
  filesToBackup ← lift (gets (fun w =>
    List.filter (fun file => fileExists file w) ["package.json"; "tsconfig.json"]));
  for_each filesToBackup (fun file =>
    entry ← lift (backupFile file);
    push_backup entry);;
  lift (progress verbose Succeed "Backup created").

(** Lines 99-114. *)
Definition install_packages (verbose : bool) : M istate unit :=
  lift (progress verbose Start "Installing TX3 packages...");;
  missingPackages ← lift (getMissingPackages requiredPackages);
  missingDevPackages ← lift (getMissingPackages requiredDevPackages);
  when (nonempty missingPackages) (lift (installPackages missingPackages false));;
  when (nonempty missingDevPackages)
    (lift (installPackages missingDevPackages true));;
  lift (progress verbose Succeed "TX3 packages installed").

(** Lines 116-119. *)
Definition update_tsconfig (verbose : bool) : M istate unit :=
  lift (progress verbose Start "Updating TypeScript configuration...");;
  lift updateTsConfig;;
  lift (progress verbose Succeed "TypeScript configuration updated").

(** Lines 121-129. *)
Definition add_scripts (verbose : bool) : M istate unit :=
  lift (progress verbose Start "Adding TX3 scripts...");;
  packageJson ← lift (addScripts tx3_scripts);
  lift (writePackageJson packageJson);;
  lift (progress verbose Succeed "TX3 scripts added").

(** Lines 131-134. *)
Definition create_files (verbose : bool) : M istate unit :=
  lift (progress verbose Start "Creating TX3 files...");;
  lift createTx3Files;;
  lift (progress verbose Succeed "TX3 files created").

Definition backup_and_mutate (verbose : bool) : M istate unit :=
  take_backups verbose;;
  install_packages verbose;;
  update_tsconfig verbose;;
  add_scripts verbose;;
  create_files verbose.

Definition install_completed : M world unit :=
  log "TX3 installation completed successfully!";;
  log "";;
  log "Next steps:";;
  log "1. Update tx3/trix.toml with your configuration";;
  log "2. Add your TX3 code to tx3/main.tx3";;
  log ("3. Run " +:+ String dquote "npm run dev" +:+ String dquote
         " to start development with TX3").

(** The [catch] block (lines 143-158). *)
Definition rollback (verbose : bool) (error : exn) : M istate unit :=
  lift (progress verbose Fail "Installation failed");;
  lift (log_error ("Error: " +:+ exn_message error));;
  lift (log "Rolling back changes...");;
  taken ← gets backups;
  for_each taken (fun backup =>
    try_catch (lift (restoreFromBackup backup))
      (fun rollbackError =>
         lift (log_error ("Failed to restore " +:+ originalPath backup +:+ ": "
                            +:+ exn_toString rollbackError))));;
  lift (log "Rollback completed");;
  process_exit 1.

Definition log_all (texts : list string) : M world unit :=
  for_each texts log.

Definition preview_packages_scripts_files : M world unit :=
  log "Packages to install:";;
  missingPackages ← getMissingPackages requiredPackages;
  missingDevPackages ← getMissingPackages requiredDevPackages;
  (if negb (nonempty missingPackages) && negb (nonempty missingDevPackages)
   then log "  • All required packages already installed"
   else
     for_each missingPackages (fun pkg => log ("  • " +:+ pkg));;
     for_each missingDevPackages (fun pkg => log ("  • " +:+ pkg +:+ " (dev)")));;
  log_all
    [ "";
      "Scripts to add to package.json:";
      "  • tx3:generate: node scripts/generate-tx3.mjs";
      "  • watch:tx3: nodemon --watch tx3 --ext tx3 --exec "
        +:+ String dquote "npm run tx3:generate" +:+ String dquote "";
      "  • dev: concurrently " +:+ String dquote "next dev --turbopack"
        +:+ String dquote " " +:+ String dquote "npm run watch:tx3"
        +:+ String dquote "";
      "";
      "Files to create:";
      "  • tx3/trix.toml";
      "  • tx3/main.tx3";
      "  • scripts/generate-tx3.mjs";
      "";
      "Configuration changes:";
      "  • Update tsconfig.json with TX3 path mappings" ].

Definition showDryRunPreview : M world unit :=
  log "Changes that would be made:";;
  log "";;
  preview_packages_scripts_files.

(** Lines 20-59: validation, warnings, the package manager; [continue] is
    the rest of the command, not reached when validation fails or the user
    declines. *)
Definition validated (options : InstallOptions) (continue : M world unit)
    : M world unit :=
  validation ← gets (if fresh options then validateFreshProject
                     else validateNextJsProject);
  if negb (isValid validation) then
    log_error "Project validation failed:";;
    for_each (errors validation) (fun error => log_error ("  • " +:+ error));;
    throw (Error "Project validation failed")
  else
    proceed ←
      (if nonempty (warnings validation) then
         log "Warnings:";;
         for_each (warnings validation) (fun warning => log ("  • " +:+ warning));;
         if negb (force options)
            && existsb (includes "TX3 files already exist") (warnings validation)
         then ask ProceedAnyway
         else mret true
       else mret true);
    if negb proceed then log "Installation cancelled."
    else
      log (if fresh options then "Fresh project ready for TX3 installation!"
           else "Next.js project detected!");;
      packageManager ← gets detectPackageManager;
      log ("Using package manager: " +:+ packageManager);;
      continue.

(** The [try] / [catch] statement of [installCommand] (lines 80-158). *)
Definition install_try : M world unit :=
  with_backups
    (try_catch
       (backup_and_mutate false;;
        lift install_completed)
       (rollback false)).

(** [installCommand] of [src/commands/install.ts]. *)
Definition installCommand (options : InstallOptions) : M world unit :=
  log "Checking Next.js project...";;
  validated options
    (if dryRun options then
       log "DRY RUN - No changes will be made";;
       showDryRunPreview
     else
       confirmInstall ← ask ConfirmInstall;
       if negb confirmInstall then log "Installation cancelled."
       else install_try).

(** *** The revision of the command with the trix and devnet steps (the
    third part of [src/commands/init.ts]) *)

Definition showDryRunPreview_v2 : M world unit :=
  log "Changes that would be made:";;
  log "";;
  trixInstalled ← gets checkTrixInstalled;
  when (negb trixInstalled)
    (log_all [ "trix installation:";
               "  • Install tx3up installer";
               "  • Run tx3up to install trix";
               "" ]);;
  when (trixInstalled || negb trixInstalled)
    (log_all [ "devnet setup (will be prompted if trix available):";
               "  • Copy devnet configuration files";
               "  • Add devnet:start script to package.json";
               "" ]);;
  preview_packages_scripts_files.

Definition setupDevnet : M world unit :=
  try_catch
    (copyDevnetFolder "devnet";;
     packageJson ← readPackageJson;
     (* packageJson.scripts = packageJson.scripts || {}; *)
     scripts ← lift_result (get (Some packageJson) "scripts");
     packageJson ← lift_result
       (set (Some packageJson) "scripts"
          (match scripts with
           | Some existing => if truthy scripts then existing else VObject []
           | None => VObject []
           end));
     (* packageJson.scripts['devnet:start'] = 'cd devnet && dolos daemon'; *)
     packageJson ← lift_result
       (assign_in packageJson "scripts" (fun scripts =>
          set scripts "devnet:start" (VString "cd devnet && dolos daemon")));
     writePackageJson packageJson)
    (fun error => throw (Error ("Failed to setup devnet: " +:+ exn_message error))).

Definition trix_manual_hint : string :=
  "You can install trix manually later with: curl --proto '=https' --tlsv1.2 -LsSf https://github.com/tx3-lang/up/releases/latest/download/tx3up-installer.sh | sh && tx3up".

(** Lines 411-434: the trix installation, inside the outer [try]. *)
Definition trix_step (verbose : bool) : M world unit :=
  progress verbose Start "Installing trix via tx3up...";;
  try_catch
    (installTrix verbose;;
     progress verbose Succeed "trix installed successfully")
    (fun _ =>
       progress verbose Warn "trix installation failed, but continuing with TX3 setup";;
       log trix_manual_hint).

(** Lines 528-550: the devnet setup, inside the outer [try]. *)
Definition devnet_step (verbose : bool) : M world unit :=
  progress verbose Start "Setting up devnet configuration...";;
  try_catch
    (setupDevnet;;
     progress verbose Succeed "Devnet configuration created")
    (fun _ =>
       progress verbose Warn "Devnet setup failed, but continuing with installation").

(** The body of the outer [try] (lines 410-558). *)
Definition install_body_v2 (verbose shouldInstallTrix includeDevnet : bool)
    : M istate unit :=
  when shouldInstallTrix (lift (trix_step verbose));;
  backup_and_mutate verbose;;
  when includeDevnet (lift (devnet_step verbose));;
  lift install_completed.

(** The [try] / [catch] statement (lines 407-578). *)
Definition install_try_v2 (verbose shouldInstallTrix includeDevnet : bool)
    : M world unit :=
  with_backups
    (try_catch
       (install_body_v2 verbose shouldInstallTrix includeDevnet)
       (rollback verbose)).

Definition installCommand_v2 (options : InstallOptions) : M world unit :=
  when (negb (verbose options)) (log "Checking Next.js project...");;
  validated options
    (if dryRun options then
       log "DRY RUN - No changes will be made";;
       showDryRunPreview_v2
     else
       shouldInstallTrix ←
         (if negb (verbose options) then
            trixInstalled ← gets checkTrixInstalled;
            if negb trixInstalled then ask ShouldInstallTrix
            else log "trix is already installed";; mret false
          else mret false);
       includeDevnet ←
         (if negb (verbose options) then
            currentTrixInstalled ← gets checkTrixInstalled;
            if currentTrixInstalled || shouldInstallTrix
            then ask ShouldIncludeDevnet
            else mret false
          else mret false);
       confirmInstall ← ask ConfirmInstall;
       if negb confirmInstall then log "Installation cancelled."
       else install_try_v2 (verbose options) shouldInstallTrix includeDevnet).

(** ** [src/commands/init.ts] *)

Definition install_steps_preview : list string :=
  [ "";
    "TX3 installation:";
    "  • Install TX3 packages (tx3-sdk, tx3-trp)";
    "  • Install dev dependencies (glob, dotenv, nodemon, concurrently)";
    "  • Add TX3 scripts to package.json";
    "  • Update tsconfig.json with TX3 path mappings";
    "  • Create tx3/ directory and files";
    "  • Create scripts/generate-tx3.mjs" ].

Definition shadcn_command : string := "npx shadcn@latest init -t next -y".

Definition showInitDryRunPreview (projectName : string) : M world unit :=
  log_all
    ([ "Actions that would be taken:";
       "";
       "Project creation:";
       "  • Create directory: " +:+ projectName;
       "  • Run: " +:+ shadcn_command +:+ " (in " +:+ projectName +:+ ")";
       "  • This will create a new Next.js project with shadcn/ui";
       "  • Change to directory: " +:+ projectName ]
     ++ install_steps_preview).

Definition initializeShadcnProject (projectName : string) : M world unit :=
  try_catch
    (mkdir_recursive projectName;;
     log ("Running: " +:+ shadcn_command +:+ " (in " +:+ projectName +:+ ")");;
     execSync shadcn_command (Some projectName))
    (fun error =>
       throw (Error ("Failed to initialize shadcn project: " +:+ exn_message error))).

Definition init_completed (projectName : string) : M world unit :=
  log_all
    [ "Project created successfully in '" +:+ projectName +:+ "'!";
      "";
      "Next steps:";
      "1. cd " +:+ projectName;
      "2. Update tx3/trix.toml with your configuration";
      "3. Add your TX3 code to tx3/main.tx3";
      "4. Run " +:+ String dquote "npm run dev" +:+ String dquote
        " to start development" ].

(** The [catch] block of [initCommand] (lines 88-102). *)
Definition init_failed (projectName : string) (error : exn) : M world unit :=
  spinner Fail "Project initialization failed";;
  log_error ("Error: " +:+ exn_message error);;
  try_catch
    (exists_ ← gets (directoryExists projectName);
     when (negb (String.eqb projectName "") && exists_)
       (log ("Cleaning up " +:+ projectName +:+ "...");;
        removeDirectory projectName))
    (fun cleanupError =>
       log_error ("Failed to cleanup: " +:+ exn_toString cleanupError));;
  process_exit 1.

(** Lines 15-62: the name, the check of the directory, the dry run and the
    confirmation; [create] is the [try] / [catch] statement that follows. *)
Definition init_checked (options : InitOptions)
    (preview create : string -> M world unit) : M world unit :=
  log "Initializing new Next.js project with TX3...";;
  projectName ←
    (match projectName options with
     | None | Some EmptyString => gets ask_project_name
     | Some name => mret name
     end);
  exists_ ← gets (directoryExists projectName);
  if (exists_ : bool) then
    log_error ("Directory '" +:+ projectName +:+ "' already exists");;
    process_exit 1
  else if init_dryRun options then
    log "DRY RUN - No changes will be made";;
    preview projectName
  else
    confirmInit ← ask ConfirmInit;
    if negb confirmInit then log "Initialization cancelled."
    else create projectName.

Definition initCommand (options : InitOptions) : M world unit :=
  init_checked options showInitDryRunPreview (fun projectName =>
    try_catch
      (spinner Start "Creating Next.js project with shadcn/ui...";;
       initializeShadcnProject projectName;;
       spinner Succeed "Next.js project with shadcn/ui created";;
       log ("Project created in: " +:+ projectName);;
       chdir projectName;;
       spinner Start "Installing TX3 capabilities...";;
       installCommand {| dryRun := false; force := true; fresh := true;
                         verbose := false |};;
       spinner Succeed "TX3 capabilities installed";;
       init_completed projectName)
      (init_failed projectName)).

(** *** The revision that runs create-next-app (the second part of
    [src/commands/init.ts]) *)

Definition create_next_app_command (projectName : string) : string :=
  "npx create-next-app@latest " +:+ projectName
    +:+ " --app --tailwind --eslint --typescript --no-src-dir --no-import-alias --turbopack ".

Definition shadcn_command_v2 : string :=
  "npx shadcn@latest init -y button card badge alert separator label textarea ".

Definition showInitDryRunPreview_v2 (projectName : string) : M world unit :=
  log_all
    ([ "Actions that would be taken:";
       "";
       "Project creation:";
       "  • Run: " +:+ create_next_app_command projectName;
       "  • Run: " +:+ shadcn_command_v2 +:+ " (in " +:+ projectName +:+ ")";
       "  • This will create a Next.js project and add shadcn/ui";
       "  • Change to directory: " +:+ projectName ]
     ++ install_steps_preview).

Definition initializeShadcnProject_v2 (projectName : string) : M world unit :=
  try_catch
    (log ("Running: " +:+ create_next_app_command projectName);;
     execSync (create_next_app_command projectName) None;;
     log ("Running: " +:+ shadcn_command_v2 +:+ " (in " +:+ projectName +:+ ")");;
     execSync shadcn_command_v2 (Some projectName))
    (fun error =>
       throw (Error ("Failed to create Next.js project with shadcn: "
                       +:+ exn_message error))).

Definition initCommand_v2 (options : InitOptions) : M world unit :=
  init_checked options showInitDryRunPreview_v2 (fun projectName =>
    try_catch
      (spinner Start "Creating Next.js project with shadcn/ui...";;
       initializeShadcnProject_v2 projectName;;
       spinner Succeed "Next.js project with shadcn/ui created";;
       log ("Project created in: " +:+ projectName);;
       chdir projectName;;
       spinner Stop "";;
       log "Installing TX3 capabilities...";;
       installCommand_v2 {| dryRun := false; force := true; fresh := true;
                            verbose := true |};;
       log "TX3 capabilities installed";;
       init_completed projectName)
      (init_failed projectName)).


End Install.

(** ** The project name asked at the prompt ([src/commands/init.ts]) *)
Module ProjectName.

(** A string from the codes of its bytes. *)
Definition bytes (codes : list nat) : string :=
  fold_right (fun code s => String (ascii_of_nat code) s) EmptyString codes.

(** The characters [String.prototype.trim] removes, WhiteSpace and
    LineTerminator of ECMAScript, in UTF-8 as the other texts here: TAB, LF,
    VT, FF, CR, SP, U+00A0, U+1680, U+2000 to U+200A, U+2028, U+2029,
    U+202F, U+205F, U+3000 and U+FEFF. *)
Definition white_space : list string :=
  map bytes
    [ [9]; [10]; [11]; [12]; [13]; [32]; [194; 160]; [225; 154; 128];
      [226; 128; 128]; [226; 128; 129]; [226; 128; 130]; [226; 128; 131];
      [226; 128; 132]; [226; 128; 133]; [226; 128; 134]; [226; 128; 135];
      [226; 128; 136]; [226; 128; 137]; [226; 128; 138];
      [226; 128; 168]; [226; 128; 169]; [226; 128; 175]; [226; 129; 159];
      [227; 128; 128]; [239; 187; 191] ]%nat.

(** [s] without the prefix [p], when it starts with it. *)
Fixpoint strip_prefix (p s : string) : option string :=
  match p, s with
  | EmptyString, _ => Some s
  | String a p', String b s' => if Ascii.eqb a b then strip_prefix p' s' else None
  | String _ _, EmptyString => None
  end.

(** [s] without its first character, when that is white space. *)
Definition strip_white_space (s : string) : option string :=
  match List.find (fun p => startsWith p s) white_space with
  | Some p => strip_prefix p s
  | None => None
  end.

(** [!input.trim()]: nothing but white space, [n] bounding the length. *)
Fixpoint blank_within (n : nat) (s : string) : bool :=
  match s, n with
  | EmptyString, _ => true
  | _, O => false
  | _, S n' =>
      match strip_white_space s with
      | Some rest => blank_within n' rest
      | None => false
      end
  end.

Definition blank (input : string) : bool :=
  blank_within (String.length input) input.

(** One character of [/^[a-z0-9-_]+$/i]: without the [u] flag, ignoring case
    adds the upper-case letters and nothing else. *)
Definition name_char (c : ascii) : bool :=
  let n := nat_of_ascii c in
  ((97 <=? n) && (n <=? 122) || (65 <=? n) && (n <=? 90)
   || (48 <=? n) && (n <=? 57) || (n =? 45) || (n =? 95))%nat.

Fixpoint all_name_chars (s : string) : bool :=
  match s with
  | EmptyString => true
  | String c s' => name_char c && all_name_chars s'
  end.

(** [/^[a-z0-9-_]+$/i.test(input)] *)
Definition test_name (input : string) : bool :=
  negb (String.eqb input EmptyString) && all_name_chars input.

(** What [validate] answers: [true], or the message shown. *)
Inductive answer : Type :=
  | Accepted
  | Refused (message : string).

(** The [validate] function of the prompt for the project name
    ([src/commands/init.ts], lines 25-33). *)
Definition validate (input : string) : answer :=
  if blank input then Refused "Project name is required"
  else if negb (test_name input) then
    Refused "Project name can only contain letters, numbers, hyphens, and underscores"
  else Accepted.

End ProjectName.

(** ** The webpack merge as the specification words it

    These definitions follow the text of the specification, not the code:
    the start of the configuration object, the running count of braces, and
    the line on which the count returns to zero. *)
Module MergeSpec.
Import NextConfig.

(** Open braces minus close braces on one line. *)
Definition brace_delta (line : string) : Z :=
  count_char "{" line - count_char "}" line.

(** The running count over consecutive lines. *)
Fixpoint running_count (ls : list string) : Z :=
  match ls with
  | [] => 0
  | line :: rest => brace_delta line + running_count rest
  end.

(** The lines numbered [a] to [b], both included. *)
Definition lines_between (lines : list string) (a b : nat) : list string :=
  take (S b - a) (drop a lines).

(** [start] is the first line that declares the configuration variable or
    the module export. *)
Definition config_start (lines : list string) (start : nat) : Prop :=
  (exists line, lines !! start = Some line /\ is_config_start line = true) /\
  (forall j line, (j < start)%nat -> lines !! j = Some line ->
     is_config_start line = false).

(** [first] is the first line from [start] on with an open brace: there
    the object literal starts and the counting begins. *)
Definition object_open (lines : list string) (start first : nat) : Prop :=
  (start <= first)%nat /\
  (exists line, lines !! first = Some line /\ includes "{" line = true) /\
  (forall j line, (start <= j < first)%nat -> lines !! j = Some line ->
     includes "{" line = false).

(** [close] is the first line at which the running count, taken from the
    line that opens the object, is back to zero. *)
Definition closing_line (lines : list string) (start close : nat) : Prop :=
  exists first,
    object_open lines start first /\
    (first <= close < length lines)%nat /\
    running_count (lines_between lines first close) = 0 /\
    (forall j, (first <= j < close)%nat ->
       running_count (lines_between lines first j) <> 0).

End MergeSpec.

(** ** Views of documents used to state the properties of the merge *)
Module Doc.

(** What [JSON.stringify] keeps of a value: the named properties of arrays
    are dropped, at every depth. *)
Fixpoint json_part (v : value) : value :=
  match v with
  | VArray elems _ => VArray (map json_part elems) []
  | VObject props => VObject (map (fun kv => (kv.1, json_part kv.2)) props)
  | _ => v
  end.

(** The named properties of an object or array; a primitive has none. *)
Definition props_of (v : value) : option props_t :=
  match v with
  | VObject ps => Some ps
  | VArray _ ps => Some ps
  | _ => None
  end.

Definition with_props (v : value) (ps : props_t) : value :=
  match v with
  | VObject _ => VObject ps
  | VArray elems _ => VArray elems ps
  | _ => v
  end.

(** [if (!o.k) o.k = {}] on the properties of [o]. *)
Definition ensure_object (k : string) (ps : props_t) : props_t :=
  if truthy (alookup k ps) then ps else aset k (VObject []) ps.

End Doc.

(** ** The tsconfig merge, stage by stage *)
Module MergeStages.
Import Doc.

Definition json_props (ps : props_t) : props_t :=
  map (fun kv => (kv.1, json_part kv.2)) ps.

(** The statements of [setTx3Paths] after the first one. *)
Definition after_compilerOptions (tsconfig : value) : result value :=
  compilerOptions ← get (Some tsconfig) "compilerOptions";
  paths ← get compilerOptions "paths";
  tsconfig ← (if truthy paths then Ok tsconfig
              else assign_in tsconfig "compilerOptions"
                     (fun co => set co "paths" (VObject [])));
  tsconfig ← assign_in tsconfig "compilerOptions" (fun co =>
                paths ← get co "paths";
                paths' ← set paths "@tx3/*" tx3_glob_paths;
                set co "paths" paths');
  assign_in tsconfig "compilerOptions" (fun co =>
    paths ← get co "paths";
    paths' ← set paths "@tx3" tx3_root_paths;
    set co "paths" paths').

(** The two assignments of the path mappings. *)
Definition assign_paths (tsconfig : value) : result value :=
  tsconfig ← assign_in tsconfig "compilerOptions" (fun co =>
                paths ← get co "paths";
                paths' ← set paths "@tx3/*" tx3_glob_paths;
                set co "paths" paths');
  assign_in tsconfig "compilerOptions" (fun co =>
    paths ← get co "paths";
    paths' ← set paths "@tx3" tx3_root_paths;
    set co "paths" paths').

(** The properties of [paths] after the two assignments. *)
Definition merged_paths (pps : props_t) : props_t :=
  aset "@tx3" tx3_root_paths (aset "@tx3/*" tx3_glob_paths pps).

(** The document after the merge, given what it holds under
    [compilerOptions] ([c], with properties [cps]) and under [paths] ([p],
    with properties [pps]) once both were made sure to exist. *)
Definition merged_doc (d c p : value) (ps cps pps : props_t) : value :=
  with_props d
    (aset "compilerOptions"
       (with_props c
          (aset "paths" (with_props p (merged_paths pps))
             (ensure_object "paths" cps)))
       (ensure_object "compilerOptions" ps)).

(** [after] differs from [before] at the keys [keys] only: every other key
    holds what it held, and the keys that were there keep their order, new
    ones coming last. *)
Definition only_changes (keys : list string) (before after : props_t) : Prop :=
  (forall k, k ∉ keys -> alookup k after = alookup k before) /\
  (exists added, map fst after = map fst before ++ added).

(** A property that is missing or falsy, or holds an object (not an
    array). *)
Definition object_or_falsy (o : option value) : Prop :=
  truthy o = false \/ exists ps, o = Some (VObject ps).

(** The properties of that object; none when it is missing or falsy. *)
Definition props_or_empty (o : option value) : props_t :=
  match o with
  | Some (VObject ps) => ps
  | _ => []
  end.

(** One member of an object as [JSON.stringify(_, null, 2)] prints it at
    the first level. *)
Definition member_2 (kv : string * value) : string :=
  quote kv.1 +:+ ": " +:+ serialize "  " "  " kv.2.

End MergeStages.

Section ReadBack.
Context `{Collaborators}.
Import Doc.

(** [JSON.parse] reads the serialized document back as what
    [JSON.stringify] kept of it. *)
Definition reads_back (doc : value) : Prop :=
  JSON_parse (JSON_stringify doc 2) = Some (json_part doc).

End ReadBack.

(** ** Sample collaborators and projects, to run the commands on concrete
    inputs

    [ProjectValidator], [PackageUtils] and the external tools are not among
    the sources; the samples follow the specification, and either succeed or
    fail as the scenario says. *)
Module Sample.

Definition quoted (s : string) : string := String dquote (s +:+ String dquote "").

(** The scenario of the specification:
    [{"compilerOptions":{"paths":{"foo":["./foo"]}}}]. *)
Definition tsconfig_text : string :=
  "{" +:+ quoted "compilerOptions" +:+ ":{" +:+ quoted "paths" +:+ ":{"
    +:+ quoted "foo" +:+ ":[" +:+ quoted "./foo" +:+ "]}}}".

Definition tsconfig_doc : value :=
  VObject [("compilerOptions",
            VObject [("paths", VObject [("foo", VArray [VString "./foo"] [])])])].

Definition tsconfig_merged : value :=
  VObject [("compilerOptions",
            VObject [("paths",
                      VObject [("foo", VArray [VString "./foo"] []);
                               ("@tx3/*", tx3_glob_paths);
                               ("@tx3", tx3_root_paths)])])].

(** [{"compilerOptions":true}] *)
Definition tsconfig_flag_text : string :=
  "{" +:+ quoted "compilerOptions" +:+ ":true}".

Definition tsconfig_flag_doc : value :=
  VObject [("compilerOptions", VBool true)].

(** [{"name":"app"}] *)
Definition package_text : string :=
  "{" +:+ quoted "name" +:+ ":" +:+ quoted "app" +:+ "}".

Definition package_doc : value := VObject [("name", VString "app")].

(** [JSON.parse] on the texts of the samples. *)
Definition parse_table : list (string * value) :=
  [ (tsconfig_text, tsconfig_doc);
    (JSON_stringify tsconfig_merged 2, tsconfig_merged);
    (tsconfig_flag_text, tsconfig_flag_doc);
    (package_text, package_doc) ].

Definition parse (text : string) : option value := alookup text parse_table.

Record scenario : Type := {
  valid : bool;          (* the validation passes *)
  pm_ok : bool;          (* the package manager succeeds *)
  trix_ok : bool;        (* the trix installer succeeds *)
  devnet_ok : bool;      (* the devnet bundle can be copied *)
  scaffold_ok : bool     (* the project generator succeeds *)
}.

Definition all_fine : scenario :=
  {| valid := true; pm_ok := true; trix_ok := true; devnet_ok := true;
     scaffold_ok := true |}.

(** Modelled from the spec: a ValidationResult is valid exactly when it has
    no error (section 3). *)
Definition validation_of (ok : bool) (complaint : string) : ValidationResult :=
  if ok then {| isValid := true; errors := []; warnings := [] |}
  else {| isValid := false; errors := [complaint]; warnings := [] |}.

(** Modelled from the spec: the package manager is inferred from the
    lockfile present, npm by default (section 4.1). *)
Definition sample_detectPackageManager (w : world) : string :=
  if fileExists "pnpm-lock.yaml" w then "pnpm"
  else if fileExists "yarn.lock" w then "yarn"
  else "npm".

(** Modelled from the spec: the manifest is read and parsed as JSON. *)
Definition sample_readPackageJson : M world value :=
  content ← readFile "package.json";
  match parse content with
  | Some packageJson => mret packageJson
  | None => throw (Error "Failed to parse package.json")
  end.

Definition declares (packageJson : value) (list_name pkg : string) : bool :=
  match get (Some packageJson) list_name with
  | Ok (Some (VObject deps)) => bool_decide (is_Some (alookup pkg deps))
  | _ => false
  end.

(** Modelled from the spec: a package is skipped when a dependency list of
    the manifest already has it (section 4.5). *)
Definition sample_getMissingPackages (packages : list string)
    : M world (list string) :=
  packageJson ← sample_readPackageJson;
  mret (List.filter
          (fun pkg => negb (declares packageJson "dependencies" pkg
                            || declares packageJson "devDependencies" pkg))
          packages).

(** Modelled from the spec: the package manager is an external command
    that succeeds or fails; here it leaves a lockfile behind. *)
Definition sample_installPackages (ok : bool) (packages : list string)
    (dev : bool) : M world unit :=
  if ok then writeFile "package-lock.json" "{}"
  else throw (Error "Command failed: npm install").

Fixpoint set_scripts (scripts : list (string * string)) (packageJson : value)
    : result value :=
  match scripts with
  | [] => Ok packageJson
  | (name, command) :: rest =>
      packageJson ← assign_in packageJson "scripts"
                      (fun o => set o name (VString command));
      set_scripts rest packageJson
  end.

(** Modelled from the spec: the three scripts are set unconditionally under
    [scripts], which is created when absent (section 4.4). *)
Definition sample_addScripts (scripts : list (string * string)) : M world value :=
  packageJson ← sample_readPackageJson;
  existing ← lift_result (get (Some packageJson) "scripts");
  packageJson ← lift_result
    (if truthy existing then Ok packageJson
     else set (Some packageJson) "scripts" (VObject []));
  lift_result (set_scripts scripts packageJson).

(** Modelled from the spec: the manifest is written back with an
    indentation of two spaces. *)
Definition sample_writePackageJson (packageJson : value) : M world unit :=
  writeFile "package.json" (JSON_stringify packageJson 2).

(** Modelled from the spec: the trix installer is an external command that
    succeeds or fails (section 4.5). *)
Definition sample_installTrix (ok : bool) (verbose : bool) : M world unit :=
  if ok then mret tt else throw (Error "Command failed: tx3up").

(** Modelled from the spec: the devnet bundle is copied into the target
    directory, or is missing (section 4.5). *)
Definition sample_copyDevnetFolder (ok : bool) (target : string) : M world unit :=
  if ok then
    createDirectory target;;
    writeFile (target +:+ "/dolos.toml") "[upstream]"
  else throw (Error "devnet bundle not found").

(** Modelled from the spec: the project generator is an external command;
    on success it writes a [package.json] and a [tsconfig.json] into the
    directory it is run in. *)
Definition sample_execSync (ok : bool) (command : string)
    (dir : option string) : M world unit :=
  if ok then
    match dir with
    | Some d =>
        mkdir_recursive d;;
        writeFile (d +:+ "/package.json") package_text;;
        writeFile (d +:+ "/tsconfig.json") tsconfig_text
    | None => mret tt
    end
  else throw (Error ("Command failed: " +:+ command)).

Definition collaborators (s : scenario) : Collaborators := {|
  JSON_parse := parse;
  confirm := fun _ _ => true;
  ask_project_name := fun _ => "my-app";
  execSync := sample_execSync (scaffold_ok s);
  validateFreshProject := fun _ =>
    validation_of (valid s) "Directory is not writable";
  validateNextJsProject := fun w =>
    validation_of (valid s && fileExists "package.json" w)
      "package.json not found. Are you in a Next.js project?";
  detectPackageManager := sample_detectPackageManager;
  getMissingPackages := sample_getMissingPackages;
  installPackages := sample_installPackages (pm_ok s);
  addScripts := sample_addScripts;
  readPackageJson := sample_readPackageJson;
  writePackageJson := sample_writePackageJson;
  checkTrixInstalled := fun _ => false;
  installTrix := sample_installTrix (trix_ok s);
  copyDevnetFolder := sample_copyDevnetFolder (devnet_ok s);
  trixTomlTemplate := "[protocol]";
  mainTx3Template := "party Sender;";
  generateScriptTemplate := "import { glob } from 'glob';"
|}.

Definition root : path := ["home"; "dev"; "shop"].

(** A Next.js project with a [package.json] and a [tsconfig.json]. *)
Definition project : world := {|
  cwd := root;
  files := {[ root ++ ["package.json"] := package_text;
              root ++ ["tsconfig.json"] := tsconfig_text ]};
  dirs := {[ root ]};
  console := []
|}.

(** The same project where [tx3/main.tx3] is a directory, so that the
    second template cannot be written. *)
Definition project_blocked : world :=
  set_dirs ({[ root; root ++ ["tx3"; "main.tx3"] ]}) project.

(** The project without its [tsconfig.json]. *)
Definition project_without_tsconfig : world :=
  set_files ({[ root ++ ["package.json"] := package_text ]}) project.

(** An empty directory in which [init] is called. *)
Definition workspace : world := {|
  cwd := ["home"; "dev"];
  files := ∅;
  dirs := {[ ["home"; "dev"] ]};
  console := []
|}.

Definition options : InstallOptions :=
  {| dryRun := false; force := false; fresh := false; verbose := false |}.

Definition init_options : InitOptions :=
  {| projectName := Some "my-app"; init_dryRun := false |}.

End Sample.

(** ** Runs: what a computation guarantees, and what the collaborators are
    assumed to respect *)
Module Runs.

(** Started in a state that satisfies [P], the computation [m] ends in a
    state and with a result that satisfy [Q]. *)
Definition hoare {S A} (P : S -> Prop) (m : M S A) (Q : S -> result A -> Prop)
    : Prop :=
  forall s s' r, P s -> m s = (s', r) -> Q s' r.

(** The call comes back: it returns or throws, it does not end the
    process. *)
Definition comes_back {A} (r : result A) : Prop :=
  forall code, r <> Exit code.

(** [m] keeps the invariant [I] and comes back. *)
Definition keeps {S A} (I : S -> Prop) (m : M S A) : Prop :=
  hoare I m (fun s' r => I s' /\ comes_back r).

(** The files of which [installCommand] takes a backup. *)
Definition protected : list string := ["package.json"; "tsconfig.json"].

Definition original (c : path) (file : string) : path := c ++ [file].

Definition backup_copy (c : path) (file : string) : path :=
  c ++ [backupDir; file].

(** The entry that [backupFile] returns for an existing file. *)
Definition entry_of (file : string) : BackupEntry :=
  {| originalPath := file;
     backupPath := backupDir +:+ "/" +:+ file;
     existedBefore := true |}.

(** [m] stays in the working directory, makes no directory of a protected
    file, leaves the backup copies as they are, and comes back. *)
Definition leaves_backups_alone {A} (m : M world A) : Prop :=
  forall w w' r, m w = (w', r) ->
    cwd w' = cwd w /\
    (forall file, file ∈ protected ->
       original (cwd w) file ∈ dirs w' -> original (cwd w) file ∈ dirs w) /\
    (forall file, file ∈ protected ->
       files w' !! backup_copy (cwd w) file = files w !! backup_copy (cwd w) file) /\
    comes_back r.

(** What is assumed of [PackageUtils] in the proofs about the rollback. *)
Class WellBehaved `{Collaborators} : Prop := {
  getMissingPackages_frame :
    forall packages, leaves_backups_alone (getMissingPackages packages);
  installPackages_frame :
    forall packages dev, leaves_backups_alone (installPackages packages dev);
  addScripts_frame :
    forall scripts, leaves_backups_alone (addScripts scripts);
  writePackageJson_frame :
    forall packageJson, leaves_backups_alone (writePackageJson packageJson)
}.

(** During the [try] block of a command started in [w0]: every backup taken
    is the entry of a protected file that existed in [w0] and is not a
    directory, its copy holds the bytes the file had in [w0], and a
    protected file of which no backup was taken yet still has them. *)
Definition restorable (w0 : world) (s : istate) : Prop :=
  cwd (iworld s) = cwd w0 /\
  (forall file, file ∈ protected ->
     is_Some (files w0 !! original (cwd w0) file) ->
     original (cwd w0) file ∉ dirs (iworld s)) /\
  (forall b, b ∈ backups s ->
     exists file, file ∈ protected /\ b = entry_of file /\
       is_Some (files w0 !! original (cwd w0) file) /\
       files (iworld s) !! backup_copy (cwd w0) file
       = files w0 !! original (cwd w0) file) /\
  (forall file, file ∈ protected ->
     is_Some (files w0 !! original (cwd w0) file) ->
     entry_of file ∉ backups s ->
     files (iworld s) !! original (cwd w0) file
     = files w0 !! original (cwd w0) file).

(** A backup was taken of every protected file that existed in [w0]. *)
Definition backed_up (w0 : world) (s : istate) : Prop :=
  forall file, file ∈ protected ->
    is_Some (files w0 !! original (cwd w0) file) ->
    entry_of file ∈ backups s.

(** The invariant that [leaves_backups_alone] amounts to: in directory [c],
    no protected file became a directory since [dirs0], and the backup
    copies hold [saved]. *)
Definition frame_inv (c : path) (dirs0 : gset path)
    (saved : string -> option string) (w : world) : Prop :=
  cwd w = c /\
  (forall file, file ∈ protected ->
     original c file ∈ dirs w -> original c file ∈ dirs0) /\
  (forall file, file ∈ protected -> files w !! backup_copy c file = saved file).

(** After the backups: they can be restored and none is missing. *)
Definition ready (w0 : world) (s : istate) : Prop :=
  restorable w0 s /\ backed_up w0 s.

(** The body of the backup loop. *)
Definition backup_body (file : string) : M istate unit :=
  entry ← lift (backupFile file);
  push_backup entry.

(** The files in [todo] have no backup yet. *)
Definition pending (w0 : world) (todo : list string) (s : istate) : Prop :=
  restorable w0 s /\ forall file, file ∈ todo -> entry_of file ∉ backups s.

(** Before the backup loop: no backup yet, and the protected files as they
    were in [w0]. *)
Definition untouched (w0 : world) (s : istate) : Prop :=
  pending w0 protected s /\
  forall file, file ∈ protected ->
    files (iworld s) !! original (cwd w0) file = files w0 !! original (cwd w0) file.

(** The body of the rollback loop. *)
Definition restore_body (backup : BackupEntry) : M istate unit :=
  try_catch (lift (restoreFromBackup backup))
    (fun rollbackError =>
       lift (log_error ("Failed to restore " +:+ originalPath backup +:+ ": "
                          +:+ exn_toString rollbackError))).

(** What [install_completed] prints. *)
Definition completed_lines : list event :=
  [ Log "TX3 installation completed successfully!";
    Log "";
    Log "Next steps:";
    Log "1. Update tx3/trix.toml with your configuration";
    Log "2. Add your TX3 code to tx3/main.tx3";
    Log ("3. Run " +:+ String dquote "npm run dev" +:+ String dquote
           " to start development with TX3") ].

(** How the trix step of the [try] block goes in [w], and the state it
    leaves: it is not run; the installer returns; the installer throws, and
    the warning and the hint are printed. *)
Inductive trix_outcome `{Collaborators} (verbose shouldInstallTrix : bool)
    (w : world) : world -> Prop :=
  | trix_skipped :
      shouldInstallTrix = false ->
      trix_outcome verbose shouldInstallTrix w w
  | trix_installed (wt : world) :
      shouldInstallTrix = true ->
      installTrix verbose
        (print (if verbose then Log "Installing trix via tx3up..."
                else Spinner Start "Installing trix via tx3up...") w)
      = (wt, Ok tt) ->
      trix_outcome verbose shouldInstallTrix w
        (print (if verbose then Log "trix installed successfully"
                else Spinner Succeed "trix installed successfully") wt)
  | trix_failed (wt : world) (error : exn) :
      shouldInstallTrix = true ->
      installTrix verbose
        (print (if verbose then Log "Installing trix via tx3up..."
                else Spinner Start "Installing trix via tx3up...") w)
      = (wt, Throw error) ->
      trix_outcome verbose shouldInstallTrix w
        (print (Log trix_manual_hint)
           (print (if verbose
                   then Log "trix installation failed, but continuing with TX3 setup"
                   else Spinner Warn
                          "trix installation failed, but continuing with TX3 setup")
              wt)).

(** The same for the devnet step: it is not run; [setupDevnet] returns;
    [setupDevnet] throws, and the warning is printed. *)
Inductive devnet_outcome `{Collaborators} (verbose includeDevnet : bool)
    (w : world) : world -> Prop :=
  | devnet_skipped :
      includeDevnet = false ->
      devnet_outcome verbose includeDevnet w w
  | devnet_set_up (wd : world) :
      includeDevnet = true ->
      setupDevnet
        (print (if verbose then Log "Setting up devnet configuration..."
                else Spinner Start "Setting up devnet configuration...") w)
      = (wd, Ok tt) ->
      devnet_outcome verbose includeDevnet w
        (print (if verbose then Log "Devnet configuration created"
                else Spinner Succeed "Devnet configuration created") wd)
  | devnet_failed (wd : world) (error : exn) :
      includeDevnet = true ->
      setupDevnet
        (print (if verbose then Log "Setting up devnet configuration..."
                else Spinner Start "Setting up devnet configuration...") w)
      = (wd, Throw error) ->
      devnet_outcome verbose includeDevnet w
        (print (if verbose
                then Log "Devnet setup failed, but continuing with installation"
                else Spinner Warn
                       "Devnet setup failed, but continuing with installation")
           wd).

(** With what [installCommand] of the revision comes to its last question,
    from the state [w] in which the validation left it (lines 360-392): the
    state, [installTrix] and [includeDevnet]. *)
Definition best_effort_choices `{Collaborators} (options : InstallOptions)
    (w : world) : world * bool * bool :=
  if verbose options then (w, false, false)
  else
    let trixInstalled := checkTrixInstalled w in
    let shouldInstallTrix :=
      if trixInstalled then false else confirm ShouldInstallTrix w in
    let w' := if trixInstalled then print (Log "trix is already installed") w
              else w in
    let includeDevnet :=
      if checkTrixInstalled w' || shouldInstallTrix
      then confirm ShouldIncludeDevnet w' else false in
    (w', shouldInstallTrix, includeDevnet).

End Runs.

(** ** Effects: what a command may change, and how it may end *)
Module Effects.
Import Runs.

(** How a call ends when it does not return: the error thrown, or the exit
    status. *)
Definition abnormal {A} (r : result A) : option (exn + Z) :=
  match r with
  | Ok _ => None
  | Throw e => Some (inl e)
  | Exit code => Some (inr code)
  end.

(** [m] keeps the invariant [I], and when it does not return it ends in one
    of the ways [bad]. *)
Definition ends {S A} (I : S -> Prop) (bad : exn + Z -> Prop) (m : M S A)
    : Prop :=
  hoare I m (fun s' r => I s' /\ forall x, abnormal r = Some x -> bad x).

(** Some error is thrown: the process is not ended. *)
Definition thrown (x : exn + Z) : Prop := exists e, x = inl e.

(** The same working directory, files and directories; the console may
    differ. *)
Definition same_disk (w0 w : world) : Prop :=
  cwd w = cwd w0 /\ files w = files w0 /\ dirs w = dirs w0.

(** [m] reads the file system without changing it, and comes back. *)
Definition read_only {A} (m : M world A) : Prop :=
  forall w0, ends (same_disk w0) thrown m.

(** The line that the rollback prints for a backup it could not restore. *)
Definition restore_failure (todo : list BackupEntry) (e : event) : Prop :=
  exists backup rollbackError,
    backup ∈ todo /\
    e = LogError ("Failed to restore " +:+ originalPath backup +:+ ": "
                    +:+ exn_toString rollbackError).



(** While the backups are taken in a process started in [w]: the working
    directory is the same, no file outside the backup directory has changed,
    no directory was removed and none made but the backup directory (with
    its ancestors), and every entry pushed is that of a protected file that
    existed in [w], with its bytes in the copy. *)
Definition backup_footprint (w : world) (s : istate) : Prop :=
  cwd (iworld s) = cwd w /\
  (forall p, ~ (cwd w ++ [backupDir]) `prefix_of` p ->
     files (iworld s) !! p = files w !! p) /\
  (forall d, d ∈ dirs w -> d ∈ dirs (iworld s)) /\
  (forall d, d ∈ dirs (iworld s) ->
     d ∈ dirs w \/ d `prefix_of` (cwd w ++ [backupDir])) /\
  (forall b, b ∈ backups s ->
     exists file, file ∈ protected /\ b = entry_of file /\
       is_Some (files w !! original (cwd w) file) /\
       files (iworld s) !! backup_copy (cwd w) file
       = files w !! original (cwd w) file).

(** The line that the rollback prints when the restore of [backup] throws
    [rollbackError]. *)
Definition restore_failure_line (backup : BackupEntry) (rollbackError : exn)
    : event :=
  LogError ("Failed to restore " +:+ originalPath backup +:+ ": "
              +:+ exn_toString rollbackError).

(** The rollback loop over [todo] from [w] to [w'], restore by restore: a
    restore that returns hands its state to the next one; one that throws
    is reported on the console, in [lines], and the loop goes on with the
    next entry. *)
Inductive restores : list BackupEntry -> world -> world -> list event -> Prop :=
  | restores_done (w : world) : restores [] w w []
  | restores_next (backup : BackupEntry) (todo : list BackupEntry)
      (w w1 w' : world) (lines : list event) :
      restoreFromBackup backup w = (w1, Ok tt) ->
      restores todo w1 w' lines ->
      restores (backup :: todo) w w' lines
  | restores_failed (backup : BackupEntry) (todo : list BackupEntry)
      (w w1 w' : world) (rollbackError : exn) (lines : list event) :
      restoreFromBackup backup w = (w1, Throw rollbackError) ->
      restores todo (print (restore_failure_line backup rollbackError) w1) w' lines ->
      restores (backup :: todo) w w'
        (restore_failure_line backup rollbackError :: lines).

(** The entry [backup] is restored in [w'], from its copy as it was in [w]:
    the original has the bytes of the copy, or is absent when it did not
    exist at the time of the backup. *)
Definition restored (backup : BackupEntry) (w w' : world) : Prop :=
  if existedBefore backup then
    exists content,
      files w !! resolve (cwd w) (backupPath backup) = Some content /\
      files w' !! resolve (cwd w) (originalPath backup) = Some content
  else files w' !! resolve (cwd w) (originalPath backup) = None.

(** The failure to restore [backup] is among [lines]. *)
Definition reported (backup : BackupEntry) (lines : list event) : Prop :=
  exists rollbackError, restore_failure_line backup rollbackError ∈ lines.

(** No two entries of [todo] have the same original, and no copy is the
    original of an entry. *)
Definition separate (c : path) (todo : list BackupEntry) : Prop :=
  NoDup (map (fun backup => resolve c (originalPath backup)) todo) /\
  forall backup backup', backup ∈ todo -> backup' ∈ todo ->
    resolve c (backupPath backup) <> resolve c (originalPath backup').

End Effects.

(** ** Collaborators that differ from others in one respect *)
Module Scenarios.
Import Sample.

(** [C] with other answers at the prompts. *)
Definition with_answers (C : Collaborators)
    (answers : question -> world -> bool) : Collaborators := {|
  JSON_parse := @JSON_parse C;
  confirm := answers;
  ask_project_name := @ask_project_name C;
  execSync := @execSync C;
  validateFreshProject := @validateFreshProject C;
  validateNextJsProject := @validateNextJsProject C;
  detectPackageManager := @detectPackageManager C;
  getMissingPackages := @getMissingPackages C;
  installPackages := @installPackages C;
  addScripts := @addScripts C;
  readPackageJson := @readPackageJson C;
  writePackageJson := @writePackageJson C;
  checkTrixInstalled := @checkTrixInstalled C;
  installTrix := @installTrix C;
  copyDevnetFolder := @copyDevnetFolder C;
  trixTomlTemplate := @trixTomlTemplate C;
  mainTx3Template := @mainTx3Template C;
  generateScriptTemplate := @generateScriptTemplate C
|}.

(** [C] with another trix installer and another devnet bundle. *)
Definition with_tools (C : Collaborators) (check : world -> bool)
    (install : bool -> M world unit) (copy : string -> M world unit)
    : Collaborators := {|
  JSON_parse := @JSON_parse C;
  confirm := @confirm C;
  ask_project_name := @ask_project_name C;
  execSync := @execSync C;
  validateFreshProject := @validateFreshProject C;
  validateNextJsProject := @validateNextJsProject C;
  detectPackageManager := @detectPackageManager C;
  getMissingPackages := @getMissingPackages C;
  installPackages := @installPackages C;
  addScripts := @addScripts C;
  readPackageJson := @readPackageJson C;
  writePackageJson := @writePackageJson C;
  checkTrixInstalled := check;
  installTrix := install;
  copyDevnetFolder := copy;
  trixTomlTemplate := @trixTomlTemplate C;
  mainTx3Template := @mainTx3Template C;
  generateScriptTemplate := @generateScriptTemplate C
|}.

(** The answers of [C], but [answer] to the question about TX3 files that
    are already there. *)
Definition proceed_answer (C : Collaborators) (answer : world -> bool)
    (q : question) : world -> bool :=
  match q with
  | ProceedAnyway => answer
  | _ => @confirm C q
  end.

(** [C] with another validation, of a fresh and of an existing project. *)
Definition with_validation (C : Collaborators)
    (validate : world -> ValidationResult) : Collaborators := {|
  JSON_parse := @JSON_parse C;
  confirm := @confirm C;
  ask_project_name := @ask_project_name C;
  execSync := @execSync C;
  validateFreshProject := validate;
  validateNextJsProject := validate;
  detectPackageManager := @detectPackageManager C;
  getMissingPackages := @getMissingPackages C;
  installPackages := @installPackages C;
  addScripts := @addScripts C;
  readPackageJson := @readPackageJson C;
  writePackageJson := @writePackageJson C;
  checkTrixInstalled := @checkTrixInstalled C;
  installTrix := @installTrix C;
  copyDevnetFolder := @copyDevnetFolder C;
  trixTomlTemplate := @trixTomlTemplate C;
  mainTx3Template := @mainTx3Template C;
  generateScriptTemplate := @generateScriptTemplate C
|}.

End Scenarios.

(** * Properties *)

(** ** Strings *)

Lemma startsWith_spec (p s : string) :
  startsWith p s = true <-> exists post, s = p +:+ post.
Proof.
  revert s. induction p as [|a p IH]; intros s; simpl.
  - split; [intros _; by exists s | done].
  - destruct s as [|b s].
    + split; [done | intros [post Hpost]; discriminate].
    + destruct (Ascii.eqb_spec a b) as [->|Hne].
      * rewrite IH. split; intros [post Hpost]; exists post.
        -- by rewrite Hpost.
        -- by injection Hpost.
      * split; [done | intros [post Hpost]; injection Hpost; congruence].
Qed.

(** [includes] is substring containment. *)
Lemma includes_spec (p s : string) :
  includes p s = true <-> exists pre post, s = pre +:+ p +:+ post.
Proof.
  induction s as [|c s IH]; simpl.
  - rewrite orb_false_r, startsWith_spec. split.
    + intros [post Hpost]. by exists EmptyString, post.
    + intros [pre [post Hpost]]. destruct pre; [by exists post | discriminate].
  - rewrite orb_true_iff, startsWith_spec, IH. split.
    + intros [[post Hpost] | [pre [post Hpost]]].
      * by exists EmptyString, post.
      * exists (String c pre), post. simpl. by rewrite Hpost.
    + intros [pre [post Hpost]]. destruct pre as [|c' pre].
      * left. by exists post.
      * right. exists pre, post. simpl in Hpost. by injection Hpost.
Qed.

Lemma count_char_nonneg (c : ascii) (s : string) : 0 <= count_char c s.
Proof. induction s as [|a s IH]; simpl; [lia | destruct (Ascii.eqb a c); lia]. Qed.

Lemma includes_char_count (c : ascii) (s : string) :
  includes (String c EmptyString) s = true <-> 0 < count_char c s.
Proof.
  induction s as [|a s IH]; simpl; [split; [done | lia] |].
  pose proof (count_char_nonneg c s) as Hnn.
  destruct (Ascii.eqb_spec c a) as [->|Hne].
  - rewrite Ascii.eqb_refl. simpl. split; [lia | done].
  - destruct (Ascii.eqb_spec a c) as [->|_]; [done |].
    simpl. rewrite IH. lia.
Qed.

Lemma includes_char_none (c : ascii) (s : string) :
  includes (String c EmptyString) s = false -> count_char c s = 0.
Proof.
  intros Hno. pose proof (count_char_nonneg c s) as Hnn.
  destruct (Z.eq_dec (count_char c s) 0) as [|Hpos]; [done |].
  assert (includes (String c EmptyString) s = true) as Hyes
    by (apply includes_char_count; lia).
  congruence.
Qed.

(** ** Lists *)

Lemma findIndex_spec {A} (p : A -> bool) (l : list A) (i : nat) :
  findIndex p l = Some i <->
  (exists x, l !! i = Some x /\ p x = true) /\
  (forall j y, (j < i)%nat -> l !! j = Some y -> p y = false).
Proof.
  revert i. induction l as [|x l IH]; intros i; simpl.
  - split; [done | intros [[y [Hy _]] _]; done].
  - destruct (p x) eqn:Hpx.
    + split.
      * intros [= <-]. split; [by exists x | intros j y Hj; lia].
      * intros [_ Hbefore]. destruct i as [|i]; [done |].
        specialize (Hbefore O x). simpl in Hbefore.
        rewrite Hbefore in Hpx; [done | lia | done].
    + destruct i as [|i].
      * split.
        -- destruct (findIndex p l); done.
        -- intros [[y [[= <-] Hy]] _]. congruence.
      * assert (option_map S (findIndex p l) = Some (S i) <-> findIndex p l = Some i)
          as -> by (destruct (findIndex p l); simpl; split; congruence).
        rewrite IH. split; intros [Hat Hbefore]; (split; [exact Hat |]).
        -- intros [|j] y Hj Hy; simpl in Hy; [congruence | apply (Hbefore j); [lia | done]].
        -- intros j y Hj Hy. apply (Hbefore (S j)); [lia | done].
Qed.

Lemma findIndex_None {A} (p : A -> bool) (l : list A) :
  findIndex p l = None <-> forall i x, l !! i = Some x -> p x = false.
Proof.
  induction l as [|x l IH]; simpl.
  - split; [intros _ i y; done | done].
  - destruct (p x) eqn:Hpx.
    + split; [done | intros Hall; specialize (Hall O x); simpl in Hall].
      rewrite Hall in Hpx; done.
    + assert (option_map S (findIndex p l) = None <-> findIndex p l = None)
        as -> by (destruct (findIndex p l); simpl; split; congruence).
      rewrite IH. split.
      * intros Hall [|i] y Hy; simpl in Hy; [congruence | by apply (Hall i)].
      * intros Hall i y Hy. by apply (Hall (S i)).
Qed.

(** ** The webpack merge *)
Section WebpackMerge.
Import NextConfig MergeSpec.

Lemma brace_step (line : string) (braceCount : Z) :
  (if includes "{" line then braceCount + count_char "{" line else braceCount)
    - count_char "}" line
  = braceCount + brace_delta line.
Proof.
  unfold brace_delta. destruct (includes "{" line) eqn:Hopen; [lia |].
  apply includes_char_none in Hopen. lia.
Qed.

(** Once an open brace was seen, the loop stops at the first line where the
    count is zero. *)
Lemma scan_braces_found (ls : list string) (i : nat) (braceCount : Z) (n : nat) :
  scan_braces ls i braceCount true = Some n <->
  exists k, n = (i + k)%nat /\ (k < length ls)%nat /\
    braceCount + running_count (take (S k) ls) = 0 /\
    (forall j, (j < k)%nat -> braceCount + running_count (take (S j) ls) <> 0).
Proof.
  revert i braceCount. induction ls as [|line rest IH]; intros i braceCount.
  - simpl. split; [done | intros [k [_ [Hk _]]]; simpl in Hk; lia].
  - cbn [scan_braces orb]. rewrite brace_step.
    destruct (Z.eqb_spec (braceCount + brace_delta line) 0) as [Hzero|Hnonzero].
    + split.
      * intros [= <-]. exists O. split; [lia |]. split; [simpl; lia |].
        split; [simpl; lia | intros j Hj; lia].
      * intros [k [-> [_ [_ Hbefore]]]]. destruct k as [|k]; [f_equal; lia |].
        specialize (Hbefore O). simpl in Hbefore. lia.
    + rewrite IH. split.
      * intros [k [-> [Hlen [Hzero Hbefore]]]]. exists (S k).
        split; [lia |]. split; [simpl; lia |]. split.
        -- cbn [take running_count]. lia.
        -- intros [|j] Hj; cbn [take running_count]; [simpl; lia |].
           specialize (Hbefore j). lia.
      * intros [k [-> [Hlen [Hzero Hbefore]]]]. destruct k as [|k].
        -- simpl in Hzero. lia.
        -- exists k. split; [lia |]. split; [simpl in Hlen; lia |]. split.
           ++ cbn [take running_count] in Hzero. lia.
           ++ intros j Hj. specialize (Hbefore (S j)).
              cbn [take running_count] in Hbefore. lia.
Qed.

(** Until an open brace is seen, lines are skipped and nothing is counted. *)
Lemma scan_braces_skip (ls : list string) (i : nat) (braceCount : Z) :
  scan_braces ls i braceCount false =
  match findIndex (includes "{") ls with
  | None => None
  | Some f => scan_braces (drop f ls) (i + f) braceCount true
  end.
Proof.
  revert i. induction ls as [|line rest IH]; intros i; [done |].
  cbn [scan_braces findIndex orb]. destruct (includes "{" line) eqn:Hopen.
  - cbn [drop]. replace (i + 0)%nat with i by lia.
    cbn [scan_braces orb]. by rewrite Hopen.
  - rewrite IH. destruct (findIndex (includes "{") rest) as [f|]; [|done].
    cbn [option_map drop]. by replace (i + S f)%nat with (S i + f)%nat by lia.
Qed.

Lemma object_open_findIndex (lines : list string) (start first : nat) :
  object_open lines start first <->
  exists f, first = (start + f)%nat /\
    findIndex (includes "{") (drop start lines) = Some f.
Proof.
  unfold object_open. split.
  - intros [Hle [[line [Hat Hopen]] Hbefore]]. exists (first - start)%nat.
    split; [lia |]. apply findIndex_spec. split.
    + exists line. rewrite lookup_drop.
      by replace (start + (first - start))%nat with first by lia.
    + intros j y Hj Hy. rewrite lookup_drop in Hy.
      apply (Hbefore (start + j)%nat); [lia | done].
  - intros [f [-> Hfind]]. apply findIndex_spec in Hfind as [[line [Hat Hopen]] Hbefore].
    rewrite lookup_drop in Hat. split; [lia |]. split; [by exists line |].
    intros j y Hj Hy. apply (Hbefore (j - start)%nat); [lia |].
    rewrite lookup_drop. by replace (start + (j - start))%nat with j by lia.
Qed.

(** The loop of the code finds exactly the closing line of the
    specification. *)
Lemma find_insertIndex_closing_line (lines : list string) (start n : nat) :
  find_insertIndex lines start = Some n <-> closing_line lines start n.
Proof.
  unfold find_insertIndex, closing_line. rewrite scan_braces_skip. split.
  - destruct (findIndex (includes "{") (drop start lines)) as [f|] eqn:Hfind; [|done].
    rewrite scan_braces_found. intros [k [-> [Hlen [Hzero Hbefore]]]].
    exists (start + f)%nat. split; [apply object_open_findIndex; by exists f |].
    rewrite drop_drop, length_drop in Hlen. split; [lia |].
    unfold lines_between. split.
    + rewrite drop_drop in Hzero.
      replace (S (start + f + k) - (start + f))%nat with (S k) by lia. lia.
    + intros j Hj. specialize (Hbefore (j - (start + f))%nat).
      rewrite drop_drop in Hbefore.
      replace (S j - (start + f))%nat with (S (j - (start + f))) by lia.
      intros Hz. apply Hbefore; [lia |]. lia.
  - intros [first [Hopen [Hrange [Hzero Hbefore]]]].
    apply object_open_findIndex in Hopen as [f [-> Hfind]]. rewrite Hfind.
    apply scan_braces_found. exists (n - (start + f))%nat.
    split; [lia |]. rewrite drop_drop, length_drop. split; [lia |].
    unfold lines_between in *. split.
    + replace (S (n - (start + f))) with (S n - (start + f))%nat by lia. lia.
    + intros j Hj. specialize (Hbefore (start + f + j)%nat).
      replace (S (start + f + j) - (start + f))%nat with (S j) in Hbefore by lia.
      intros Hz. apply Hbefore; [lia |]. lia.
Qed.

Lemma config_start_findIndex (lines : list string) (start : nat) :
  findIndex is_config_start lines = Some start <-> config_start lines start.
Proof. apply findIndex_spec. Qed.

Lemma generateNextConfig_conflict (cfg : string) :
  includes "webpack:" cfg = true ->
  generateNextConfig (Some cfg) = Throw (Error conflict_message).
Proof.
  intros Hinc. destruct cfg as [|c cfg]; [done |].
  unfold generateNextConfig. by rewrite Hinc.
Qed.

Lemma generateNextConfig_no_conflict (cfg : string) :
  includes "webpack:" cfg = false ->
  generateNextConfig (Some cfg) <> Throw (Error conflict_message).
Proof.
  intros Hinc. destruct cfg as [|c cfg]; [done |].
  unfold generateNextConfig. rewrite Hinc.
  destruct (findIndex _ _) as [start|]; [|done].
  destruct (find_insertIndex _ _); done.
Qed.

(** C2: an existing configuration text that contains the key [webpack:]
    is refused with the conflict error that asks for a manual merge; the
    call throws, so no merged text is produced. *)
Theorem mergeWebpackConfig_refuses_existing_webpack_key (pre post : string) :
  generateNextConfig (Some (pre +:+ "webpack:" +:+ post))
  = Throw (Error conflict_message).
Proof.
  apply generateNextConfig_conflict, includes_spec. by exists pre, post.
Qed.

(** C9: the conflict error is raised exactly when the text contains the
    substring [webpack:]; a comment that contains it is enough, and a key
    written [webpack :] is not detected, so the TX3 block is spliced in
    next to it. *)
Theorem conflict_detection_is_substring_containment :
  (forall cfg : string,
     generateNextConfig (Some cfg) = Throw (Error conflict_message) <->
     exists pre post, cfg = pre +:+ "webpack:" +:+ post) /\
  generateNextConfig
    (Some (join newline ["// no webpack: key here"; "const nextConfig = {"; "};"]))
  = Throw (Error conflict_message) /\
  (exists merged,
     generateNextConfig
       (Some (join newline
                ["const nextConfig = {"; "  webpack : (config) => config,"; "};"]))
     = Ok merged /\
     includes "webpack : (config) => config" merged = true /\
     includes "webpack: (config) => {" merged = true).
Proof.
  split; [|split].
  - intros cfg. rewrite <- includes_spec. split.
    + intros Hthrow. destruct (includes "webpack:" cfg) eqn:Hinc; [done |].
      by apply generateNextConfig_no_conflict in Hinc.
    + apply generateNextConfig_conflict.
  - vm_compute. reflexivity.
  - eexists. split; [vm_compute; reflexivity |]. split; vm_compute; reflexivity.
Qed.

(** C3 (as amended): for a non-empty text without [webpack:], the merge
    takes the first line that declares the configuration variable or the
    module export, counts braces line by line from the line that opens the
    object until the running count is back to zero, and puts the TX3 block
    immediately before that line; without a start line, or without a closing
    line, it throws the parse error and returns no text.  The empty text is
    taken as an absent configuration. *)
Theorem mergeWebpackConfig_splices_before_closing_brace (cfg : string) :
  cfg <> EmptyString ->
  includes "webpack:" cfg = false ->
  let lines := split nl cfg in
  ((forall start, ~ config_start lines start) ->
   generateNextConfig (Some cfg) = Throw (Error no_start_message)) /\
  (forall start, config_start lines start ->
     ((forall close, ~ closing_line lines start close) ->
      generateNextConfig (Some cfg) = Throw (Error no_insertion_message)) /\
     (forall close, closing_line lines start close ->
        generateNextConfig (Some cfg)
        = Ok (join newline
                (take close lines ++ webpackConfig ++ drop close lines)))).
Proof.
  intros Hne Hinc lines. destruct cfg as [|c cfg]; [done |].
  unfold generateNextConfig. rewrite Hinc. fold lines. split.
  - intros Hnone. destruct (findIndex is_config_start lines) as [start|] eqn:Hfind; [|done].
    apply config_start_findIndex in Hfind. by destruct (Hnone start).
  - intros start Hstart. apply config_start_findIndex in Hstart. rewrite Hstart.
    split.
    + intros Hnone. destruct (find_insertIndex lines start) as [close|] eqn:Hscan; [|done].
      apply find_insertIndex_closing_line in Hscan. by destruct (Hnone close).
    + intros close Hclose. apply find_insertIndex_closing_line in Hclose.
      by rewrite Hclose.
Qed.

Lemma mergeWebpackConfig_splices_witness :
  let cfg := join newline
               [ "const nextConfig = {"; "  reactStrictMode: true,"; "};"; "";
                 "export default nextConfig;" ] in
  cfg <> EmptyString /\ includes "webpack:" cfg = false /\
  generateNextConfig (Some cfg)
  = Ok (join newline
          ([ "const nextConfig = {"; "  reactStrictMode: true," ]
           ++ webpackConfig
           ++ [ "};"; ""; "export default nextConfig;" ])).
Proof.
  intros cfg.
  assert (cfg <> EmptyString) as Hne by done.
  assert (includes "webpack:" cfg = false) as Hinc by (vm_compute; reflexivity).
  split; [exact Hne |]. split; [exact Hinc |].
  destruct (mergeWebpackConfig_splices_before_closing_brace cfg Hne Hinc)
    as [_ Hstart].
  destruct (Hstart 0%nat) as [_ Hclose].
  { apply config_start_findIndex. vm_compute. reflexivity. }
  apply (Hclose 2%nat).
  apply find_insertIndex_closing_line. vm_compute. reflexivity.
Defined.

(** The empty text has no [webpack:] and no start line, yet it is no parse
    error: [!existingConfig] holds of it, and the result is the complete new
    configuration, as for an absent one. *)
Lemma mergeWebpackConfig_empty_text_gives_new_config :
  includes "webpack:" EmptyString = false /\
  (forall start, ~ config_start (split nl EmptyString) start) /\
  generateNextConfig (Some EmptyString) = Ok new_config /\
  generateNextConfig (Some EmptyString) <> Throw (Error no_start_message).
Proof.
  split; [vm_compute; reflexivity |]. split; [| split; [reflexivity | done]].
  intros start Hstart. apply config_start_findIndex in Hstart.
  vm_compute in Hstart. discriminate Hstart.
Qed.

End WebpackMerge.

(** ** The tsconfig merge *)
Section TsconfigMerge.
Import Doc MergeStages.

Lemma value_ind_nested (P : value -> Prop) :
  P VNull -> (forall b, P (VBool b)) -> (forall t, P (VNumber t)) ->
  (forall s, P (VString s)) ->
  (forall elems props, Forall P elems -> Forall (fun kv => P kv.2) props ->
     P (VArray elems props)) ->
  (forall props, Forall (fun kv => P kv.2) props -> P (VObject props)) ->
  forall v, P v.
Proof.
  intros Hnull Hbool Hnum Hstr Harr Hobj.
  fix IH 1. intros v. destruct v as [|b|t|s|elems props|props].
  - exact Hnull.
  - apply Hbool.
  - apply Hnum.
  - apply Hstr.
  - apply Harr.
    + induction elems as [|e elems IHelems]; constructor; [apply IH | exact IHelems].
    + induction props as [|[k x] props IHprops]; constructor; [apply IH | exact IHprops].
  - apply Hobj.
    induction props as [|[k x] props IHprops]; constructor; [apply IH | exact IHprops].
Qed.

Lemma json_part_idemp (v : value) : json_part (json_part v) = json_part v.
Proof.
  induction v as [| | | |elems props IHe _|props IHp] using value_ind_nested; try done.
  - simpl. f_equal. rewrite map_map. apply map_ext_Forall. exact IHe.
  - simpl. f_equal. rewrite map_map. apply map_ext_Forall.
    eapply Forall_impl; [exact IHp |]. intros [k x] Hx. simpl in *. by rewrite Hx.
Qed.

Lemma serialize_json_part (gap : string) (v : value) :
  forall indent, serialize gap indent (json_part v) = serialize gap indent v.
Proof.
  induction v as [| | | |elems props IHe _|props IHp] using value_ind_nested;
    intros indent; try done.
  - simpl. f_equal. rewrite map_map. apply map_ext_Forall.
    eapply Forall_impl; [exact IHe |]. intros x Hx. apply Hx.
  - simpl. f_equal. rewrite map_map. apply map_ext_Forall.
    eapply Forall_impl; [exact IHp |]. intros [k x] Hx. simpl in *. by rewrite Hx.
Qed.

Lemma alookup_aset_eq (k : string) (v : value) (ps : props_t) :
  alookup k (aset k v ps) = Some v.
Proof.
  induction ps as [|[k' v'] ps IH]; simpl.
  - by rewrite String.eqb_refl.
  - destruct (String.eqb_spec k k') as [->|Hne]; simpl.
    + by rewrite String.eqb_refl.
    + destruct (String.eqb_spec k k'); [done | exact IH].
Qed.

Lemma alookup_aset_ne (k k' : string) (v : value) (ps : props_t) :
  k <> k' -> alookup k' (aset k v ps) = alookup k' ps.
Proof.
  intros Hne. induction ps as [|[k0 v0] ps IH]; simpl.
  - destruct (String.eqb_spec k' k); [congruence | done].
  - destruct (String.eqb_spec k k0) as [->|Hne0]; simpl.
    + destruct (String.eqb_spec k' k0); [congruence | done].
    + destruct (String.eqb_spec k' k0); [done | exact IH].
Qed.

Lemma aset_same (k : string) (v : value) (ps : props_t) :
  alookup k ps = Some v -> aset k v ps = ps.
Proof.
  induction ps as [|[k' v'] ps IH]; simpl; [done |].
  destruct (String.eqb_spec k k') as [->|Hne].
  - by intros [= ->].
  - intros Hl. by rewrite IH.
Qed.

Lemma aset_aset (k : string) (v v' : value) (ps : props_t) :
  aset k v (aset k v' ps) = aset k v ps.
Proof.
  induction ps as [|[k0 v0] ps IH]; simpl.
  - by rewrite String.eqb_refl.
  - destruct (String.eqb_spec k k0) as [->|Hne]; simpl.
    + by rewrite String.eqb_refl.
    + destruct (String.eqb_spec k k0); [done | by rewrite IH].
Qed.

(** Existing keys keep their place; a new key goes last. *)
Lemma aset_keys (k : string) (v : value) (ps : props_t) :
  map fst (aset k v ps) =
  match alookup k ps with
  | Some _ => map fst ps
  | None => map fst ps ++ [k]
  end.
Proof.
  induction ps as [|[k0 v0] ps IH]; simpl; [done |].
  destruct (String.eqb_spec k k0) as [->|Hne]; simpl; [done |].
  rewrite IH. by destruct (alookup k ps).
Qed.

Lemma get_props (v : value) (ps : props_t) (k : string) :
  props_of v = Some ps -> get (Some v) k = Ok (alookup k ps).
Proof. destruct v; simpl; congruence. Qed.

Lemma set_props (v : value) (ps : props_t) (k : string) (x : value) :
  props_of v = Some ps -> set (Some v) k x = Ok (with_props v (aset k x ps)).
Proof. destruct v; simpl; congruence. Qed.

Lemma props_of_with_props (v : value) (ps ps' : props_t) :
  props_of v = Some ps -> props_of (with_props v ps') = Some ps'.
Proof. destruct v; simpl; intros; by simplify_eq. Qed.

Lemma with_props_with_props (v : value) (ps ps' : props_t) :
  with_props (with_props v ps) ps' = with_props v ps'.
Proof. by destruct v. Qed.

Lemma with_props_id (v : value) (ps : props_t) :
  props_of v = Some ps -> with_props v ps = v.
Proof. destruct v; simpl; congruence. Qed.

Lemma ensure_object_lookup (k : string) (ps : props_t) :
  exists c, alookup k (ensure_object k ps) = Some c /\ truthy (Some c) = true.
Proof.
  unfold ensure_object. destruct (truthy (alookup k ps)) eqn:Ht.
  - destruct (alookup k ps) as [c|]; [by exists c | done].
  - exists (VObject []). by rewrite alookup_aset_eq.
Qed.

Lemma ensure_object_fixed (k : string) (ps : props_t) :
  ensure_object k (ensure_object k ps) = ensure_object k ps.
Proof.
  destruct (ensure_object_lookup k ps) as [c [Hc Ht]].
  unfold ensure_object at 1. by rewrite Hc, Ht.
Qed.




Lemma bind_Ok {A B} (a : A) (f : A -> result B) : (Ok a ≫= f) = f a.
Proof. reflexivity. Qed.

Ltac ok_step := rewrite ?bind_Ok; cbv beta.

Lemma assign_in_props (d : value) (ps : props_t) (k : string) (c c' : value)
    (inner : option value -> result value) :
  props_of d = Some ps -> alookup k ps = Some c -> inner (Some c) = Ok c' ->
  assign_in d k inner = Ok (with_props d (aset k c' ps)).
Proof.
  intros Hd Hc Hinner. unfold assign_in. rewrite (get_props d ps) by done.
  ok_step. rewrite Hc, Hinner. ok_step. by apply set_props.
Qed.


Lemma bind_Throw {A B} (e : exn) (f : A -> result B) : (Throw e ≫= f) = Throw e.
Proof. reflexivity. Qed.



Lemma setTx3Paths_step1 (d : value) (ps : props_t) :
  props_of d = Some ps ->
  setTx3Paths d
  = after_compilerOptions (with_props d (ensure_object "compilerOptions" ps)).
Proof.
  intros Hd. unfold setTx3Paths. rewrite (get_props d ps) by done. ok_step.
  assert ((if truthy (alookup "compilerOptions" ps) then Ok d
           else set (Some d) "compilerOptions" (VObject []))
          = Ok (with_props d (ensure_object "compilerOptions" ps))) as ->.
  { unfold ensure_object. destruct (truthy (alookup "compilerOptions" ps)).
    - by rewrite with_props_id.
    - by apply set_props. }
  by ok_step.
Qed.

Lemma after_compilerOptions_step (t c : value) (ps1 cps : props_t) :
  props_of t = Some ps1 ->
  alookup "compilerOptions" ps1 = Some c ->
  props_of c = Some cps ->
  after_compilerOptions t
  = assign_paths
      (with_props t
         (aset "compilerOptions" (with_props c (ensure_object "paths" cps)) ps1)).
Proof.
  intros Ht Hc Hcps. unfold after_compilerOptions.
  rewrite (get_props t ps1) by done. ok_step. rewrite Hc.
  rewrite (get_props c cps) by done. ok_step.
  assert ((if truthy (alookup "paths" cps) then Ok t
           else assign_in t "compilerOptions"
                  (fun co => set co "paths" (VObject [])))
          = Ok (with_props t
                  (aset "compilerOptions"
                     (with_props c (ensure_object "paths" cps)) ps1))) as ->.
  { unfold ensure_object. destruct (truthy (alookup "paths" cps)).
    - rewrite (with_props_id c cps) by done. rewrite aset_same by done.
      by rewrite with_props_id.
    - erewrite assign_in_props; [done | done | done | by apply set_props]. }
  by ok_step.
Qed.

Lemma setTx3Paths_merged (d c p : value) (ps cps pps : props_t) :
  props_of d = Some ps ->
  alookup "compilerOptions" (ensure_object "compilerOptions" ps) = Some c ->
  props_of c = Some cps ->
  alookup "paths" (ensure_object "paths" cps) = Some p ->
  props_of p = Some pps ->
  setTx3Paths d = Ok (merged_doc d c p ps cps pps).
Proof.
  intros Hd Hc Hcps Hp Hpps. rewrite (setTx3Paths_step1 d ps) by done.
  set (ps1 := ensure_object "compilerOptions" ps) in *.
  rewrite (after_compilerOptions_step _ c ps1 cps);
    [| by eapply props_of_with_props | done | done].
  set (cps1 := ensure_object "paths" cps) in *.
  set (c1 := with_props c cps1).
  assert (props_of c1 = Some cps1) as Hc1 by (by eapply props_of_with_props).
  rewrite with_props_with_props. unfold assign_paths.
  erewrite assign_in_props;
    [| by eapply props_of_with_props | apply alookup_aset_eq |]; cycle 1.
  { rewrite (get_props c1 cps1) by done. ok_step. rewrite Hp.
    rewrite (set_props p pps) by done. ok_step. by apply set_props. }
  ok_step. rewrite with_props_with_props, aset_aset.
  erewrite assign_in_props;
    [| by eapply props_of_with_props | apply alookup_aset_eq |]; cycle 1.
  { erewrite get_props by (by eapply props_of_with_props). ok_step.
    rewrite alookup_aset_eq.
    erewrite set_props by (by eapply props_of_with_props). ok_step.
    erewrite set_props by (by eapply props_of_with_props). done. }
  unfold merged_doc, merged_paths. subst c1.
  by rewrite !with_props_with_props, !aset_aset.
Qed.

Lemma truthy_primitive_set (c : value) (k : string) (x : value) :
  props_of c = None -> truthy (Some c) = true ->
  get (Some c) k = Ok None /\ exists m, set (Some c) k x = Throw (TypeError m).
Proof. destruct c; simpl; intros; try done; split; eauto. Qed.

(** The merge either finds objects (or arrays) at the three levels, or it
    throws a [TypeError]. *)
Lemma setTx3Paths_cases (d : value) :
  (exists c p ps cps pps,
     props_of d = Some ps /\
     alookup "compilerOptions" (ensure_object "compilerOptions" ps) = Some c /\
     props_of c = Some cps /\
     alookup "paths" (ensure_object "paths" cps) = Some p /\
     props_of p = Some pps) \/
  (exists m, setTx3Paths d = Throw (TypeError m)).
Proof.
  destruct (props_of d) as [ps|] eqn:Hd; cycle 1.
  { right. destruct d; try discriminate; eexists; reflexivity. }
  destruct (ensure_object_lookup "compilerOptions" ps) as [c [Hc Hct]].
  destruct (props_of c) as [cps|] eqn:Hcps; cycle 1.
  { right. rewrite (setTx3Paths_step1 d ps) by done.
    unfold after_compilerOptions.
    erewrite get_props by (by eapply props_of_with_props). ok_step. rewrite Hc.
    destruct (truthy_primitive_set c "paths" (VObject []) Hcps Hct) as [-> [m Hm]].
    ok_step. cbn [truthy]. unfold assign_in.
    erewrite get_props by (by eapply props_of_with_props). ok_step.
    rewrite Hc, Hm. rewrite !bind_Throw. by exists m. }
  destruct (ensure_object_lookup "paths" cps) as [p [Hp Hpt]].
  destruct (props_of p) as [pps|] eqn:Hpps; cycle 1.
  { right. rewrite (setTx3Paths_step1 d ps) by done.
    rewrite (after_compilerOptions_step _ c (ensure_object "compilerOptions" ps) cps);
      [| by eapply props_of_with_props | done | done].
    rewrite with_props_with_props. unfold assign_paths, assign_in.
    erewrite get_props by (by eapply props_of_with_props). ok_step.
    rewrite alookup_aset_eq.
    erewrite get_props by (by eapply props_of_with_props). ok_step. rewrite Hp.
    destruct (truthy_primitive_set p "@tx3/*" tx3_glob_paths Hpps Hpt) as [_ [m Hm]].
    rewrite Hm. rewrite !bind_Throw. by exists m. }
  left. by exists c, p, ps, cps, pps.
Qed.

Lemma setTx3Paths_inv (d d1 : value) :
  setTx3Paths d = Ok d1 ->
  exists c p ps cps pps,
    props_of d = Some ps /\
    alookup "compilerOptions" (ensure_object "compilerOptions" ps) = Some c /\
    props_of c = Some cps /\
    alookup "paths" (ensure_object "paths" cps) = Some p /\
    props_of p = Some pps /\
    d1 = merged_doc d c p ps cps pps.
Proof.
  intros Hok. destruct (setTx3Paths_cases d) as [Hshape | [m Hm]]; [|congruence].
  destruct Hshape as (c & p & ps & cps & pps & Hd & Hc & Hcps & Hp & Hpps).
  exists c, p, ps, cps, pps. repeat (split; [done |]).
  rewrite (setTx3Paths_merged d c p ps cps pps) in Hok by done. congruence.
Qed.


Lemma json_part_object (ps : props_t) :
  json_part (VObject ps) = VObject (json_props ps).
Proof. reflexivity. Qed.

Lemma json_part_array (elems : list value) (ps : props_t) :
  json_part (VArray elems ps) = VArray (map json_part elems) [].
Proof. reflexivity. Qed.

Lemma alookup_json_props (k : string) (ps : props_t) :
  alookup k (json_props ps) = json_part <$> alookup k ps.
Proof.
  induction ps as [|[k' v] ps IH]; simpl; [done |].
  by destruct (String.eqb k k').
Qed.

Lemma aset_json_props (k : string) (v : value) (ps : props_t) :
  json_props (aset k v ps) = aset k (json_part v) (json_props ps).
Proof.
  induction ps as [|[k' v'] ps IH]; simpl; [done |].
  destruct (String.eqb k k'); simpl; [done | by rewrite <- IH].
Qed.

Lemma json_props_idemp (ps : props_t) : json_props (json_props ps) = json_props ps.
Proof. pose proof (json_part_idemp (VObject ps)) as Hi. by injection Hi. Qed.

Lemma json_elems_idemp (elems : list value) :
  map json_part (map json_part elems) = map json_part elems.
Proof. pose proof (json_part_idemp (VArray elems [])) as Hi. by injection Hi. Qed.

Lemma merged_paths_json (pps : props_t) :
  json_props (merged_paths pps) = merged_paths (json_props pps).
Proof. unfold merged_paths. by rewrite !aset_json_props. Qed.

Lemma merged_paths_idemp (pps : props_t) :
  merged_paths (merged_paths pps) = merged_paths pps.
Proof.
  unfold merged_paths.
  rewrite (aset_same "@tx3/*" tx3_glob_paths
             (aset "@tx3" tx3_root_paths (aset "@tx3/*" tx3_glob_paths pps))).
  - apply aset_aset.
  - rewrite alookup_aset_ne by done. apply alookup_aset_eq.
Qed.

Lemma ensure_object_present (k : string) (ps : props_t) (c : value) :
  alookup k ps = Some c -> truthy (Some c) = true -> ensure_object k ps = ps.
Proof. intros Hc Ht. unfold ensure_object. by rewrite Hc, Ht. Qed.

Lemma truthy_props (v : value) (ps : props_t) :
  props_of v = Some ps -> truthy (Some v) = true.
Proof. destruct v; simpl; congruence. Qed.

Lemma ensure_object_aset (k : string) (v : value) (ps : props_t) :
  truthy (Some v) = true -> ensure_object k (aset k v ps) = aset k v ps.
Proof. intros Ht. eapply ensure_object_present; [apply alookup_aset_eq | done]. Qed.

(** Serializing the merged document and parsing it back gives a document
    that the merge leaves as it is, as far as [JSON.stringify] shows. *)
Lemma setTx3Paths_json_part_fixed (d d1 : value) :
  setTx3Paths d = Ok d1 ->
  exists d2, setTx3Paths (json_part d1) = Ok d2 /\ json_part d2 = json_part d1.
Proof.
  intros Hok. apply setTx3Paths_inv in Hok
    as (c & p & ps & cps & pps & Hd & Hc & Hcps & Hp & Hpps & ->).
  unfold merged_doc.
  set (ps1 := ensure_object "compilerOptions" ps) in *.
  set (cps1 := ensure_object "paths" cps) in *.
  destruct d as [| | | |elems dps|dps]; try discriminate; cbn [with_props].
  { (* the document is an array *)
    rewrite json_part_array. eexists. split; [reflexivity |].
    cbn [merged_doc with_props]. by rewrite json_part_array, json_elems_idemp. }
  rewrite json_part_object, aset_json_props.
  destruct c as [| | | |celems ccps|ccps]; try discriminate; cbn [with_props].
  { (* compilerOptions is an array *)
    rewrite json_part_array. eexists. split.
    - eapply setTx3Paths_merged;
        [done | rewrite ensure_object_aset by done; apply alookup_aset_eq | done | done | done].
    - unfold merged_doc. cbn [with_props].
      rewrite (ensure_object_aset "compilerOptions") by done.
      rewrite aset_aset, json_part_object, aset_json_props, json_part_array.
      by rewrite json_elems_idemp, json_props_idemp. }
  rewrite json_part_object, aset_json_props.
  destruct p as [| | | |pelems ppps|ppps]; try discriminate; cbn [with_props].
  { (* paths is an array *)
    rewrite json_part_array. eexists. split.
    - eapply setTx3Paths_merged;
        [done | rewrite ensure_object_aset by done; apply alookup_aset_eq | done | rewrite ensure_object_aset by done; apply alookup_aset_eq | done].
    - unfold merged_doc. cbn [with_props].
      rewrite (ensure_object_aset "compilerOptions") by done.
      rewrite (ensure_object_aset "paths") by done.
      rewrite !aset_aset, json_part_object, aset_json_props.
      rewrite json_part_object, aset_json_props, json_part_array.
      by rewrite json_elems_idemp, !json_props_idemp. }
  (* objects at the three levels *)
  rewrite json_part_object, merged_paths_json. eexists. split.
  - eapply setTx3Paths_merged;
      [done | rewrite ensure_object_aset by done; apply alookup_aset_eq | done | rewrite ensure_object_aset by done; apply alookup_aset_eq | done].
  - unfold merged_doc. cbn [with_props].
    rewrite (ensure_object_aset "compilerOptions") by done.
    rewrite (ensure_object_aset "paths") by done.
    rewrite !aset_aset, merged_paths_idemp.
    rewrite json_part_object, aset_json_props.
    rewrite json_part_object, aset_json_props.
    rewrite json_part_object, merged_paths_json.
    by rewrite !json_props_idemp.
Qed.

End TsconfigMerge.

Section TsconfigText.
Context `{Collaborators}.
Import Doc MergeStages.

Lemma only_changes_refl (keys : list string) (ps : props_t) :
  only_changes keys ps ps.
Proof. split; [done | exists []; by rewrite app_nil_r]. Qed.

Lemma only_changes_trans (keys : list string) (ps1 ps2 ps3 : props_t) :
  only_changes keys ps1 ps2 -> only_changes keys ps2 ps3 ->
  only_changes keys ps1 ps3.
Proof.
  intros [Hl12 [a12 Hk12]] [Hl23 [a23 Hk23]]. split.
  - intros k Hk. by rewrite Hl23, Hl12.
  - exists (a12 ++ a23). by rewrite Hk23, Hk12, app_assoc.
Qed.

Lemma only_changes_aset (keys : list string) (k : string) (v : value)
    (ps : props_t) :
  k ∈ keys -> only_changes keys ps (aset k v ps).
Proof.
  intros Hin. split.
  - intros k' Hk'. apply alookup_aset_ne. intros ->. done.
  - rewrite aset_keys. destruct (alookup k ps).
    + exists []. by rewrite app_nil_r.
    + by exists [k].
Qed.

Lemma only_changes_ensure (keys : list string) (k : string) (ps : props_t) :
  k ∈ keys -> only_changes keys ps (ensure_object k ps).
Proof.
  intros Hin. unfold ensure_object. destruct (truthy (alookup k ps)).
  - apply only_changes_refl.
  - by apply only_changes_aset.
Qed.

(** An object, or the object created where the property was missing or
    falsy. *)
Lemma ensure_object_or_falsy (k : string) (ps : props_t) :
  object_or_falsy (alookup k ps) ->
  alookup k (ensure_object k ps) = Some (VObject (props_or_empty (alookup k ps))).
Proof.
  intros [Hfalsy | [cps Hobj]]; unfold ensure_object.
  - rewrite Hfalsy, alookup_aset_eq.
    destruct (alookup k ps) as [[]|]; try done.
  - by rewrite Hobj.
Qed.

Lemma stringify_object_2 (ps : props_t) :
  ps <> [] ->
  JSON_stringify (VObject ps) 2
  = "{" +:+ String nl "  " +:+ join ("," +:+ String nl "  ") (map member_2 ps)
      +:+ String nl "}".
Proof. intros Hne. destruct ps as [|kv ps]; [done | reflexivity]. Qed.

(** C4 (as amended): malformed text is refused with the parse error; a text
    that parses to an object whose [compilerOptions], and the [paths] in it,
    are each missing, falsy or an object, is rewritten with both made
    objects, the two TX3 mappings set in [paths], every other key at the
    three levels as it was and in its place, and printed with two spaces of
    indentation. *)
Theorem tsconfig_merge_sets_tx3_paths (text : string) :
  (JSON_parse text = None ->
   mergeTsconfigPaths text = Throw (Error "Failed to parse tsconfig.json")) /\
  (forall ps cps pps : props_t,
     JSON_parse text = Some (VObject ps) ->
     object_or_falsy (alookup "compilerOptions" ps) ->
     cps = props_or_empty (alookup "compilerOptions" ps) ->
     object_or_falsy (alookup "paths" cps) ->
     pps = props_or_empty (alookup "paths" cps) ->
     exists ps' cps' pps' : props_t,
       mergeTsconfigPaths text = Ok (JSON_stringify (VObject ps') 2) /\
       JSON_stringify (VObject ps') 2
       = "{" +:+ String nl "  "
           +:+ join ("," +:+ String nl "  ") (map member_2 ps')
           +:+ String nl "}" /\
       alookup "compilerOptions" ps' = Some (VObject cps') /\
       alookup "paths" cps' = Some (VObject pps') /\
       alookup "@tx3/*" pps' = Some (VArray [VString "./tx3/bindings/*"] []) /\
       alookup "@tx3" pps' = Some (VArray [VString "./tx3/bindings"] []) /\
       only_changes ["@tx3/*"; "@tx3"] pps pps' /\
       only_changes ["paths"] cps cps' /\
       only_changes ["compilerOptions"] ps ps').
Proof.
  split.
  - intros Hparse. unfold mergeTsconfigPaths. by rewrite Hparse.
  - intros ps cps pps Hparse Hco -> Hpaths ->.
    set (cps := props_or_empty (alookup "compilerOptions" ps)) in *.
    set (pps := props_or_empty (alookup "paths" cps)).
    pose proof (ensure_object_or_falsy _ _ Hco) as Hc.
    pose proof (ensure_object_or_falsy _ _ Hpaths) as Hp.
    pose proof (setTx3Paths_merged (VObject ps) (VObject cps) (VObject pps)
                  ps cps pps eq_refl Hc eq_refl Hp eq_refl) as Hmerge.
    unfold merged_doc in Hmerge. cbn [with_props] in Hmerge.
    eexists _, _, _. split; [|split; [|split; [|split; [|split; [|split; [|split; [|split]]]]]]].
    + unfold mergeTsconfigPaths. rewrite Hparse, Hmerge. reflexivity.
    + apply stringify_object_2. intros Hnil.
      apply (f_equal (alookup "compilerOptions")) in Hnil.
      by rewrite alookup_aset_eq in Hnil.
    + apply alookup_aset_eq.
    + apply alookup_aset_eq.
    + unfold merged_paths. rewrite alookup_aset_ne by done. apply alookup_aset_eq.
    + apply alookup_aset_eq.
    + unfold merged_paths.
      eapply only_changes_trans; apply only_changes_aset; set_solver.
    + eapply only_changes_trans;
        [apply only_changes_ensure | apply only_changes_aset]; set_solver.
    + eapply only_changes_trans;
        [apply only_changes_ensure | apply only_changes_aset]; set_solver.
Qed.

Lemma mergeTsconfigPaths_written (doc merged : value) :
  setTx3Paths doc = Ok merged -> reads_back merged ->
  mergeTsconfigPaths (JSON_stringify merged 2) = Ok (JSON_stringify merged 2).
Proof.
  intros Hmerge Hback. unfold mergeTsconfigPaths. rewrite Hback.
  destruct (setTx3Paths_json_part_fixed doc merged Hmerge) as [again [Hagain Hsame]].
  rewrite Hagain. cbn. f_equal. unfold JSON_stringify.
  rewrite <- (serialize_json_part _ again), Hsame. apply serialize_json_part.
Qed.

(** C8: when the merge succeeds on a text, and [JSON.parse] reads the text
    it wrote back as the document that was written, the merge of that text
    succeeds and returns the same text. *)
Theorem tsconfig_merge_idempotent (text once : string) :
  mergeTsconfigPaths text = Ok once ->
  (forall doc merged, JSON_parse text = Some doc ->
     setTx3Paths doc = Ok merged -> reads_back merged) ->
  mergeTsconfigPaths once = Ok once.
Proof.
  intros Honce Hback. unfold mergeTsconfigPaths in Honce.
  destruct (JSON_parse text) as [doc|] eqn:Hparse; [|done].
  destruct (setTx3Paths doc) as [merged| |] eqn:Hmerge; try done.
  injection Honce as <-.
  apply (mergeTsconfigPaths_written doc); [exact Hmerge |].
  by apply (Hback doc).
Qed.

End TsconfigText.

Section TsconfigSamples.
Import Doc MergeStages Sample.

Lemma tsconfig_merge_sets_tx3_paths_witness :
  exists ps' cps' pps' : props_t,
    @mergeTsconfigPaths (collaborators all_fine) tsconfig_text
    = Ok (JSON_stringify (VObject ps') 2) /\
    alookup "compilerOptions" ps' = Some (VObject cps') /\
    alookup "paths" cps' = Some (VObject pps') /\
    alookup "@tx3/*" pps' = Some (VArray [VString "./tx3/bindings/*"] []) /\
    alookup "@tx3" pps' = Some (VArray [VString "./tx3/bindings"] []) /\
    alookup "foo" pps' = Some (VArray [VString "./foo"] []).
Proof.
  destruct (@tsconfig_merge_sets_tx3_paths (collaborators all_fine) tsconfig_text)
    as [_ Hmerge].
  destruct (Hmerge _ _ _ eq_refl ltac:(right; eexists; reflexivity) eq_refl
              ltac:(right; eexists; reflexivity) eq_refl)
    as (ps' & cps' & pps' & Hout & _ & Hco & Hpaths & Hglob & Hroot & [Hother _] & _).
  exists ps', cps', pps'. repeat (split; [assumption |]).
  rewrite Hother; [reflexivity |].
  apply not_elem_of_cons. split; [done |].
  apply not_elem_of_cons. split; [done | apply not_elem_of_nil].
Defined.

(** The scenario of the specification, with the text that is written. *)
Lemma tsconfig_merge_scenario :
  @mergeTsconfigPaths (collaborators all_fine) tsconfig_text
  = Ok (JSON_stringify tsconfig_merged 2) /\
  JSON_stringify tsconfig_merged 2
  = join newline
      [ "{";
        "  " +:+ quoted "compilerOptions" +:+ ": {";
        "    " +:+ quoted "paths" +:+ ": {";
        "      " +:+ quoted "foo" +:+ ": [";
        "        " +:+ quoted "./foo";
        "      ],";
        "      " +:+ quoted "@tx3/*" +:+ ": [";
        "        " +:+ quoted "./tx3/bindings/*";
        "      ],";
        "      " +:+ quoted "@tx3" +:+ ": [";
        "        " +:+ quoted "./tx3/bindings";
        "      ]";
        "    }";
        "  }";
        "}" ].
Proof. split; vm_compute; reflexivity. Qed.

(** A text that parses, [{"compilerOptions":true}], on which the merge
    throws a [TypeError]: nothing is created and nothing is written. *)
Lemma tsconfig_merge_throws_on_non_object :
  parse tsconfig_flag_text = Some (VObject [("compilerOptions", VBool true)]) /\
  setTx3Paths (VObject [("compilerOptions", VBool true)])
  = Throw (TypeError "Cannot create property") /\
  @mergeTsconfigPaths (collaborators all_fine) tsconfig_flag_text
  = Throw (TypeError "Cannot create property").
Proof. repeat split; vm_compute; reflexivity. Qed.

Lemma tsconfig_merge_idempotent_witness :
  @mergeTsconfigPaths (collaborators all_fine) tsconfig_text
  = Ok (JSON_stringify tsconfig_merged 2) /\
  @mergeTsconfigPaths (collaborators all_fine) (JSON_stringify tsconfig_merged 2)
  = Ok (JSON_stringify tsconfig_merged 2).
Proof.
  assert (@mergeTsconfigPaths (collaborators all_fine) tsconfig_text
          = Ok (JSON_stringify tsconfig_merged 2)) as Honce
    by (vm_compute; reflexivity).
  split; [exact Honce |].
  apply (@tsconfig_merge_idempotent (collaborators all_fine) tsconfig_text _ Honce).
  intros doc merged Hdoc Hmerged.
  assert (Some doc = Some tsconfig_doc) as Hd
    by (rewrite <- Hdoc; vm_compute; reflexivity).
  injection Hd as Hd. subst doc.
  assert (Ok merged = Ok tsconfig_merged) as Hm
    by (rewrite <- Hmerged; vm_compute; reflexivity).
  injection Hm as Hm. subst merged.
  vm_compute. reflexivity.
Defined.

End TsconfigSamples.

(** ** Running computations *)
Section Monad.
Import Runs.
Context {S : Type}.

Lemma bind_run {A B} (m : M S A) (f : A -> M S B) (s : S) :
  (m ≫= f) s =
  match m s with
  | (s', Ok a) => f a s'
  | (s', Throw e) => (s', Throw e)
  | (s', Exit code) => (s', Exit code)
  end.
Proof. reflexivity. Qed.

Lemma bind_Ok_run {A B} (m : M S A) (f : A -> M S B) (s s' : S) (a : A) :
  m s = (s', Ok a) -> (m ≫= f) s = f a s'.
Proof. intros Hm. by rewrite bind_run, Hm. Qed.

Lemma bind_Throw_run {A B} (m : M S A) (f : A -> M S B) (s s' : S) (e : exn) :
  m s = (s', Throw e) -> (m ≫= f) s = (s', Throw e).
Proof. intros Hm. by rewrite bind_run, Hm. Qed.

Lemma try_catch_run {A} (m : M S A) (h : exn -> M S A) (s : S) :
  try_catch m h s =
  match m s with
  | (s', Throw e) => h e s'
  | other => other
  end.
Proof. reflexivity. Qed.

Lemma comes_back_Ok {A} (a : A) : comes_back (Ok a).
Proof. intros code. done. Qed.

Lemma comes_back_Throw {A} (e : exn) : comes_back (A := A) (Throw e).
Proof. intros code. done. Qed.

Lemma keeps_ret {A} (I : S -> Prop) (a : A) : keeps I (mret a).
Proof. intros s s' r HI [= <- <-]. split; [done | apply comes_back_Ok]. Qed.

Lemma keeps_throw {A} (I : S -> Prop) (e : exn) : keeps I (throw (A := A) e).
Proof. intros s s' r HI [= <- <-]. split; [done | apply comes_back_Throw]. Qed.

Lemma keeps_gets {A} (I : S -> Prop) (f : S -> A) : keeps I (gets f).
Proof. intros s s' r HI [= <- <-]. split; [done | apply comes_back_Ok]. Qed.

Lemma keeps_bind {A B} (I : S -> Prop) (m : M S A) (f : A -> M S B) :
  keeps I m -> (forall a, keeps I (f a)) -> keeps I (m ≫= f).
Proof.
  intros Hm Hf s s' r HI Hrun. rewrite bind_run in Hrun.
  destruct (m s) as [s1 [a|e|code]] eqn:Hms.
  - destruct (Hm s s1 (Ok a) HI Hms) as [HI1 _]. by apply (Hf a s1).
  - injection Hrun as <- <-. destruct (Hm s s1 (Throw e) HI Hms) as [HI1 _].
    split; [done | apply comes_back_Throw].
  - destruct (Hm s s1 (Exit code) HI Hms) as [_ Hback]. by destruct (Hback code).
Qed.

Lemma keeps_try_catch {A} (I : S -> Prop) (m : M S A) (h : exn -> M S A) :
  keeps I m -> (forall e, keeps I (h e)) -> keeps I (try_catch m h).
Proof.
  intros Hm Hh s s' r HI Hrun. rewrite try_catch_run in Hrun.
  destruct (m s) as [s1 [a|e|code]] eqn:Hms.
  - injection Hrun as <- <-. by apply (Hm s).
  - destruct (Hm s s1 (Throw e) HI Hms) as [HI1 _]. by apply (Hh e s1).
  - injection Hrun as <- <-. by apply (Hm s).
Qed.

Lemma keeps_when (I : S -> Prop) (c : bool) (m : M S unit) :
  keeps I m -> keeps I (when c m).
Proof. intros Hm. destruct c; [done | apply keeps_ret]. Qed.

Lemma keeps_for_each {A} (I : S -> Prop) (l : list A) (body : A -> M S unit) :
  (forall x, keeps I (body x)) -> keeps I (for_each l body).
Proof.
  intros Hbody. induction l as [|x l IH]; simpl; [apply keeps_ret |].
  apply keeps_bind; [apply Hbody | intros _; exact IH].
Qed.

Lemma keeps_lift_result {A} (I : S -> Prop) (r : result A) :
  comes_back r -> keeps I (lift_result r).
Proof. intros Hr s s' r' HI [= <- <-]. done. Qed.

End Monad.

(** ** The tsconfig merge on the file *)
Section TsconfigFile.
Import FileUtils.
Context `{Collaborators}.

Lemma updateTsConfig_run (w : world) :
  updateTsConfig w =
  match files w !! resolve (cwd w) tsconfigPath with
  | None => (w, Throw (Error "tsconfig.json not found"))
  | Some text =>
      match mergeTsconfigPaths text with
      | Ok updated => writeFile tsconfigPath updated w
      | Throw e => (w, Throw e)
      | Exit code => (w, Exit code)
      end
  end.
Proof.
  unfold updateTsConfig. rewrite bind_run. cbn [gets]. unfold fileExists.
  destruct (files w !! resolve (cwd w) tsconfigPath) as [text|] eqn:Htext.
  - rewrite bool_decide_eq_true_2 by done. cbn [negb].
    rewrite bind_run. unfold readFile at 1. rewrite Htext.
    rewrite bind_run. unfold lift_result.
    by destruct (mergeTsconfigPaths text).
  - rewrite bool_decide_eq_false_2; [done | by intros [? ?]].
Qed.

(** After one successful [updateTsConfig], a second one succeeds and leaves
    everything as the first one left it. *)
Lemma updateTsConfig_twice (w w1 : world) :
  updateTsConfig w = (w1, Ok tt) ->
  (forall text doc merged,
     files w !! resolve (cwd w) tsconfigPath = Some text ->
     JSON_parse text = Some doc -> setTx3Paths doc = Ok merged ->
     reads_back merged) ->
  updateTsConfig w1 = (w1, Ok tt).
Proof.
  intros Hrun Hback. rewrite updateTsConfig_run in Hrun |- *.
  destruct (files w !! resolve (cwd w) tsconfigPath) as [text|] eqn:Htext; [|done].
  unfold mergeTsconfigPaths in Hrun at 1.
  destruct (JSON_parse text) as [doc|] eqn:Hparse; [|done].
  destruct (setTx3Paths doc) as [merged| |] eqn:Hmerge; try done.
  cbn [mbind result_bind] in Hrun. unfold writeFile in Hrun.
  destruct (directoryExists tsconfigPath w) eqn:Hdir; [done |].
  injection Hrun as <-.
  change (cwd (set_files _ w)) with (cwd w).
  change (files (set_files ?f w)) with f.
  rewrite lookup_insert_eq.
  rewrite (mergeTsconfigPaths_written doc merged Hmerge
             (Hback text doc merged eq_refl Hparse Hmerge)).
  unfold writeFile.
  change (directoryExists tsconfigPath (set_files ?f w))
    with (directoryExists tsconfigPath w).
  rewrite Hdir. unfold set_files. cbn [cwd files dirs console].
  by rewrite insert_insert_eq.
Qed.

End TsconfigFile.

(** ** The frame of the steps *)
Section Frame.
Import Runs.

Lemma lba_keeps {A} (m : M world A) :
  leaves_backups_alone m <->
  forall c (dirs0 : gset path) (saved : string -> option string),
    keeps (fun w => cwd w = c /\
                    (forall file, file ∈ protected ->
                       original c file ∈ dirs w -> original c file ∈ dirs0) /\
                    (forall file, file ∈ protected ->
                       files w !! backup_copy c file = saved file)) m.
Proof.
  split.
  - intros Hm c dirs0 saved w w' r (Hc & Hd & Hf) Hrun.
    destruct (Hm w w' r Hrun) as (Hc' & Hd' & Hf' & Hback). rewrite Hc in *.
    repeat split; try done.
    + intros file Hin Hdir. by apply Hd, Hd'.
    + intros file Hin. by rewrite Hf', Hf.
  - intros Hm w w' r Hrun.
    destruct (Hm (cwd w) (dirs w) (fun file => files w !! backup_copy (cwd w) file)
                w w' r) as ((Hc & Hd & Hf) & Hback); [done | done |].
    by rewrite Hc.
Qed.

End Frame.


Section Paths.
Import Runs.

Lemma protected_cases (file : string) :
  file ∈ protected -> file = "package.json" \/ file = "tsconfig.json".
Proof.
  unfold protected. rewrite !elem_of_cons, elem_of_nil. tauto.
Qed.

Lemma original_inj (c : path) (f g : string) :
  original c f = original c g -> f = g.
Proof. unfold original. intros Heq. apply app_inv_head in Heq. congruence. Qed.

Lemma backup_copy_inj (c : path) (f g : string) :
  backup_copy c f = backup_copy c g -> f = g.
Proof. unfold backup_copy. intros Heq. apply app_inv_head in Heq. congruence. Qed.

Lemma original_not_backup_copy (c : path) (f g : string) :
  original c f <> backup_copy c g.
Proof. unfold original, backup_copy. intros Heq. apply app_inv_head in Heq. done. Qed.

Lemma entry_of_inj (f g : string) : entry_of f = entry_of g -> f = g.
Proof. unfold entry_of. congruence. Qed.

Lemma resolve_protected (c : path) (file : string) :
  file ∈ protected -> resolve c file = original c file.
Proof. intros [-> | ->]%protected_cases; reflexivity. Qed.

Lemma resolve_backupPath (c : path) (file : string) :
  file ∈ protected -> resolve c (backupPath (entry_of file)) = backup_copy c file.
Proof.
  intros [-> | ->]%protected_cases.
  - change (resolve c ".tx3-backup/package.json"
            = c ++ [".tx3-backup"; "package.json"]).
    cbn. by rewrite <- app_assoc.
  - change (resolve c ".tx3-backup/tsconfig.json"
            = c ++ [".tx3-backup"; "tsconfig.json"]).
    cbn. by rewrite <- app_assoc.
Qed.

Lemma elem_of_prefixes_of (q p : path) :
  q ∈ prefixes_of p <-> q `prefix_of` p.
Proof.
  revert q. induction p as [|x p IH]; intros q; simpl.
  - rewrite list_elem_of_singleton. split.
    + intros ->. done.
    + intros Hpre. by apply prefix_nil_inv.
  - rewrite elem_of_cons, list_elem_of_In, in_map_iff. split.
    + intros [-> | [q' [<- Hq']]]; [apply prefix_nil |].
      apply prefix_cons, IH. by apply list_elem_of_In.
    + intros Hpre. destruct q as [|y q]; [by left | right].
      apply prefix_cons_inv_1 in Hpre as Hxy. subst y.
      apply prefix_cons_inv_2 in Hpre. exists q.
      split; [done | by apply list_elem_of_In, IH].
Qed.

(** Making a directory directly under the working directory, or the
    directories of a file there, makes none of a protected file. *)
Lemma original_not_made (c : path) (file : string) (segments : path) :
  file ∈ protected ->
  head segments <> Some file ->
  original c file ∉ prefixes_of (c ++ segments).
Proof.
  intros Hin Hhead. rewrite elem_of_prefixes_of. unfold original.
  intros Hpre. apply prefix_app_inv in Hpre.
  destruct segments as [|seg segments].
  - apply prefix_nil_inv in Hpre. done.
  - apply prefix_cons_inv_1 in Hpre. simpl in Hhead. congruence.
Qed.

End Paths.

Section FramePrimitives.
Import Runs.
Context (c : path) (dirs0 : gset path) (saved : string -> option string).

Lemma keeps_frame_writeFile (p content : string) :
  (forall file, file ∈ protected -> resolve c p <> backup_copy c file) ->
  keeps (frame_inv c dirs0 saved) (writeFile p content).
Proof.
  intros Hp w w' r (Hc & Hd & Hf) Hrun. unfold writeFile in Hrun.
  destruct (directoryExists p w); injection Hrun as <- <-.
  - split; [done | apply comes_back_Throw].
  - split; [| apply comes_back_Ok]. split; [done |]. split; [done |].
    intros file Hin. cbn. rewrite Hc, lookup_insert_ne; [by apply Hf |].
    by apply Hp.
Qed.

Lemma keeps_frame_readFile (p : string) :
  keeps (frame_inv c dirs0 saved) (readFile p).
Proof.
  intros w w' r HI Hrun. unfold readFile in Hrun.
  destruct (files w !! resolve (cwd w) p); injection Hrun as <- <-.
  - split; [done | apply comes_back_Ok].
  - split; [done | apply comes_back_Throw].
Qed.

Lemma keeps_frame_print (e : event) :
  keeps (frame_inv c dirs0 saved) (modify (print e)).
Proof. intros w w' r HI [= <- <-]. split; [done | apply comes_back_Ok]. Qed.

Lemma keeps_frame_progress (verbose : bool) (call : spinner_call) (text : string) :
  keeps (frame_inv c dirs0 saved) (progress verbose call text).
Proof. destruct verbose; apply keeps_frame_print. Qed.

Lemma keeps_frame_mkdir (p : string) :
  (forall file, file ∈ protected -> original c file ∉ prefixes_of (resolve c p)) ->
  keeps (frame_inv c dirs0 saved) (mkdir_recursive p).
Proof.
  intros Hp w w' r (Hc & Hd & Hf) Hrun. unfold mkdir_recursive in Hrun.
  destruct (bool_decide _); injection Hrun as <- <-.
  - split; [done | apply comes_back_Throw].
  - split; [| apply comes_back_Ok]. split; [done |]. split; [| done].
    intros file Hin. cbn. rewrite Hc, elem_of_union, elem_of_list_to_set.
    intros [Hold | Hnew]; [by apply Hd | by destruct (Hp file Hin)].
Qed.

End FramePrimitives.

Section OwnSteps.
Import Doc MergeStages Runs.
Context `{Collaborators}.

Lemma mergeTsconfigPaths_comes_back (text : string) :
  comes_back (mergeTsconfigPaths text).
Proof.
  unfold mergeTsconfigPaths. destruct (JSON_parse text) as [doc|];
    [| apply comes_back_Throw].
  destruct (setTx3Paths_cases doc) as [Hshape | [m Hm]].
  - destruct Hshape as (c & p & ps & cps & pps & Hd & Hc & Hcps & Hp & Hpps).
    rewrite (setTx3Paths_merged doc c p ps cps pps) by done. apply comes_back_Ok.
  - rewrite Hm. apply comes_back_Throw.
Qed.

Ltac frame_step :=
  first
    [ apply keeps_frame_print
    | apply keeps_frame_progress
    | apply keeps_frame_readFile
    | apply keeps_gets
    | apply keeps_ret
    | apply keeps_throw ].

Lemma log_frame (text : string) : leaves_backups_alone (log text).
Proof. apply lba_keeps. intros. apply keeps_frame_print. Qed.

Lemma progress_frame (verbose : bool) (call : spinner_call) (text : string) :
  leaves_backups_alone (progress verbose call text).
Proof. apply lba_keeps. intros. apply keeps_frame_progress. Qed.

Lemma updateTsConfig_frame : leaves_backups_alone updateTsConfig.
Proof.
  apply lba_keeps. intros c dirs0 saved. unfold updateTsConfig.
  apply keeps_bind; [frame_step |]. intros exists_.
  destruct (negb exists_); [frame_step |].
  apply keeps_bind; [frame_step |]. intros existingContent.
  apply keeps_bind; [apply keeps_lift_result, mergeTsconfigPaths_comes_back |].
  intros updated. apply keeps_frame_writeFile.
  intros file Hin. apply original_not_backup_copy.
Qed.

Lemma createTx3Files_frame : leaves_backups_alone createTx3Files.
Proof.
  apply lba_keeps. intros c dirs0 saved. unfold createTx3Files, createDirectory.
  apply keeps_bind; [| intros _].
  { apply keeps_frame_mkdir. intros file Hin.
    apply (original_not_made c file ["tx3"]); [done |].
    apply protected_cases in Hin as [-> | ->]; done. }
  apply keeps_bind; [| intros _].
  { apply keeps_frame_mkdir. intros file Hin.
    apply (original_not_made c file ["scripts"]); [done |].
    apply protected_cases in Hin as [-> | ->]; done. }
  apply keeps_bind; [| intros _].
  { apply keeps_frame_writeFile. intros file Hin Heq.
    change (resolve c "tx3/trix.toml") with ((c ++ ["tx3"]) ++ ["trix.toml"]) in Heq.
    rewrite <- app_assoc in Heq. apply app_inv_head in Heq. done. }
  apply keeps_bind; [| intros _].
  { apply keeps_frame_writeFile. intros file Hin Heq.
    change (resolve c "tx3/main.tx3") with ((c ++ ["tx3"]) ++ ["main.tx3"]) in Heq.
    rewrite <- app_assoc in Heq. apply app_inv_head in Heq. done. }
  apply keeps_frame_writeFile. intros file Hin Heq.
  change (resolve c "scripts/generate-tx3.mjs")
    with ((c ++ ["scripts"]) ++ ["generate-tx3.mjs"]) in Heq.
  rewrite <- app_assoc in Heq. apply app_inv_head in Heq. done.
Qed.

(** *** After the backups: the steps keep them restorable *)


Lemma lift_run {A} (m : M world A) (s : istate) :
  lift m s = ((IState (m (iworld s)).1 (backups s)), (m (iworld s)).2).
Proof. unfold lift. by destruct (m (iworld s)). Qed.

Lemma keeps_ready_lift {A} (w0 : world) (m : M world A) :
  leaves_backups_alone m -> keeps (ready w0) (lift m).
Proof.
  intros Hm s s' r [(Hc & Hd & Hb & Hu) Hall] Hrun.
  rewrite lift_run in Hrun. injection Hrun as <- <-.
  destruct (m (iworld s)) as [w' r] eqn:Hmw. cbn.
  destruct (Hm _ _ _ Hmw) as (Hc' & Hd' & Hf' & Hback). rewrite Hc in *.
  split; [| done]. split; [| exact Hall]. split; [exact Hc' |].
  split; [| split].
  - intros file Hin Hsome Hdir. apply (Hd file Hin Hsome). by apply Hd'.
  - intros b Hbin. destruct (Hb b Hbin) as (file & Hin & -> & Hsome & Hcopy).
    exists file. repeat (split; [done |]). cbn. by rewrite Hf'.
  - intros file Hin Hsome Hnotin. by destruct Hnotin; apply Hall.
Qed.

Lemma keeps_restorable_lift {A} (w0 : world) (m : M world A) :
  leaves_backups_alone m ->
  (forall w w' r, m w = (w', r) ->
     forall file, file ∈ protected ->
       files w' !! original (cwd w) file = files w !! original (cwd w) file) ->
  keeps (restorable w0) (lift m).
Proof.
  intros Hm Horig s s' r (Hc & Hd & Hb & Hu) Hrun.
  rewrite lift_run in Hrun. injection Hrun as <- <-.
  destruct (m (iworld s)) as [w' r] eqn:Hmw. cbn.
  destruct (Hm _ _ _ Hmw) as (Hc' & Hd' & Hf' & Hback).
  pose proof (Horig _ _ _ Hmw) as Ho. rewrite Hc in *.
  split; [| done]. split; [exact Hc' |].
  split; [| split].
  - intros file Hin Hsome Hdir. apply (Hd file Hin Hsome). by apply Hd'.
  - intros b Hbin. destruct (Hb b Hbin) as (file & Hin & -> & Hsome & Hcopy).
    exists file. repeat (split; [done |]). cbn. by rewrite Hf'.
  - intros file Hin Hsome Hnotin. cbn. rewrite Ho by done. by apply Hu.
Qed.

End OwnSteps.

Section BackupRestore.
Import Runs.

Lemma backupFile_run (file : string) (w : world) (bytes : string) :
  files w !! resolve (cwd w) file = Some bytes ->
  backupFile file w =
  if directoryExists (backupPath (entry_of file)) w then
    (w, Throw (Error ("EISDIR: illegal operation on a directory, open "
                        +:+ backupPath (entry_of file))))
  else
    (set_files (<[resolve (cwd w) (backupPath (entry_of file)) := bytes]> (files w)) w,
     Ok (entry_of file)).
Proof.
  intros Hfile. unfold backupFile. rewrite bind_run. cbn [gets].
  unfold fileExists. rewrite Hfile, bool_decide_true by done.
  rewrite bind_run. unfold readFile at 1. rewrite Hfile.
  rewrite bind_run. unfold writeFile.
  change (backupDir +:+ "/" +:+ file) with (backupPath (entry_of file)).
  by destruct (directoryExists (backupPath (entry_of file)) w).
Qed.

Lemma restoreFromBackup_run (file : string) (w : world) (bytes : string) :
  files w !! resolve (cwd w) (backupPath (entry_of file)) = Some bytes ->
  restoreFromBackup (entry_of file) w =
  if directoryExists file w then
    (w, Throw (Error ("EISDIR: illegal operation on a directory, open " +:+ file)))
  else (set_files (<[resolve (cwd w) file := bytes]> (files w)) w, Ok tt).
Proof.
  intros Hcopy. unfold restoreFromBackup. cbn [existedBefore entry_of].
  rewrite bind_run. unfold readFile. rewrite Hcopy. cbn [originalPath].
  reflexivity.
Qed.

End BackupRestore.

Section TakeBackups.
Import Doc MergeStages Runs.
Context `{Collaborators}.



Lemma backup_body_run (w0 : world) (file : string) (s s' : istate) (r : result unit) :
  file ∈ protected ->
  is_Some (files w0 !! original (cwd w0) file) ->
  restorable w0 s ->
  entry_of file ∉ backups s ->
  backup_body file s = (s', r) ->
  (s' = s /\ exists e, r = Throw e) \/
  (r = Ok tt /\ restorable w0 s' /\ backups s' = backups s ++ [entry_of file]).
Proof.
  intros Hin [bytes Hbytes] (Hc & Hd & Hb & Hu) Hnew Hrun.
  assert (files (iworld s) !! resolve (cwd (iworld s)) file = Some bytes) as Hfile.
  { rewrite Hc, resolve_protected by done. rewrite Hu; [done | done | by eexists | done]. }
  unfold backup_body in Hrun. rewrite bind_run, lift_run in Hrun.
  rewrite (backupFile_run file _ bytes Hfile) in Hrun.
  destruct (directoryExists (backupPath (entry_of file)) (iworld s)) eqn:Hdir;
    cbn [fst snd push_backup modify iworld backups] in Hrun;
    injection Hrun as <- <-.
  - left. split; [by destruct s | by eexists].
  - right. split; [done |]. split; [| done].
    change (backupDir +:+ "/" +:+ file) with (backupPath (entry_of file)).
    rewrite Hc, resolve_backupPath by done.
    split; [exact Hc |]. split; [| split].
    + intros g Hg Hsome. by apply Hd.
    + intros b [Hold | ->%list_elem_of_singleton]%elem_of_app.
      * destruct (Hb b Hold) as (g & Hg & -> & Hsome & Hcopy).
        exists g. repeat (split; [done |]). cbn.
        rewrite lookup_insert_ne; [done |].
        intros Heq%backup_copy_inj. subst g. done.
      * exists file. repeat (split; [done || by eexists |]). cbn.
        by rewrite lookup_insert_eq.
    + intros g Hg Hsome Hnotin. cbn.
      rewrite lookup_insert_ne; [| apply not_eq_sym, original_not_backup_copy].
      apply Hu; [done | done |].
      intros Hold. apply Hnotin, elem_of_app. by left.
Qed.

Lemma backup_loop (w0 : world) (todo : list string) (s s' : istate)
    (r : result unit) :
  NoDup todo ->
  (forall file, file ∈ todo ->
     file ∈ protected /\ is_Some (files w0 !! original (cwd w0) file)) ->
  pending w0 todo s ->
  for_each todo backup_body s = (s', r) ->
  restorable w0 s' /\ comes_back r /\
  (forall b, b ∈ backups s -> b ∈ backups s') /\
  (r = Ok tt -> forall file, file ∈ todo -> entry_of file ∈ backups s').
Proof.
  revert s. induction todo as [|file todo IH]; intros s Hnodup Htodo [Hres Hpend] Hrun.
  - injection Hrun as <- <-. split; [done |]. split; [apply comes_back_Ok |].
    split; [done |]. intros _ file Hin. by apply elem_of_nil in Hin.
  - apply NoDup_cons in Hnodup as [Hfresh Hnodup].
    cbn [for_each] in Hrun. rewrite bind_run in Hrun.
    destruct (backup_body file s) as [s1 r1] eqn:Hbody.
    destruct (Htodo file) as [Hprot Hsome]; [by left |].
    destruct (backup_body_run w0 file s s1 r1 Hprot Hsome Hres) as
      [[-> [e ->]] | (-> & Hres1 & Hbackups)]; [apply Hpend; by left | done | |].
    + injection Hrun as <- <-. split; [done |]. split; [apply comes_back_Throw |].
      split; done.
    + destruct (IH s1) as (Hres' & Hback & Hgrow & Hall); [done | | | done |].
      * intros g Hg. apply Htodo. by right.
      * split; [done |]. intros g Hg. rewrite Hbackups.
        intros [Hold | Heq%list_elem_of_singleton]%elem_of_app.
        -- apply (Hpend g); [by right | done].
        -- apply entry_of_inj in Heq. subst g. done.
      * split; [done |]. split; [done |]. split.
        -- intros b Hb. apply Hgrow. rewrite Hbackups. apply elem_of_app. by left.
        -- intros Hok g [-> | Hg]%elem_of_cons; [| by apply Hall].
           apply Hgrow. rewrite Hbackups. apply elem_of_app. right. by left.
Qed.

End TakeBackups.

Section Rollback.
Import Doc MergeStages Runs.
Context `{Collaborators}.

Lemma progress_run (verbose : bool) (call : spinner_call) (text : string) (w : world) :
  progress verbose call text w
  = (print (if verbose then Log text else Spinner call text) w, Ok tt).
Proof. by destruct verbose. Qed.


(** Restoring the entries of [todo], each of a protected file with an intact
    copy: every restore succeeds, the files restored hold the bytes they had
    in [w0], and nothing else changes. *)
Lemma restore_loop (w0 : world) (todo : list BackupEntry) (s s' : istate)
    (r : result unit) :
  cwd (iworld s) = cwd w0 ->
  (forall file, file ∈ protected ->
     is_Some (files w0 !! original (cwd w0) file) ->
     original (cwd w0) file ∉ dirs (iworld s)) ->
  (forall b, b ∈ todo ->
     exists file, file ∈ protected /\ b = entry_of file /\
       is_Some (files w0 !! original (cwd w0) file) /\
       files (iworld s) !! backup_copy (cwd w0) file
       = files w0 !! original (cwd w0) file) ->
  (forall file, file ∈ protected ->
     is_Some (files w0 !! original (cwd w0) file) ->
     entry_of file ∉ todo ->
     files (iworld s) !! original (cwd w0) file
     = files w0 !! original (cwd w0) file) ->
  for_each todo restore_body s = (s', r) ->
  r = Ok tt /\
  (forall file, file ∈ protected ->
     is_Some (files w0 !! original (cwd w0) file) ->
     files (iworld s') !! original (cwd w0) file
     = files w0 !! original (cwd w0) file) /\
  (forall p,
     (forall file, file ∈ protected -> entry_of file ∈ todo ->
        p <> original (cwd w0) file) ->
     files (iworld s') !! p = files (iworld s) !! p) /\
  cwd (iworld s') = cwd (iworld s) /\
  dirs (iworld s') = dirs (iworld s) /\
  console (iworld s') = console (iworld s).
Proof.
  revert s. induction todo as [|b todo IH]; intros s Hc Hd Hb Hu Hrun.
  - injection Hrun as <- <-. split; [done |]. split; [| done].
    intros file Hin Hsome. apply Hu; [done | done | apply not_elem_of_nil].
  - destruct (Hb b) as (file & Hin & -> & [bytes Hbytes] & Hcopy); [by left |].
    cbn [for_each] in Hrun. rewrite bind_run in Hrun.
    unfold restore_body at 1 in Hrun. rewrite try_catch_run, lift_run in Hrun.
    rewrite (restoreFromBackup_run file _ bytes) in Hrun; cycle 1.
    { rewrite Hc, resolve_backupPath by done. by rewrite Hcopy. }
    assert (directoryExists file (iworld s) = false) as Hnodir.
    { unfold directoryExists. apply bool_decide_eq_false.
      rewrite Hc, resolve_protected by done. apply Hd; [done | by eexists]. }
    rewrite Hnodir in Hrun. cbn [fst snd] in Hrun.
    rewrite Hc, resolve_protected in Hrun by done.
    set (s1 := IState _ _) in Hrun.
    destruct (IH s1) as (-> & Hrestored & Hother & Hcwd & Hdirs & Hconsole);
      [done | done | | | done |].
    + intros b Hbin. destruct (Hb b) as (g & Hg & -> & Hsome & Hgcopy); [by right |].
      exists g. repeat (split; [done |]). cbn.
      rewrite lookup_insert_ne; [done | apply original_not_backup_copy].
    + intros g Hg Hsome Hnotin. cbn.
      destruct (decide (g = file)) as [-> | Hne].
      * by rewrite lookup_insert_eq.
      * rewrite lookup_insert_ne; [| by intros Heq%original_inj].
        apply Hu; [done | done |].
        intros [Heq%entry_of_inj | Hin']%elem_of_cons; done.
    + split; [done |]. split; [done |]. split; [| done].
      intros p Hp. rewrite Hother; cycle 1.
      { intros g Hg Hgin. apply Hp; [done | by right]. }
      cbn. rewrite lookup_insert_ne; [done |].
      apply not_eq_sym, Hp; [done | by left].
Qed.

Lemma rollback_run (w0 : world) (verbose : bool) (error : exn) (s s' : istate)
    (r : result unit) :
  restorable w0 s ->
  rollback verbose error s = (s', r) ->
  r = Exit 1 /\
  (forall file, file ∈ protected ->
     is_Some (files w0 !! original (cwd w0) file) ->
     files (iworld s') !! original (cwd w0) file
     = files w0 !! original (cwd w0) file) /\
  (forall p,
     (forall file, file ∈ protected -> entry_of file ∈ backups s ->
        p <> original (cwd w0) file) ->
     files (iworld s') !! p = files (iworld s) !! p) /\
  dirs (iworld s') = dirs (iworld s) /\
  console (iworld s')
  = console (iworld s)
      ++ [ if verbose then Log "Installation failed"
           else Spinner Fail "Installation failed";
           LogError ("Error: " +:+ exn_message error);
           Log "Rolling back changes...";
           Log "Rollback completed" ] /\
  cwd (iworld s') = cwd (iworld s).
Proof.
  intros (Hc & Hd & Hb & Hu) Hrun. unfold rollback in Hrun.
  rewrite bind_run, lift_run, progress_run in Hrun. cbn [fst snd] in Hrun.
  rewrite bind_run, lift_run in Hrun. cbn [fst snd log_error modify iworld backups] in Hrun.
  rewrite bind_run, lift_run in Hrun. cbn [fst snd log modify iworld backups] in Hrun.
  rewrite bind_run in Hrun. cbn [gets backups] in Hrun.
  rewrite bind_run in Hrun.
  match type of Hrun with context [for_each _ _ ?s1] => set (s_logged := s1) in * end.
  destruct (for_each (backups s) _ s_logged) as [s2 r2] eqn:Hloop.
  destruct (restore_loop w0 (backups s) s_logged s2 r2)
    as (-> & Hrestored & Hother & Hcwd & Hdirs & Hconsole); try done.
  rewrite bind_run, lift_run in Hrun. cbn [fst snd log modify iworld backups process_exit] in Hrun.
  injection Hrun as <- <-. split; [done |]. split; [done |]. split; [done |].
  split; [done |]. split; [| done].
  cbn. rewrite Hconsole. cbn. by rewrite <- !app_assoc.
Qed.

End Rollback.

Section TryBlock.
Import Doc MergeStages Runs.
Context `{Collaborators}.

Lemma hoare_bind_keeps {S A B} (I : S -> Prop) (m : M S A) (f : A -> M S B)
    (Q : S -> result B -> Prop) :
  keeps I m ->
  (forall s e, I s -> Q s (Throw e)) ->
  (forall a, hoare I (f a) Q) ->
  hoare I (m ≫= f) Q.
Proof.
  intros Hm Hthrow Hf s s' r HI Hrun. rewrite bind_run in Hrun.
  destruct (m s) as [s1 [a|e|code]] eqn:Hms;
    destruct (Hm s s1 _ HI Hms) as [HI1 Hback].
  - by apply (Hf a s1).
  - injection Hrun as <- <-. by apply Hthrow.
  - by destruct (Hback code).
Qed.

Lemma keeps_pending_lift {A} (w0 : world) (todo : list string) (m : M world A) :
  leaves_backups_alone m ->
  (forall w w' r, m w = (w', r) ->
     forall file, file ∈ protected ->
       files w' !! original (cwd w) file = files w !! original (cwd w) file) ->
  keeps (pending w0 todo) (lift m).
Proof.
  intros Hm Horig s s' r [Hres Hpend] Hrun.
  destruct (keeps_restorable_lift w0 m Hm Horig s s' r Hres Hrun) as [Hres' Hback].
  split; [| done]. split; [done |].
  rewrite lift_run in Hrun. injection Hrun as <- _. exact Hpend.
Qed.


Lemma keeps_untouched_lift {A} (w0 : world) (m : M world A) :
  leaves_backups_alone m ->
  (forall w w' r, m w = (w', r) ->
     forall file, file ∈ protected ->
       files w' !! original (cwd w) file = files w !! original (cwd w) file) ->
  keeps (untouched w0) (lift m).
Proof.
  intros Hm Horig s s' r [Hpend Hsame] Hrun.
  destruct (keeps_pending_lift w0 protected m Hm Horig s s' r Hpend Hrun)
    as [Hpend' Hback].
  split; [| done]. split; [done |].
  rewrite lift_run in Hrun. injection Hrun as <- _.
  destruct (m (iworld s)) as [w' r'] eqn:Hmw. cbn.
  intros file Hin. destruct Hpend as [(Hc & _) _].
  rewrite <- Hc. rewrite (Horig _ _ _ Hmw) by done. rewrite Hc. by apply Hsame.
Qed.

Lemma ensureBackupDir_frame : leaves_backups_alone ensureBackupDir.
Proof.
  apply lba_keeps. intros c dirs0 saved. apply keeps_frame_mkdir.
  intros file Hin. apply (original_not_made c file [backupDir]); [done |].
  apply protected_cases in Hin as [-> | ->]; done.
Qed.

Lemma NoDup_protected : NoDup protected.
Proof.
  unfold protected. apply NoDup_cons. split.
  - rewrite list_elem_of_singleton. done.
  - apply NoDup_singleton.
Qed.

Lemma take_backups_run (w0 : world) (verbose : bool) :
  hoare (untouched w0) (take_backups verbose)
    (fun s' r => restorable w0 s' /\ comes_back r /\
                 (r = Ok tt -> backed_up w0 s')).
Proof.
  unfold take_backups.
  apply hoare_bind_keeps.
  { apply keeps_untouched_lift; [apply progress_frame |].
    intros w w' r. rewrite progress_run. by intros [= <- <-]. }
  { intros s e [[Hres _] _]. split; [done |]. split; [apply comes_back_Throw | done]. }
  intros _. apply hoare_bind_keeps.
  { apply keeps_untouched_lift; [apply ensureBackupDir_frame |].
    intros w w' r. unfold ensureBackupDir, createDirectory, mkdir_recursive.
    destruct (bool_decide _); by intros [= <- <-]. }
  { intros s e [[Hres _] _]. split; [done |]. split; [apply comes_back_Throw | done]. }
  intros _ s s' r [[Hres Hpend] Hsame] Hrun.
  rewrite bind_run, lift_run in Hrun. cbn [gets fst snd] in Hrun.
  set (todo := List.filter _ _) in Hrun.
  assert (forall file, file ∈ todo <->
            file ∈ protected /\ is_Some (files w0 !! original (cwd w0) file))
    as Htodo.
  { intros file. subst todo. rewrite list_elem_of_In, filter_In, <- list_elem_of_In.
    fold protected. unfold fileExists. rewrite bool_decide_eq_true. cbn [iworld].
    destruct Hres as (Hc & _). split; intros [Hin Hsome]; (split; [done |]).
    - rewrite Hc, resolve_protected, Hsame in Hsome by done. done.
    - rewrite Hc, resolve_protected, Hsame by done. done. }
  assert (NoDup todo) as Hnodup.
  { subst todo. apply NoDup_ListNoDup, List.NoDup_filter, NoDup_ListNoDup.
    apply NoDup_protected. }
  rewrite bind_run in Hrun.
  match type of Hrun with context [for_each todo ?body ?s1] =>
    change body with backup_body in Hrun;
    destruct (for_each todo backup_body s1) as [s2 r2] eqn:Hloop
  end.
  assert (pending w0 todo {| iworld := iworld s; backups := backups s |}) as Hp.
  { split; [by destruct s |]. intros file Hin%Htodo. apply Hpend. by destruct Hin. }
  assert (forall file, file ∈ todo ->
            file ∈ protected /\ is_Some (files w0 !! original (cwd w0) file))
    as Htodo' by (by intros file Hin%Htodo).
  destruct (backup_loop w0 todo _ s2 r2 Hnodup Htodo' Hp Hloop)
    as (Hres2 & Hback2 & _ & Hall).
  destruct r2 as [[]|e|code].
  - rewrite lift_run, progress_run in Hrun. cbn [fst snd] in Hrun.
    injection Hrun as <- <-. split; [| split; [apply comes_back_Ok |]].
    + destruct Hres2 as (Hc2 & Hd2 & Hb2 & Hu2). by repeat split.
    + intros _ file Hin Hsome. cbn. apply Hall; [done |]. by apply Htodo.
  - injection Hrun as <- <-. split; [done |]. split; [apply comes_back_Throw | done].
  - by destruct (Hback2 code).
Qed.


Lemma install_completed_run (w : world) :
  install_completed w
  = (World (cwd w) (files w) (dirs w) (console w ++ completed_lines), Ok tt).
Proof.
  unfold install_completed, log, modify, print, mbind, M_bind. cbn.
  rewrite <- !app_assoc. reflexivity.
Qed.

Lemma install_completed_frame : leaves_backups_alone install_completed.
Proof.
  intros w w' r Hrun. rewrite install_completed_run in Hrun.
  injection Hrun as <- <-.
  repeat split; done.
Qed.

Context `{!WellBehaved}.

Lemma install_packages_keeps (w0 : world) (verbose : bool) :
  keeps (ready w0) (install_packages verbose).
Proof.
  unfold install_packages.
  apply keeps_bind; [apply keeps_ready_lift, progress_frame | intros _].
  apply keeps_bind; [apply keeps_ready_lift, getMissingPackages_frame | intros missing].
  apply keeps_bind; [apply keeps_ready_lift, getMissingPackages_frame | intros missingDev].
  apply keeps_bind; [apply keeps_when, keeps_ready_lift, installPackages_frame | intros _].
  apply keeps_bind; [apply keeps_when, keeps_ready_lift, installPackages_frame | intros _].
  apply keeps_ready_lift, progress_frame.
Qed.

Lemma update_tsconfig_keeps (w0 : world) (verbose : bool) :
  keeps (ready w0) (update_tsconfig verbose).
Proof.
  unfold update_tsconfig.
  apply keeps_bind; [apply keeps_ready_lift, progress_frame | intros _].
  apply keeps_bind; [apply keeps_ready_lift, updateTsConfig_frame | intros _].
  apply keeps_ready_lift, progress_frame.
Qed.

Lemma add_scripts_keeps (w0 : world) (verbose : bool) :
  keeps (ready w0) (add_scripts verbose).
Proof.
  unfold add_scripts.
  apply keeps_bind; [apply keeps_ready_lift, progress_frame | intros _].
  apply keeps_bind; [apply keeps_ready_lift, addScripts_frame | intros packageJson].
  apply keeps_bind; [apply keeps_ready_lift, writePackageJson_frame | intros _].
  apply keeps_ready_lift, progress_frame.
Qed.

Lemma create_files_keeps (w0 : world) (verbose : bool) :
  keeps (ready w0) (create_files verbose).
Proof.
  unfold create_files.
  apply keeps_bind; [apply keeps_ready_lift, progress_frame | intros _].
  apply keeps_bind; [apply keeps_ready_lift, createTx3Files_frame | intros _].
  apply keeps_ready_lift, progress_frame.
Qed.

Lemma mutate_keeps (w0 : world) (verbose : bool) :
  keeps (ready w0)
    (install_packages verbose;; update_tsconfig verbose;;
     add_scripts verbose;; create_files verbose).
Proof.
  apply keeps_bind; [apply install_packages_keeps | intros _].
  apply keeps_bind; [apply update_tsconfig_keeps | intros _].
  apply keeps_bind; [apply add_scripts_keeps | intros _].
  apply create_files_keeps.
Qed.

(** However the [try] block ends, the backups taken can be restored. *)
Lemma backup_and_mutate_run (w0 : world) (verbose : bool) :
  hoare (untouched w0) (backup_and_mutate verbose)
    (fun s' r => restorable w0 s' /\ comes_back r).
Proof.
  intros s s' r Hs Hrun. unfold backup_and_mutate in Hrun. rewrite bind_run in Hrun.
  destruct (take_backups verbose s) as [s1 r1] eqn:Htake.
  destruct (take_backups_run w0 verbose s s1 r1 Hs Htake) as (Hres & Hback & Hall).
  destruct r1 as [[]|e|code].
  - destruct (mutate_keeps w0 verbose s1 s' r) as [[Hres' _] Hback']; [| done | done].
    split; [done | by apply Hall].
  - injection Hrun as <- <-. done.
  - by destruct (Hback code).
Qed.

Lemma untouched_start (w0 : world) :
  (forall file, file ∈ protected ->
     is_Some (files w0 !! original (cwd w0) file) ->
     original (cwd w0) file ∉ dirs w0) ->
  untouched w0 (IState w0 []).
Proof.
  intros Hwf. split; [split |]; [| intros file _; apply not_elem_of_nil | done].
  split; [done |]. split; [done |]. split; [| done].
  intros b Hb. by apply elem_of_nil in Hb.
Qed.

(** C1 (as amended): when the [try] block of [installCommand] does not
    complete, the command exits with status 1 after the rollback.  Every
    backup taken is the entry of [package.json] or [tsconfig.json], which
    existed before the run, and each of the two that existed holds its bytes
    again.  The rollback prints the error that was thrown and touches
    nothing but those two files: every other file, and every directory, is
    left as the failed step left it. *)
Theorem rollback_restores_backed_up_files (w0 w' : world) (r : result unit) :
  (forall file, file ∈ protected ->
     is_Some (files w0 !! original (cwd w0) file) ->
     original (cwd w0) file ∉ dirs w0) ->
  install_try w0 = (w', r) ->
  r <> Ok tt ->
  r = Exit 1 /\
  (forall file bytes, file ∈ protected ->
     files w0 !! original (cwd w0) file = Some bytes ->
     files w' !! original (cwd w0) file = Some bytes) /\
  exists (failed : istate) (error : exn),
    (backup_and_mutate false;; lift install_completed) (IState w0 [])
    = (failed, Throw error) /\
    (forall b, b ∈ backups failed ->
       exists file, file ∈ protected /\ b = entry_of file /\
         is_Some (files w0 !! original (cwd w0) file)) /\
    (forall p,
       (forall file, file ∈ protected -> entry_of file ∈ backups failed ->
          p <> original (cwd w0) file) ->
       files w' !! p = files (iworld failed) !! p) /\
    dirs w' = dirs (iworld failed) /\
    console w'
    = console (iworld failed)
        ++ [ Spinner Fail "Installation failed";
             LogError ("Error: " +:+ exn_message error);
             Log "Rolling back changes...";
             Log "Rollback completed" ].
Proof.
  intros Hwf Hrun Hnot. unfold install_try, with_backups in Hrun.
  rewrite try_catch_run in Hrun.
  destruct ((backup_and_mutate false;; lift install_completed) (IState w0 []))
    as [failed r1] eqn:Hbody.
  assert (restorable w0 failed /\ comes_back r1) as [Hres Hback].
  { rewrite bind_run in Hbody.
    destruct (backup_and_mutate false (IState w0 [])) as [s1 r2] eqn:Hsteps.
    destruct (backup_and_mutate_run w0 false _ s1 r2 (untouched_start w0 Hwf) Hsteps)
      as [Hres1 Hback1].
    destruct r2 as [[]|e|code].
    - eapply keeps_restorable_lift; [apply install_completed_frame | | done | done].
      intros w w1 r3 Hc. rewrite install_completed_run in Hc.
      by injection Hc as <- <-.
    - by injection Hbody as <- <-.
    - by destruct (Hback1 code). }
  destruct r1 as [[]|error|code].
  - injection Hrun as <- <-. done.
  - destruct (rollback false error failed) as [s2 r2] eqn:Hroll.
    injection Hrun as <- <-.
    destruct (rollback_run w0 false error failed s2 r2 Hres Hroll)
      as (-> & Hrestored & Hother & Hdirs & Hconsole & _).
    split; [done |]. split.
    + intros file bytes Hin Hbytes. rewrite Hrestored; [done | done | by eexists].
    + exists failed, error. split; [done |]. split; [| done].
      intros b Hb. destruct Hres as (_ & _ & Hentries & _).
      destruct (Hentries b Hb) as (file & Hin & -> & Hsome & _). by exists file.
  - by destruct (Hback code).
Qed.

End TryBlock.

Section SampleCollaborators.
Import Runs.
Import Sample.

Lemma get_comes_back (o : option value) (k : string) : comes_back (get o k).
Proof. destruct o as [[]|]; intros code; done. Qed.

Lemma set_comes_back (o : option value) (k : string) (v : value) :
  comes_back (set o k v).
Proof. destruct o as [[]|]; intros code; done. Qed.

Lemma result_bind_comes_back {A B} (r : result A) (f : A -> result B) :
  comes_back r -> (forall a, comes_back (f a)) -> comes_back (r ≫= f).
Proof. intros Hr Hf. destruct r as [a|e|code]; [apply Hf | done | by destruct (Hr code)]. Qed.

Lemma assign_in_comes_back (o : value) (k : string)
    (inner : option value -> result value) :
  (forall child, comes_back (inner child)) -> comes_back (assign_in o k inner).
Proof.
  intros Hinner. unfold assign_in.
  apply result_bind_comes_back; [apply get_comes_back | intros child].
  apply result_bind_comes_back; [apply Hinner | intros child'].
  apply set_comes_back.
Qed.

Lemma set_scripts_comes_back (scripts : list (string * string)) (packageJson : value) :
  comes_back (set_scripts scripts packageJson).
Proof.
  revert packageJson. induction scripts as [|[name command] scripts IH];
    intros packageJson; [apply comes_back_Ok |].
  cbn [set_scripts]. apply result_bind_comes_back; [| apply IH].
  apply assign_in_comes_back. intros child. apply set_comes_back.
Qed.

Lemma sample_readPackageJson_frame : leaves_backups_alone sample_readPackageJson.
Proof.
  apply lba_keeps. intros c dirs0 saved. unfold sample_readPackageJson.
  apply keeps_bind; [apply keeps_frame_readFile | intros content].
  destruct (parse content); [apply keeps_ret | apply keeps_throw].
Qed.

Lemma keeps_of_frame {A} (m : M world A) (c : path) (dirs0 : gset path)
    (saved : string -> option string) :
  leaves_backups_alone m -> keeps (frame_inv c dirs0 saved) m.
Proof. intros Hm. by apply lba_keeps. Qed.

#[local] Instance sample_well_behaved (s : scenario) :
  @WellBehaved (collaborators s).
Proof.
  split; cbn.
  - intros packages. apply lba_keeps. intros c dirs0 saved.
    unfold sample_getMissingPackages.
    apply keeps_bind; [apply keeps_of_frame, sample_readPackageJson_frame |].
    intros packageJson. apply keeps_ret.
  - intros packages dev. apply lba_keeps. intros c dirs0 saved.
    unfold sample_installPackages. destruct (pm_ok s); [| apply keeps_throw].
    apply keeps_frame_writeFile. intros file Hin. apply original_not_backup_copy.
  - intros scripts. apply lba_keeps. intros c dirs0 saved.
    unfold sample_addScripts.
    apply keeps_bind; [apply keeps_of_frame, sample_readPackageJson_frame |].
    intros packageJson.
    apply keeps_bind; [apply keeps_lift_result, get_comes_back | intros existing].
    apply keeps_bind; [apply keeps_lift_result | intros packageJson'].
    + destruct (truthy existing); [apply comes_back_Ok | apply set_comes_back].
    + apply keeps_lift_result, set_scripts_comes_back.
  - intros packageJson. apply lba_keeps. intros c dirs0 saved.
    unfold sample_writePackageJson. apply keeps_frame_writeFile.
    intros file Hin. apply original_not_backup_copy.
Qed.

Lemma project_blocked_well_formed (file : string) :
  file ∈ protected ->
  is_Some (files project_blocked !! original (cwd project_blocked) file) ->
  original (cwd project_blocked) file ∉ dirs project_blocked.
Proof.
  intros [-> | ->]%protected_cases _ Hin;
    apply (bool_decide_pack _) in Hin; vm_compute in Hin; done.
Qed.

Lemma rollback_restores_witness :
  let run := @install_try (collaborators all_fine) project_blocked in
  run.2 = Exit 1 /\
  files run.1 !! (root ++ ["package.json"]) = Some package_text /\
  files run.1 !! (root ++ ["tsconfig.json"]) = Some tsconfig_text.
Proof.
  intros run.
  assert (run.2 <> Ok tt) as Hfailed by (vm_compute; discriminate).
  destruct (@rollback_restores_backed_up_files (collaborators all_fine)
              (sample_well_behaved all_fine) project_blocked run.1 run.2
              project_blocked_well_formed (surjective_pairing run) Hfailed)
    as (Hexit & Hrestored & _).
  split; [exact Hexit |]. split.
  - apply (Hrestored "package.json"); [by left | vm_compute; reflexivity].
  - apply (Hrestored "tsconfig.json"); [right; by left | vm_compute; reflexivity].
Defined.

(** A run in which the second template cannot be written: the command
    exits with status 1 after the rollback, and [tx3/trix.toml], created by
    the same step just before, is still there. *)
Lemma rollback_leaves_created_files :
  let run := @installCommand (collaborators all_fine) options project_blocked in
  run.2 = Exit 1 /\
  files project_blocked !! (root ++ ["tx3"; "trix.toml"]) = None /\
  files run.1 !! (root ++ ["tx3"; "trix.toml"]) = Some "[protocol]" /\
  files run.1 !! (root ++ ["package.json"]) = Some package_text /\
  files run.1 !! (root ++ ["tsconfig.json"]) = Some tsconfig_text.
Proof. repeat split; vm_compute; reflexivity. Qed.

End SampleCollaborators.

Section Validation.
Import Doc MergeStages Runs.
Context `{Collaborators}.

Lemma for_each_print {A} (l : list A) (f : A -> event) (w : world) :
  for_each l (fun x => modify (print (f x))) w
  = (World (cwd w) (files w) (dirs w) (console w ++ map f l), Ok tt).
Proof.
  revert w. induction l as [|x l IH]; intros w.
  - cbn. rewrite app_nil_r. by destruct w.
  - cbn [for_each]. rewrite bind_run. cbn [modify]. rewrite IH. cbn.
    by rewrite <- app_assoc.
Qed.

(** The validation of [options], as [validated] calls it. *)
Lemma validated_invalid (options : InstallOptions) (continue : M world unit)
    (w : world) :
  let validation :=
    (if fresh options then validateFreshProject else validateNextJsProject) w in
  isValid validation = false ->
  validated options continue w
  = (World (cwd w) (files w) (dirs w)
       (console w ++ LogError "Project validation failed:"
          :: map (fun error => LogError ("  • " +:+ error)) (errors validation)),
     Throw (Error "Project validation failed")).
Proof.
  intros validation Hinvalid. unfold validated. rewrite bind_run. cbn [gets].
  fold validation. rewrite Hinvalid. cbn [negb].
  rewrite bind_run. cbn [log_error modify].
  rewrite bind_run. unfold log_error.
  rewrite (for_each_print (errors validation)
             (fun error => LogError ("  • " +:+ error))).
  cbn. by rewrite <- app_assoc.
Qed.



(** The same for the revision with the trix and devnet steps, where the
    first line is printed unless [verbose] is set. *)
Lemma validation_failure_stops_before_any_write_v2 (options : InstallOptions)
    (w : world) (validation : ValidationResult) :
  let w1 := if verbose options then w
            else print (Log "Checking Next.js project...") w in
  validation
  = (if fresh options then validateFreshProject else validateNextJsProject) w1 ->
  isValid validation = false ->
  exists w',
    installCommand_v2 options w = (w', Throw (Error "Project validation failed")) /\
    cwd w' = cwd w /\ files w' = files w /\ dirs w' = dirs w /\
    console w'
    = console w1
        ++ LogError "Project validation failed:"
        :: map (fun error => LogError ("  • " +:+ error)) (errors validation).
Proof.
  intros w1 -> Hinvalid. subst w1. unfold installCommand_v2.
  destruct (verbose options); eexists;
    (split; [rewrite bind_run; cbn [negb when log modify mret M_ret];
             apply validated_invalid; exact Hinvalid | cbn; done]).
Qed.

End Validation.

Section ValidationSample.
Import Runs Sample.



End ValidationSample.

Section MissingTsconfig.
Import Doc MergeStages Runs.
Context `{Collaborators}.

Lemma updateTsConfig_missing (w : world) :
  fileExists "tsconfig.json" w = false ->
  updateTsConfig w = (w, Throw (Error "tsconfig.json not found")).
Proof.
  intros Hmissing. unfold updateTsConfig. rewrite bind_run. cbn [gets].
  unfold tsconfigPath. by rewrite Hmissing.
Qed.

Context `{!WellBehaved}.

(** C10: without a [tsconfig.json], [updateTsConfig] throws and changes
    nothing.  In the command, when the backups were taken and the packages
    installed, and the file is still missing, the step fails, the rollback
    runs and the command exits with status 1; no backup entry is for
    [tsconfig.json], which did not exist when the backups were taken, and
    the file is not created. *)
Theorem missing_tsconfig_fails_and_rolls_back (w0 : world) (sb s1 : istate) :
  (forall w, fileExists "tsconfig.json" w = false ->
     updateTsConfig w = (w, Throw (Error "tsconfig.json not found"))) /\
  ((forall file, file ∈ protected ->
      is_Some (files w0 !! original (cwd w0) file) ->
      original (cwd w0) file ∉ dirs w0) ->
   fileExists "tsconfig.json" w0 = false ->
   take_backups false (IState w0 []) = (sb, Ok tt) ->
   install_packages false sb = (s1, Ok tt) ->
   fileExists "tsconfig.json" (iworld s1) = false ->
   exists w',
     install_try w0 = (w', Exit 1) /\
     (forall b, b ∈ backups s1 -> originalPath b <> "tsconfig.json") /\
     fileExists "tsconfig.json" w' = false /\
     console w'
     = console (iworld s1)
         ++ [ Spinner Start "Updating TypeScript configuration...";
              Spinner Fail "Installation failed";
              LogError "Error: tsconfig.json not found";
              Log "Rolling back changes...";
              Log "Rollback completed" ]).
Proof.
  split; [apply updateTsConfig_missing |].
  intros Hwf Hmissing0 Htake Hinstall Hmissing1.
  destruct (take_backups_run w0 false _ sb _ (untouched_start w0 Hwf) Htake)
    as (Hres_b & _ & Hall).
  destruct (install_packages_keeps w0 false sb s1 _ (conj Hres_b (Hall eq_refl)) Hinstall)
    as [[Hres1 Hall1] _].
  set (failed := IState (print (Spinner Start "Updating TypeScript configuration...")
                           (iworld s1)) (backups s1)).
  assert ((backup_and_mutate false;; lift install_completed) (IState w0 [])
          = (failed, Throw (Error "tsconfig.json not found"))) as Hbody.
  { rewrite bind_run. unfold backup_and_mutate.
    rewrite bind_run, Htake. rewrite bind_run, Hinstall.
    rewrite bind_run. unfold update_tsconfig.
    rewrite bind_run, lift_run, progress_run. cbn [fst snd].
    rewrite bind_run, lift_run. cbn [iworld backups].
    rewrite updateTsConfig_missing by exact Hmissing1. reflexivity. }
  assert (restorable w0 failed) as Hres.
  { destruct Hres1 as (Hc & Hd & Hb & Hu). by repeat split. }
  destruct (rollback false (Error "tsconfig.json not found") failed)
    as [s2 r2] eqn:Hroll.
  destruct (rollback_run w0 false _ failed s2 r2 Hres Hroll)
    as (-> & _ & Hother & _ & Hconsole & Hcwd).
  assert (files w0 !! original (cwd w0) "tsconfig.json" = None) as Hnone.
  { unfold fileExists in Hmissing0. apply bool_decide_eq_false in Hmissing0.
    rewrite resolve_protected in Hmissing0 by (right; by left).
    by apply eq_None_not_Some. }
  assert (forall file, file ∈ protected -> entry_of file ∈ backups s1 ->
            file <> "tsconfig.json") as Hentries.
  { intros file Hin Hentry ->. destruct Hres1 as (_ & _ & Hb & _).
    destruct (Hb _ Hentry) as (g & _ & Heq%entry_of_inj & Hsome & _). subst g.
    rewrite Hnone in Hsome. by destruct Hsome. }
  exists (iworld s2). split.
  - unfold install_try, with_backups. rewrite try_catch_run, Hbody, Hroll. done.
  - split; [| split].
    + intros b Hb Hpath. destruct Hres1 as (_ & _ & Hentry & _).
      destruct (Hentry b Hb) as (file & Hin & -> & _).
      apply (Hentries file Hin Hb). exact Hpath.
    + unfold fileExists in *. apply bool_decide_eq_false.
      apply bool_decide_eq_false in Hmissing1.
      destruct Hres as (Hc & _). destruct Hres1 as (Hc1 & _).
      rewrite Hcwd. change (cwd (iworld failed)) with (cwd (iworld s1)).
      rewrite Hc1 in Hmissing1 |- *.
      rewrite resolve_protected in * by (right; by left).
      rewrite Hother; [exact Hmissing1 |].
      intros file Hin Hentry Heq%original_inj. by apply (Hentries file).
    + rewrite Hconsole. cbn. by rewrite <- app_assoc.
Qed.

End MissingTsconfig.

Lemma run_eq {S A} (x : S * result A) (r : result A) : x.2 = r -> x = (x.1, r).
Proof. intros <-. by destruct x. Qed.

Section MissingTsconfigSample.
Import Runs Sample.

Lemma project_without_tsconfig_well_formed (file : string) :
  file ∈ protected ->
  is_Some (files project_without_tsconfig
             !! original (cwd project_without_tsconfig) file) ->
  original (cwd project_without_tsconfig) file ∉ dirs project_without_tsconfig.
Proof.
  intros [-> | ->]%protected_cases _ Hin;
    apply (bool_decide_pack _) in Hin; vm_compute in Hin; done.
Qed.

Lemma missing_tsconfig_witness :
  exists w',
    @install_try (collaborators all_fine) project_without_tsconfig = (w', Exit 1) /\
    fileExists "tsconfig.json" w' = false.
Proof.
  set (C := collaborators all_fine).
  set (sb := (take_backups false (IState project_without_tsconfig [])).1).
  set (s1 := (@install_packages C false sb).1).
  destruct (@missing_tsconfig_fails_and_rolls_back C (sample_well_behaved all_fine)
              project_without_tsconfig sb s1) as [_ Hrun].
  destruct Hrun as (w' & Hexit & _ & Hmissing & _).
  - apply project_without_tsconfig_well_formed.
  - vm_compute. reflexivity.
  - apply run_eq. vm_compute. reflexivity.
  - apply run_eq. vm_compute. reflexivity.
  - vm_compute. reflexivity.
  - exists w'. split; [exact Hexit | exact Hmissing].
Defined.

End MissingTsconfigSample.

Section BestEffort.
Import Doc MergeStages Runs.
Context `{Collaborators}.

Lemma setupDevnet_copy_failure (w wd : world) (e : exn) :
  copyDevnetFolder "devnet" w = (wd, Throw e) ->
  setupDevnet w = (wd, Throw (Error ("Failed to setup devnet: " +:+ exn_message e))).
Proof.
  intros Hcopy. unfold setupDevnet. rewrite try_catch_run, bind_run, Hcopy. done.
Qed.

Lemma trix_step_failure (verbose : bool) (w wt : world) (e : exn) :
  installTrix verbose
    (print (if verbose then Log "Installing trix via tx3up..."
            else Spinner Start "Installing trix via tx3up...") w)
  = (wt, Throw e) ->
  trix_step verbose w
  = (print (Log trix_manual_hint)
       (print (if verbose
               then Log "trix installation failed, but continuing with TX3 setup"
               else Spinner Warn "trix installation failed, but continuing with TX3 setup")
          wt),
     Ok tt).
Proof.
  intros Hfail. unfold trix_step. rewrite bind_run, progress_run.
  rewrite try_catch_run, bind_run, Hfail.
  rewrite bind_run, progress_run. reflexivity.
Qed.

Lemma devnet_step_failure (verbose : bool) (w wd : world) (e : exn) :
  setupDevnet
    (print (if verbose then Log "Setting up devnet configuration..."
            else Spinner Start "Setting up devnet configuration...") w)
  = (wd, Throw e) ->
  devnet_step verbose w
  = (print (if verbose
            then Log "Devnet setup failed, but continuing with installation"
            else Spinner Warn "Devnet setup failed, but continuing with installation")
       wd,
     Ok tt).
Proof.
  intros Hfail. unfold devnet_step. rewrite bind_run, progress_run.
  rewrite try_catch_run, bind_run, Hfail. apply progress_run.
Qed.

Lemma trix_step_outcome (verbose shouldInstallTrix : bool) (w w' : world) :
  trix_outcome verbose shouldInstallTrix w w' ->
  when shouldInstallTrix (trix_step verbose) w = (w', Ok tt).
Proof.
  intros [-> | wt -> Hrun | wt e -> Hrun]; cbn [when].
  - reflexivity.
  - unfold trix_step. rewrite bind_run, progress_run.
    rewrite try_catch_run, bind_run, Hrun. by rewrite progress_run.
  - by apply (trix_step_failure verbose w wt e).
Qed.

Lemma devnet_step_outcome (verbose includeDevnet : bool) (w w' : world) :
  devnet_outcome verbose includeDevnet w w' ->
  when includeDevnet (devnet_step verbose) w = (w', Ok tt).
Proof.
  intros [-> | wd -> Hrun | wd e -> Hrun]; cbn [when].
  - reflexivity.
  - unfold devnet_step. rewrite bind_run, progress_run.
    rewrite try_catch_run, bind_run, Hrun. by rewrite progress_run.
  - by apply (devnet_step_failure verbose w wd e).
Qed.

Lemma when_lift (c : bool) (m : M world unit) (s : istate) :
  when c (lift m) s = lift (when c m) s.
Proof. destruct c; [reflexivity |]. by destruct s. Qed.

(** From the validation to the [try] statement. *)
Lemma installCommand_v2_enters_try (options : InstallOptions)
    (w wv w0 : world) (shouldInstallTrix includeDevnet : bool) :
  dryRun options = false ->
  (forall continue,
     validated options continue
       (if verbose options then w else print (Log "Checking Next.js project...") w)
     = continue wv) ->
  best_effort_choices options wv = (w0, shouldInstallTrix, includeDevnet) ->
  confirm ConfirmInstall w0 = true ->
  installCommand_v2 options w
  = install_try_v2 (verbose options) shouldInstallTrix includeDevnet w0.
Proof.
  intros Hdry Hvalid Hchoices Hconfirm. unfold installCommand_v2.
  rewrite bind_run.
  assert (when (negb (verbose options)) (log "Checking Next.js project...") w
          = (if verbose options then w
             else print (Log "Checking Next.js project...") w, Ok tt)) as ->
    by (by destruct (verbose options)).
  rewrite Hvalid, Hdry. unfold best_effort_choices in Hchoices.
  cbv beta iota delta [ask gets log modify mbind M_bind mret M_ret].
  destruct (verbose options); cbn [negb] in *.
  - injection Hchoices as <- <- <-. by rewrite Hconfirm.
  - destruct (checkTrixInstalled wv); cbn [negb] in *.
    + injection Hchoices as <- <- <-.
      destruct (checkTrixInstalled (print (Log "trix is already installed") wv)
                || false); by rewrite Hconfirm.
    + injection Hchoices as <- <- <-.
      destruct (checkTrixInstalled wv || confirm ShouldInstallTrix wv);
        by rewrite Hconfirm.
Qed.

(** C6: a failure of the trix installation, or of the devnet setup (the
    copy of the bundle included), is caught where it happens: a warning is
    printed and the step returns.  So in every run of the [try] statement,
    whichever of the two steps are asked for and however each of them goes,
    when the steps between them succeed the [catch] block of the command is
    not entered: nothing is restored, the files and directories are as the
    devnet step left them, and the command prints its closing lines and
    returns.  [installCommand] comes to the [try] statement with the answers
    given at its prompts, so the same holds of the command. *)
Theorem best_effort_failures_do_not_abort
    (verbose shouldInstallTrix includeDevnet : bool) (w0 w1 w3 : world)
    (s2 : istate) :
  (forall w w' error,
     copyDevnetFolder "devnet" w = (w', Throw error) ->
     setupDevnet w
     = (w', Throw (Error ("Failed to setup devnet: " +:+ exn_message error)))) /\
  (trix_outcome verbose shouldInstallTrix w0 w1 ->
   backup_and_mutate verbose (IState w1 []) = (s2, Ok tt) ->
   devnet_outcome verbose includeDevnet (iworld s2) w3 ->
   when shouldInstallTrix (trix_step verbose) w0 = (w1, Ok tt) /\
   when includeDevnet (devnet_step verbose) (iworld s2) = (w3, Ok tt) /\
   exists w',
     install_try_v2 verbose shouldInstallTrix includeDevnet w0 = (w', Ok tt) /\
     cwd w' = cwd w3 /\ files w' = files w3 /\ dirs w' = dirs w3 /\
     console w' = console w3 ++ completed_lines /\
     forall (force fresh : bool) (w wv : world),
       let options := {| dryRun := false; force := force; fresh := fresh;
                         verbose := verbose |} in
       (forall continue,
          validated options continue
            (if verbose then w else print (Log "Checking Next.js project...") w)
          = continue wv) ->
       best_effort_choices options wv = (w0, shouldInstallTrix, includeDevnet) ->
       confirm ConfirmInstall w0 = true ->
       installCommand_v2 options w = (w', Ok tt)).
Proof.
  split.
  { intros w w' error. apply setupDevnet_copy_failure. }
  intros Htrix Hsteps Hdevnet.
  pose proof (trix_step_outcome _ _ _ _ Htrix) as Hstep.
  pose proof (devnet_step_outcome _ _ _ _ Hdevnet) as Hdstep.
  split; [exact Hstep |]. split; [exact Hdstep |].
  assert (install_try_v2 verbose shouldInstallTrix includeDevnet w0
          = (World (cwd w3) (files w3) (dirs w3) (console w3 ++ completed_lines),
             Ok tt)) as Htry.
  { unfold install_try_v2, with_backups. rewrite try_catch_run.
    unfold install_body_v2.
    rewrite bind_run, when_lift, lift_run. cbn [iworld backups].
    rewrite Hstep. cbn [fst snd].
    rewrite bind_run, Hsteps.
    rewrite bind_run, when_lift, lift_run, Hdstep. cbn [fst snd].
    rewrite lift_run, install_completed_run. reflexivity. }
  eexists. split; [exact Htry |]. cbn. repeat split.
  intros force fresh w wv Hvalid Hchoices Hconfirm.
  rewrite <- Htry.
  by apply (installCommand_v2_enters_try
              {| dryRun := false; force := force; fresh := fresh;
                 verbose := verbose |} w wv).
Qed.

End BestEffort.

Section BestEffortSample.
Import Runs Sample Scenarios.

Lemma best_effort_witness :
  let devnet_missing :=
    with_tools (collaborators all_fine) (fun _ => true)
      (sample_installTrix true) (sample_copyDevnetFolder false) in
  let trix_failing :=
    with_answers
      (collaborators {| valid := true; pm_ok := true; trix_ok := false;
                        devnet_ok := true; scaffold_ok := true |})
      (fun q _ => match q with ShouldIncludeDevnet => false | _ => true end) in
  (exists w' shown,
     @installCommand_v2 devnet_missing options project = (w', Ok tt) /\
     console w'
     = shown
         ++ Spinner Warn "Devnet setup failed, but continuing with installation"
         :: completed_lines /\
     files w' !! (root ++ ["tx3"; "trix.toml"]) = Some "[protocol]" /\
     files w' !! (root ++ ["devnet"; "dolos.toml"]) = None) /\
  (exists w' shown steps,
     @installCommand_v2 trix_failing options project = (w', Ok tt) /\
     console w'
     = shown
         ++ [ Spinner Warn "trix installation failed, but continuing with TX3 setup";
              Log trix_manual_hint ]
         ++ steps ++ completed_lines /\
     files w' !! (root ++ ["tx3"; "trix.toml"]) = Some "[protocol]").
Proof.
  intros devnet_missing trix_failing.
  set (wv := World root (files project) (dirs project)
               [ Log "Checking Next.js project...";
                 Log "Next.js project detected!";
                 Log "Using package manager: npm" ]).
  split.
  - set (w0 := print (Log "trix is already installed") wv).
    set (steps := @backup_and_mutate devnet_missing false (IState w0 [])).
    set (devnet := @setupDevnet devnet_missing
                     (print (Spinner Start "Setting up devnet configuration...")
                        (iworld steps.1))).
    set (w3 := print (Spinner Warn
                        "Devnet setup failed, but continuing with installation")
                 devnet.1).
    destruct (@best_effort_failures_do_not_abort devnet_missing false false true
                w0 w0 w3 steps.1) as [_ Hrun].
    destruct Hrun as (_ & _ & w' & _ & _ & Hfiles & _ & Hconsole & Hcommand).
    + by apply trix_skipped.
    + apply run_eq. vm_compute. reflexivity.
    + apply (devnet_failed false true (iworld steps.1) devnet.1
               (Error "Failed to setup devnet: devnet bundle not found"));
        [reflexivity | apply run_eq; vm_compute; reflexivity].
    + exists w', (console devnet.1). split; [| split; [| split]].
      * apply (Hcommand false false project wv).
        -- intros continue. reflexivity.
        -- vm_compute. reflexivity.
        -- reflexivity.
      * rewrite Hconsole. cbn [w3 print console]. by rewrite <- app_assoc.
      * rewrite Hfiles. vm_compute. reflexivity.
      * rewrite Hfiles. vm_compute. reflexivity.
  - set (trix := @installTrix trix_failing false
                   (print (Spinner Start "Installing trix via tx3up...") wv)).
    set (w1 := print (Log trix_manual_hint)
                 (print (Spinner Warn
                           "trix installation failed, but continuing with TX3 setup")
                    trix.1)).
    set (steps := @backup_and_mutate trix_failing false (IState w1 [])).
    destruct (@best_effort_failures_do_not_abort trix_failing false true false
                wv w1 (iworld steps.1) steps.1) as [_ Hrun].
    destruct Hrun as (_ & _ & w' & _ & _ & Hfiles & _ & Hconsole & Hcommand).
    + apply (trix_failed false true wv trix.1 (Error "Command failed: tx3up"));
        [reflexivity | apply run_eq; vm_compute; reflexivity].
    + apply run_eq. vm_compute. reflexivity.
    + by apply devnet_skipped.
    + exists w', (console trix.1), (drop 6 (console (iworld steps.1))).
      split; [| split].
      * apply (Hcommand false false project wv).
        -- intros continue. reflexivity.
        -- vm_compute. reflexivity.
        -- reflexivity.
      * rewrite Hconsole. vm_compute. reflexivity.
      * rewrite Hfiles. vm_compute. reflexivity.
Defined.

End BestEffortSample.

Section Init.
Import Doc MergeStages Runs.
Context `{Collaborators}.

(** [initCommand] stops at once when the directory is there. *)
Lemma init_refuses_existing_directory (options : InitOptions) (w : world)
    (name : string) :
  projectName options = Some name ->
  name <> EmptyString ->
  directoryExists name w = true ->
  initCommand options w
  = (print (LogError ("Directory '" +:+ name +:+ "' already exists"))
       (print (Log "Initializing new Next.js project with TX3...") w),
     Exit 1).
Proof.
  intros Hname Hne Hexists. unfold initCommand, init_checked.
  rewrite bind_run. cbn [log modify]. rewrite Hname.
  destruct name as [|c name]; [done |].
  rewrite bind_run. cbn [mret M_ret]. rewrite bind_run. cbn [gets].
  change (directoryExists (String c name)
            (print (Log "Initializing new Next.js project with TX3...") w))
    with (directoryExists (String c name) w).
  rewrite Hexists. rewrite bind_run. reflexivity.
Qed.

End Init.

Section InitSample.
Import Runs Sample.

(** C5, where the code departs from it: [init my-app] in [/home/dev], the
    project generator succeeds, then the installation fails.  When the
    package manager fails, [installCommand] itself ends the process after its
    rollback, and the [catch] block of [initCommand] is never entered.  When
    the validation fails, the [catch] block is entered, but the process is by
    then inside the new directory, where the relative name [my-app] names no
    directory, so the cleanup is skipped.  Either way the command exits with
    status 1 and [/home/dev/my-app] is still there.  A failure of the project
    generator, before the change of directory, is cleaned up. *)
Theorem init_cleanup_skipped_after_chdir :
  let target := ["home"; "dev"; "my-app"] in
  let failing_install :=
    @initCommand
      (collaborators {| valid := true; pm_ok := false; trix_ok := true;
                        devnet_ok := true; scaffold_ok := true |})
      init_options workspace in
  let failing_validation :=
    @initCommand
      (collaborators {| valid := false; pm_ok := true; trix_ok := true;
                        devnet_ok := true; scaffold_ok := true |})
      init_options workspace in
  let failing_generator :=
    @initCommand
      (collaborators {| valid := true; pm_ok := true; trix_ok := true;
                        devnet_ok := true; scaffold_ok := false |})
      init_options workspace in
  (failing_install.2 = Exit 1 /\
   bool_decide (target ∈ dirs failing_install.1) = true /\
   is_Some (files failing_install.1 !! (target ++ ["package.json"])) /\
   last (console failing_install.1) = Some (Log "Rollback completed")) /\
  (failing_validation.2 = Exit 1 /\
   bool_decide (target ∈ dirs failing_validation.1) = true /\
   is_Some (files failing_validation.1 !! (target ++ ["package.json"])) /\
   cwd failing_validation.1 = target /\
   directoryExists "my-app" failing_validation.1 = false /\
   last (console failing_validation.1)
   = Some (LogError "Error: Project validation failed")) /\
  (failing_generator.2 = Exit 1 /\
   bool_decide (target ∈ dirs failing_generator.1) = false /\
   last (console failing_generator.1) = Some (Log "Cleaning up my-app...")).
Proof.
  intros target failing_install failing_validation failing_generator.
  repeat split; try (vm_compute; reflexivity); vm_compute; by eexists.
Qed.

End InitSample.

(** * Further properties

    What the code shows beyond the claims: of the webpack merge, of the
    tsconfig merge, of the steps of [installCommand] and of
    [initCommand]. *)

(** ** Lines of a text *)
Section WebpackLines.
Import NextConfig MergeSpec.

Lemma append_cons (x : ascii) (a b : string) :
  String x a +:+ b = String x (a +:+ b).
Proof. reflexivity. Qed.

Lemma append_nil_l (b : string) : EmptyString +:+ b = b.
Proof. reflexivity. Qed.

Lemma append_assoc (a b c : string) : (a +:+ b) +:+ c = a +:+ (b +:+ c).
Proof. induction a as [|x a IH]; [done |]. by rewrite !append_cons, IH. Qed.

Lemma append_nil_r (a : string) : a +:+ EmptyString = a.
Proof. induction a as [|x a IH]; [done |]. by rewrite append_cons, IH. Qed.

Lemma split_nonempty (s : string) : split nl s <> [].
Proof.
  destruct s as [|c s]; simpl; [done |].
  destruct (Ascii.eqb c nl); [done |]. by destruct (split nl s).
Qed.

Lemma split_app (a b : string) :
  split nl (a +:+ newline +:+ b) = split nl a ++ split nl b.
Proof.
  induction a as [|c a IH].
  - change (split nl (String nl b) = [EmptyString] ++ split nl b).
    reflexivity.
  - rewrite append_cons. simpl.
    destruct (Ascii.eqb c nl); [by rewrite IH |].
    rewrite IH. pose proof (split_nonempty a) as Hne.
    by destruct (split nl a).
Qed.

Lemma join_cons (sep p : string) (ps : list string) :
  ps <> [] -> join sep (p :: ps) = p +:+ sep +:+ join sep ps.
Proof. by destruct ps. Qed.

Lemma join_app (sep : string) (l1 l2 : list string) :
  l1 <> [] -> l2 <> [] ->
  join sep (l1 ++ l2) = join sep l1 +:+ sep +:+ join sep l2.
Proof.
  intros Hl1 Hl2. induction l1 as [|p l1 IH]; [done |].
  destruct l1 as [|q l1].
  - change ([p] ++ l2) with (p :: l2). by rewrite join_cons.
  - change ((p :: q :: l1) ++ l2) with (p :: ((q :: l1) ++ l2)).
    rewrite join_cons by done. rewrite IH by done.
    rewrite (join_cons _ p) by done. by rewrite !append_assoc.
Qed.

Lemma join_split (s : string) : join newline (split nl s) = s.
Proof.
  induction s as [|c s IH]; [done |]. simpl split.
  destruct (Ascii.eqb_spec c nl) as [->|Hne].
  - rewrite join_cons by apply split_nonempty. by rewrite IH.
  - pose proof (split_nonempty s) as Hs.
    destruct (split nl s) as [|l ls]; [done |].
    destruct ls as [|l' ls].
    + simpl in *. by rewrite IH.
    + rewrite join_cons by done. rewrite join_cons in IH by done.
      rewrite append_cons. by rewrite IH.
Qed.

Lemma split_one_line (s : string) :
  includes newline s = false -> split nl s = [s].
Proof.
  induction s as [|c s IH]; [done |].
  unfold newline. cbn [includes startsWith split].
  destruct (Ascii.eqb_spec c nl) as [->|Hne];
    [by rewrite Ascii.eqb_refl |].
  assert (Ascii.eqb nl c = false) as -> by (apply Ascii.eqb_neq; congruence).
  intros Hs. by rewrite IH.
Qed.

Lemma split_lines_one_line (s : string) :
  Forall (fun line => includes newline line = false) (split nl s).
Proof.
  induction s as [|c s IH]; simpl.
  - by constructor.
  - destruct (Ascii.eqb_spec c nl) as [->|Hne]; [by constructor |].
    pose proof (split_nonempty s) as Hs.
    destruct (split nl s) as [|l ls]; [done |].
    inversion IH as [|? ? Hl Hls]; subst. constructor; [|done].
    unfold newline in *. cbn [includes startsWith].
    assert (Ascii.eqb nl c = false) as -> by (apply Ascii.eqb_neq; congruence).
    exact Hl.
Qed.

Lemma split_join (ls : list string) :
  ls <> [] -> Forall (fun line => includes newline line = false) ls ->
  split nl (join newline ls) = ls.
Proof.
  intros Hne Hall. induction Hall as [|l ls Hl Hls IH]; [done |].
  destruct ls as [|l' ls].
  - simpl. by apply split_one_line.
  - rewrite join_cons by done. rewrite split_app, IH by done.
    by rewrite split_one_line.
Qed.


Lemma no_newline_cons (a : ascii) (p : string) :
  includes newline (String a p) = false ->
  a <> nl /\ includes newline p = false.
Proof.
  unfold newline. cbn [includes startsWith].
  destruct (Ascii.eqb_spec nl a) as [<-|Hne]; [done |].
  intros Hp. split; [congruence | exact Hp].
Qed.

Lemma startsWith_first_line (p s l : string) (ls : list string) :
  includes newline p = false -> split nl s = l :: ls ->
  startsWith p s = startsWith p l.
Proof.
  revert s l ls. induction p as [|a p IH]; intros s l ls Hp Hs; [done |].
  apply no_newline_cons in Hp as [Ha Hp].
  destruct s as [|b s].
  - injection Hs as <- <-. done.
  - cbn [split] in Hs. destruct (Ascii.eqb_spec b nl) as [->|Hb].
    + injection Hs as <- <-. cbn [startsWith].
      by assert (Ascii.eqb a nl = false) as -> by (by apply Ascii.eqb_neq).
    + pose proof (split_nonempty s) as Hne.
      destruct (split nl s) as [|l' ls'] eqn:Hs'; [done |].
      injection Hs as <- <-. cbn [startsWith].
      destruct (Ascii.eqb a b); [by apply (IH s l' ls') | done].
Qed.

(** A pattern without line break is found in a text exactly when one of the
    lines has it. *)
Lemma includes_lines (p s : string) :
  p <> EmptyString -> includes newline p = false ->
  includes p s = existsb (includes p) (split nl s).
Proof.
  intros Hne Hp. destruct p as [|a p]; [done |]. clear Hne.
  induction s as [|c s IH].
  - cbn [split existsb includes]. by rewrite !orb_false_r.
  - pose proof (no_newline_cons a p Hp) as [Ha _].
    cbn [split]. destruct (Ascii.eqb_spec c nl) as [->|Hc].
    + cbn [existsb]. rewrite <- IH. cbn [includes startsWith].
      by assert (Ascii.eqb a nl = false) as -> by (by apply Ascii.eqb_neq).
    + pose proof (split_nonempty s) as Hs.
      destruct (split nl s) as [|l ls] eqn:Hsplit; [done |].
      cbn [existsb] in *.
      change (includes (String a p) (String c s))
        with (startsWith (String a p) (String c s) || includes (String a p) s).
      change (includes (String a p) (String c l))
        with (startsWith (String a p) (String c l) || includes (String a p) l).
      rewrite IH.
      rewrite (startsWith_first_line (String a p) (String c s) (String c l) ls Hp).
      * by rewrite orb_assoc.
      * cbn [split]. destruct (Ascii.eqb_spec c nl); [done |]. by rewrite Hsplit.
Qed.

Lemma includes_join (p : string) (ls : list string) :
  p <> EmptyString -> includes newline p = false ->
  Forall (fun line => includes newline line = false) ls -> ls <> [] ->
  includes p (join newline ls) = existsb (includes p) ls.
Proof.
  intros Hne Hp Hls Hnil. rewrite includes_lines by done.
  by rewrite split_join.
Qed.

Lemma findIndex_app_none {A} (p : A -> bool) (l1 l2 : list A) :
  Forall (fun x => p x = false) l1 ->
  findIndex p (l1 ++ l2)
  = option_map (fun i => (length l1 + i)%nat) (findIndex p l2).
Proof.
  induction 1 as [|x l1 Hx _ IH]; simpl.
  - by destruct (findIndex p l2).
  - rewrite Hx, IH. by destruct (findIndex p l2).
Qed.

Lemma findIndex_app_some {A} (p : A -> bool) (l1 l2 : list A) (i : nat) :
  findIndex p l1 = Some i -> findIndex p (l1 ++ l2) = Some i.
Proof.
  revert i. induction l1 as [|x l1 IH]; intros i; simpl; [done |].
  destruct (p x); [done |].
  destruct (findIndex p l1) as [j|]; [|done].
  intros [= <-]. by rewrite (IH j).
Qed.

Lemma findIndex_lt {A} (p : A -> bool) (l : list A) (i : nat) :
  findIndex p l = Some i -> (i < length l)%nat.
Proof.
  intros Hi. apply findIndex_spec in Hi as [[x [Hx _]] _].
  by apply lookup_lt_Some in Hx.
Qed.

Lemma scan_braces_shift (ls : list string) (n i : nat) (braceCount : Z)
    (foundOpenBrace : bool) :
  scan_braces ls (n + i) braceCount foundOpenBrace
  = option_map (fun k => (n + k)%nat) (scan_braces ls i braceCount foundOpenBrace).
Proof.
  revert i braceCount foundOpenBrace.
  induction ls as [|line rest IH]; intros i braceCount foundOpenBrace; [done |].
  cbn [scan_braces]. replace (S (n + i)) with (n + S i)%nat by lia.
  destruct (foundOpenBrace || includes "{" line); [|by rewrite IH].
  match goal with |- context [Z.eqb ?x 0] => destruct (Z.eqb x 0) end; [done |].
  by rewrite IH.
Qed.

Lemma scan_braces_app_some (l1 l2 : list string) (i k : nat) (braceCount : Z)
    (foundOpenBrace : bool) :
  scan_braces l1 i braceCount foundOpenBrace = Some k ->
  scan_braces (l1 ++ l2) i braceCount foundOpenBrace = Some k.
Proof.
  revert i braceCount foundOpenBrace.
  induction l1 as [|line rest IH]; intros i braceCount foundOpenBrace; [done |].
  cbn [scan_braces app].
  destruct (foundOpenBrace || includes "{" line); [|by apply IH].
  match goal with |- context [Z.eqb ?x 0] => destruct (Z.eqb x 0) end; [done |].
  by apply IH.
Qed.

Lemma scan_braces_bound (ls : list string) (i k : nat) (braceCount : Z)
    (foundOpenBrace : bool) :
  scan_braces ls i braceCount foundOpenBrace = Some k ->
  (i <= k < i + length ls)%nat.
Proof.
  revert i braceCount foundOpenBrace.
  induction ls as [|line rest IH]; intros i braceCount foundOpenBrace; [done |].
  cbn [scan_braces length].
  destruct (foundOpenBrace || includes "{" line).
  - match goal with |- context [Z.eqb ?x 0] => destruct (Z.eqb x 0) end.
    + intros [= <-]. lia.
    + intros Hk. apply IH in Hk. lia.
  - intros Hk. apply IH in Hk. lia.
Qed.

Lemma find_insertIndex_lt (lines : list string) (start k : nat) :
  find_insertIndex lines start = Some k -> (start <= k < length lines)%nat.
Proof.
  unfold find_insertIndex. intros Hk. apply scan_braces_bound in Hk.
  rewrite length_drop in Hk. lia.
Qed.

Lemma find_insertIndex_app_l (pre lines : list string) (start : nat) :
  find_insertIndex (pre ++ lines) (length pre + start)
  = option_map (fun k => (length pre + k)%nat) (find_insertIndex lines start).
Proof.
  unfold find_insertIndex. by rewrite drop_app_add, scan_braces_shift.
Qed.

Lemma find_insertIndex_app_r (lines post : list string) (start k : nat) :
  find_insertIndex lines start = Some k ->
  find_insertIndex (lines ++ post) start = Some k.
Proof.
  intros Hk. pose proof (find_insertIndex_lt _ _ _ Hk) as Hlt.
  unfold find_insertIndex in *. rewrite drop_app_le by lia.
  by apply scan_braces_app_some.
Qed.

Lemma splice_app_l {A} (pre l ins : list A) (i : nat) :
  splice (length pre + i) ins (pre ++ l) = pre ++ splice i ins l.
Proof.
  unfold splice. by rewrite take_app_add, drop_app_add, <- app_assoc.
Qed.

Lemma splice_app_r {A} (l post ins : list A) (i : nat) :
  (i <= length l)%nat -> splice i ins (l ++ post) = splice i ins l ++ post.
Proof.
  intros Hi. unfold splice.
  by rewrite take_app_le, drop_app_le, <- !app_assoc by done.
Qed.

Lemma webpackConfig_lines :
  Forall (fun line => includes newline line = false) webpackConfig.
Proof.
  assert (forallb (fun line => negb (includes newline line)) webpackConfig = true)
    as Hall by (vm_compute; reflexivity).
  rewrite forallb_forall in Hall. apply List.Forall_forall. intros line Hline.
  apply Hall in Hline. by apply negb_true_iff.
Qed.

Lemma splice_lines (lines : list string) (i : nat) :
  Forall (fun line => includes newline line = false) lines ->
  Forall (fun line => includes newline line = false)
    (splice i webpackConfig lines).
Proof.
  intros Hlines. unfold splice. rewrite !Forall_app. split; [|split].
  - by apply Forall_take.
  - apply webpackConfig_lines.
  - by apply Forall_drop.
Qed.

Lemma splice_nonempty (lines : list string) (i : nat) :
  splice i webpackConfig lines <> [].
Proof.
  unfold splice. intros Hnil. apply app_eq_nil in Hnil as [_ Hnil].
  apply app_eq_nil in Hnil as [Hnil _]. vm_compute in Hnil. discriminate Hnil.
Qed.

(** [generateNextConfig] on a text that is not empty. *)
Lemma generateNextConfig_unfold (cfg : string) :
  cfg <> EmptyString ->
  generateNextConfig (Some cfg) =
  if includes "webpack:" cfg then Throw (Error conflict_message)
  else
    match findIndex is_config_start (split nl cfg) with
    | None => Throw (Error no_start_message)
    | Some configObjectStart =>
        match find_insertIndex (split nl cfg) configObjectStart with
        | None => Throw (Error no_insertion_message)
        | Some insertIndex =>
            Ok (join newline (splice insertIndex webpackConfig (split nl cfg)))
        end
    end.
Proof. by destruct cfg. Qed.

Lemma generateNextConfig_Ok (cfg merged : string) :
  cfg <> EmptyString -> generateNextConfig (Some cfg) = Ok merged ->
  includes "webpack:" cfg = false /\
  exists configObjectStart insertIndex,
    findIndex is_config_start (split nl cfg) = Some configObjectStart /\
    find_insertIndex (split nl cfg) configObjectStart = Some insertIndex /\
    merged = join newline (splice insertIndex webpackConfig (split nl cfg)).
Proof.
  intros Hne. rewrite generateNextConfig_unfold by done.
  destruct (includes "webpack:" cfg); [done |].
  destruct (findIndex is_config_start (split nl cfg)) as [start|] eqn:Hstart;
    [|done].
  destruct (find_insertIndex (split nl cfg) start) as [k|] eqn:Hk; [|done].
  intros [= <-]. split; [done |]. by exists start, k.
Qed.

Lemma append_newline_nonempty (a b : string) : a +:+ newline +:+ b <> EmptyString.
Proof. by destruct a. Qed.

Lemma includes_webpack_lines (s : string) :
  includes "webpack:" s = existsb (includes "webpack:") (split nl s).
Proof. apply includes_lines; [done | vm_compute; reflexivity]. Qed.

Lemma includes_webpack_app (a b : string) :
  includes "webpack:" (a +:+ newline +:+ b)
  = includes "webpack:" a || includes "webpack:" b.
Proof.
  by rewrite !includes_webpack_lines, split_app, existsb_app.
Qed.

Lemma includes_webpack_merged (lines : list string) (i : nat) :
  Forall (fun line => includes newline line = false) lines ->
  includes "webpack:" (join newline (splice i webpackConfig lines)) = true.
Proof.
  intros Hlines. rewrite includes_join; try done.
  - unfold splice. rewrite !existsb_app.
    assert (existsb (includes "webpack:") webpackConfig = true) as ->
      by (vm_compute; reflexivity).
    by rewrite orb_true_r.
  - by apply splice_lines.
  - apply splice_nonempty.
Qed.

(** X1: whatever [generateNextConfig] returns, the new configuration or a
    merged one, has the key [webpack:], so giving the result back to it is
    refused with the conflict error: the merge cannot be applied twice. *)
Theorem generateNextConfig_refuses_its_own_output
    (existingConfig : option string) (merged : string) :
  generateNextConfig existingConfig = Ok merged ->
  generateNextConfig (Some merged) = Throw (Error conflict_message).
Proof.
  intros Hmerged. apply generateNextConfig_conflict.
  assert (existingConfig = None \/ existingConfig = Some EmptyString \/
          exists cfg, existingConfig = Some cfg /\ cfg <> EmptyString) as Hcases.
  { destruct existingConfig as [[|c cfg]|]; [by right; left | | by left].
    right; right. by eexists. }
  destruct Hcases as [-> | [-> | [cfg [-> Hne]]]].
  - injection Hmerged as <-. vm_compute. reflexivity.
  - injection Hmerged as <-. vm_compute. reflexivity.
  - apply generateNextConfig_Ok in Hmerged as [_ (start & k & _ & _ & ->)]; [|done].
    apply includes_webpack_merged, split_lines_one_line.
Qed.

Lemma generateNextConfig_refuses_its_own_output_witness :
  generateNextConfig None = Ok new_config /\
  generateNextConfig (Some new_config) = Throw (Error conflict_message).
Proof.
  split; [reflexivity |].
  apply (generateNextConfig_refuses_its_own_output None). reflexivity.
Defined.

(** X4: lines before the one that declares the configuration are carried
    over as they are and do not count, whatever braces they hold: with a
    text [pre] in front that has no [webpack:] and no line declaring the
    configuration, the result for a configuration that is not empty is that
    for the configuration with [pre] in front, and an error stays the same
    error.  The empty configuration, alone taken as absent, is with [pre]
    in front a text without a declaring line, which is refused. *)
Theorem generateNextConfig_ignores_leading_lines (pre cfg : string) :
  includes "webpack:" pre = false ->
  Forall (fun line => is_config_start line = false) (split nl pre) ->
  generateNextConfig (Some (pre +:+ newline +:+ cfg)) =
  match cfg with
  | EmptyString => Throw (Error no_start_message)
  | _ =>
      match generateNextConfig (Some cfg) with
      | Ok merged => Ok (pre +:+ newline +:+ merged)
      | other => other
      end
  end.
Proof.
  intros Hpre Hstart.
  rewrite (generateNextConfig_unfold (pre +:+ newline +:+ cfg))
    by apply append_newline_nonempty.
  rewrite includes_webpack_app, Hpre, orb_false_l.
  rewrite split_app, findIndex_app_none by done.
  destruct cfg as [|c cfg]; [reflexivity |].
  rewrite generateNextConfig_unfold by done.
  destruct (includes "webpack:" (String c cfg)); [done |].
  destruct (findIndex is_config_start (split nl (String c cfg))) as [start|];
    [|done].
  cbn [option_map]. rewrite find_insertIndex_app_l.
  destruct (find_insertIndex (split nl (String c cfg)) start) as [k|]; [|done].
  cbn [option_map]. rewrite splice_app_l.
  rewrite join_app by (apply split_nonempty || apply splice_nonempty).
  by rewrite join_split.
Qed.

(** X5: the scan stops at the closing line, so what follows it is not
    looked at: when a text is merged, the same text followed by further
    lines without [webpack:] is merged in the same place, and the further
    lines come out unchanged. *)
Theorem generateNextConfig_ignores_trailing_lines (cfg post merged : string) :
  cfg <> EmptyString ->
  generateNextConfig (Some cfg) = Ok merged ->
  includes "webpack:" post = false ->
  generateNextConfig (Some (cfg +:+ newline +:+ post))
  = Ok (merged +:+ newline +:+ post).
Proof.
  intros Hne Hmerged Hpost.
  apply generateNextConfig_Ok in Hmerged as [Hcfg (start & k & Hstart & Hk & ->)];
    [|done].
  rewrite generateNextConfig_unfold by apply append_newline_nonempty.
  rewrite includes_webpack_app, Hcfg, Hpost. cbn [orb].
  rewrite split_app, (findIndex_app_some _ _ _ _ Hstart).
  rewrite (find_insertIndex_app_r _ _ _ _ Hk).
  apply find_insertIndex_lt in Hk.
  rewrite splice_app_r by lia.
  rewrite join_app by (apply split_nonempty || apply splice_nonempty).
  by rewrite join_split.
Qed.

(** X2: a merge only inserts.  The lines of the result are the lines of
    the text with the webpack block put in at one index inside the text, and
    taking the block out again gives the text back, byte for byte. *)
Theorem generateNextConfig_only_inserts (cfg merged : string) :
  cfg <> EmptyString ->
  generateNextConfig (Some cfg) = Ok merged ->
  exists insertIndex,
    (insertIndex < length (split nl cfg))%nat /\
    split nl merged
    = take insertIndex (split nl cfg) ++ webpackConfig
        ++ drop insertIndex (split nl cfg) /\
    join newline
      (take insertIndex (split nl merged)
         ++ drop (insertIndex + length webpackConfig) (split nl merged))
    = cfg.
Proof.
  intros Hne Hmerged.
  apply generateNextConfig_Ok in Hmerged as [_ (start & k & _ & Hk & ->)]; [|done].
  apply find_insertIndex_lt in Hk. exists k. split; [lia |].
  rewrite split_join
    by (apply splice_nonempty || apply splice_lines, split_lines_one_line).
  split; [done |]. unfold splice.
  assert (length (take k (split nl cfg)) = k) as Hlen
    by (rewrite length_take; lia).
  rewrite take_app_length' by done.
  rewrite app_assoc, drop_app_length' by (rewrite length_app; lia).
  by rewrite take_drop, join_split.
Qed.

Lemma generateNextConfig_only_inserts_witness :
  let cfg := join newline
               [ "import path from 'path';"; "const nextConfig = {";
                 "  images: { unoptimized: true },"; "};";
                 "export default nextConfig;" ] in
  let merged := join newline
                  ([ "import path from 'path';"; "const nextConfig = {";
                     "  images: { unoptimized: true }," ]
                   ++ webpackConfig ++ [ "};"; "export default nextConfig;" ]) in
  generateNextConfig (Some cfg) = Ok merged /\
  exists insertIndex,
    (insertIndex < length (split nl cfg))%nat /\
    split nl merged
    = take insertIndex (split nl cfg) ++ webpackConfig
        ++ drop insertIndex (split nl cfg) /\
    join newline
      (take insertIndex (split nl merged)
         ++ drop (insertIndex + length webpackConfig) (split nl merged))
    = cfg.
Proof.
  intros cfg merged.
  assert (generateNextConfig (Some cfg) = Ok merged) as Hmerged
    by (vm_compute; reflexivity).
  split; [exact Hmerged |].
  apply (generateNextConfig_only_inserts cfg merged); [done | exact Hmerged].
Defined.

Lemma generateNextConfig_ignores_leading_lines_witness :
  let pre := join newline [ "// helpers {{{"; "function f() { return 1 }" ] in
  let cfg := join newline [ "module.exports = {"; "  reactStrictMode: true,"; "}" ] in
  generateNextConfig (Some (pre +:+ newline +:+ cfg))
  = Ok (pre +:+ newline
          +:+ join newline
                ([ "module.exports = {"; "  reactStrictMode: true," ]
                 ++ webpackConfig ++ [ "}" ])) /\
  generateNextConfig (Some (pre +:+ newline)) = Throw (Error no_start_message) /\
  generateNextConfig (Some EmptyString) = Ok new_config.
Proof.
  intros pre cfg.
  assert (includes "webpack:" pre = false) as Hpre by (vm_compute; reflexivity).
  assert (Forall (fun line => is_config_start line = false) (split nl pre))
    as Hstart.
  { apply List.Forall_forall. intros line Hline.
    assert (forallb (fun line => negb (is_config_start line)) (split nl pre) = true)
      as Hall by (vm_compute; reflexivity).
    rewrite forallb_forall in Hall. apply Hall in Hline.
    by apply negb_true_iff. }
  split; [| split; [| reflexivity]].
  - rewrite (generateNextConfig_ignores_leading_lines pre cfg Hpre Hstart).
    vm_compute. reflexivity.
  - exact (generateNextConfig_ignores_leading_lines pre EmptyString Hpre Hstart).
Defined.

Lemma generateNextConfig_ignores_trailing_lines_witness :
  let cfg := join newline [ "const nextConfig = {"; "}" ] in
  let post := join newline [ "}}} // stray"; "export default nextConfig" ] in
  generateNextConfig (Some (cfg +:+ newline +:+ post))
  = Ok (join newline ([ "const nextConfig = {" ] ++ webpackConfig ++ [ "}" ])
          +:+ newline +:+ post).
Proof.
  intros cfg post.
  rewrite (generateNextConfig_ignores_trailing_lines cfg post
             (join newline ([ "const nextConfig = {" ] ++ webpackConfig ++ [ "}" ]))).
  - reflexivity.
  - done.
  - vm_compute. reflexivity.
  - vm_compute. reflexivity.
Defined.

(** X3: when the line that declares the configuration has an open brace
    and as many closing ones (as in [const nextConfig = {};]), the count is
    back to zero on that very line, and the block is put before the
    declaration, outside the object. *)
Theorem generateNextConfig_one_line_object (cfg line : string) (start : nat) :
  cfg <> EmptyString ->
  includes "webpack:" cfg = false ->
  config_start (split nl cfg) start ->
  split nl cfg !! start = Some line ->
  includes "{" line = true ->
  count_char "{" line = count_char "}" line ->
  generateNextConfig (Some cfg)
  = Ok (join newline
          (take start (split nl cfg) ++ webpackConfig
             ++ drop start (split nl cfg))).
Proof.
  intros Hne Hcfg Hstart Hline Hopen Hbalance.
  rewrite generateNextConfig_unfold, Hcfg by done.
  apply config_start_findIndex in Hstart. rewrite Hstart.
  assert (find_insertIndex (split nl cfg) start = Some start) as ->; [|done].
  unfold find_insertIndex. rewrite (drop_S _ _ _ Hline).
  cbn [scan_braces]. rewrite Hopen. cbn [orb].
  replace (0 + count_char "{" line - count_char "}" line)%Z with 0%Z by lia.
  reflexivity.
Qed.

Lemma generateNextConfig_one_line_object_witness :
  generateNextConfig
    (Some (join newline [ "const nextConfig = {};"; "export default nextConfig;" ]))
  = Ok (join newline
          (webpackConfig
             ++ [ "const nextConfig = {};"; "export default nextConfig;" ])).
Proof.
  rewrite (generateNextConfig_one_line_object _ "const nextConfig = {};" 0).
  - vm_compute. reflexivity.
  - done.
  - vm_compute. reflexivity.
  - apply config_start_findIndex. vm_compute. reflexivity.
  - vm_compute. reflexivity.
  - vm_compute. reflexivity.
  - vm_compute. reflexivity.
Defined.

End WebpackLines.

(** ** The tsconfig merge on the document and on the file *)
Section TsconfigDocument.
Import Doc MergeStages.

Lemma truthy_with_props (v : value) (ps ps' : props_t) :
  props_of v = Some ps -> truthy (Some (with_props v ps')) = true.
Proof. destruct v; simpl; congruence. Qed.

(** X6: on the parsed document the merge is idempotent, with nothing
    assumed of [JSON.parse]: a document that [setTx3Paths] returned is
    returned as it is when given again, also where an array sits at one of
    the three levels. *)
Theorem setTx3Paths_idempotent (tsconfig merged : value) :
  setTx3Paths tsconfig = Ok merged -> setTx3Paths merged = Ok merged.
Proof.
  intros Hok. apply setTx3Paths_inv in Hok
    as (c & p & ps & cps & pps & Hd & Hc & Hcps & Hp & Hpps & ->).
  unfold merged_doc.
  set (ps1 := ensure_object "compilerOptions" ps) in *.
  set (cps1 := ensure_object "paths" cps) in *.
  set (p1 := with_props p (merged_paths pps)).
  set (c1 := with_props c (aset "paths" p1 cps1)).
  assert (truthy (Some p1) = true) as Htp by (by eapply truthy_with_props).
  assert (truthy (Some c1) = true) as Htc by (by eapply truthy_with_props).
  rewrite (setTx3Paths_merged _ c1 p1 (aset "compilerOptions" c1 ps1)
             (aset "paths" p1 cps1) (merged_paths pps)).
  - unfold merged_doc.
    rewrite (ensure_object_aset "compilerOptions") by done.
    rewrite (ensure_object_aset "paths") by done.
    subst p1 c1. rewrite merged_paths_idemp.
    by rewrite !with_props_with_props, !aset_aset.
  - by eapply props_of_with_props.
  - rewrite ensure_object_aset by done. apply alookup_aset_eq.
  - by eapply props_of_with_props.
  - rewrite ensure_object_aset by done. apply alookup_aset_eq.
  - by eapply props_of_with_props.
Qed.

Lemma setTx3Paths_idempotent_witness :
  setTx3Paths Sample.tsconfig_doc = Ok Sample.tsconfig_merged /\
  setTx3Paths Sample.tsconfig_merged = Ok Sample.tsconfig_merged.
Proof.
  assert (setTx3Paths Sample.tsconfig_doc = Ok Sample.tsconfig_merged) as Hok
    by (vm_compute; reflexivity).
  split; [exact Hok |].
  exact (setTx3Paths_idempotent _ _ Hok).
Defined.

End TsconfigDocument.

Section TsconfigWrites.
Import Doc MergeStages Runs.
Context `{Collaborators}.

(** X7: [updateTsConfig] writes once, at the end: when it does not
    succeed nothing at all has changed, and when it does the only change is
    the content of [tsconfig.json].  It prints nothing, makes no directory,
    stays in the working directory and never ends the process. *)
Theorem updateTsConfig_changes_only_tsconfig (w w' : world) (r : result unit) :
  updateTsConfig w = (w', r) ->
  (r <> Ok tt -> w' = w) /\
  cwd w' = cwd w /\ dirs w' = dirs w /\ console w' = console w /\
  (forall p, p <> resolve (cwd w) tsconfigPath -> files w' !! p = files w !! p) /\
  (forall code, r <> Exit code).
Proof.
  rewrite updateTsConfig_run.
  destruct (files w !! resolve (cwd w) tsconfigPath) as [text|].
  - pose proof (mergeTsconfigPaths_comes_back text) as Hback.
    destruct (mergeTsconfigPaths text) as [updated|e|code].
    + unfold writeFile. destruct (directoryExists tsconfigPath w).
      * intros [= <- <-]. by repeat split.
      * intros [= <- <-]. repeat split; try done.
        intros p Hp. cbn. by rewrite lookup_insert_ne.
    + intros [= <- <-]. by repeat split.
    + by destruct (Hback code).
  - intros [= <- <-]. by repeat split.
Qed.

End TsconfigWrites.

(** ** Rules for [ends] *)
Section Ends.
Import Runs Effects.
Context {S : Type}.


Lemma ends_ret {A} (I : S -> Prop) (bad : exn + Z -> Prop) (a : A) :
  ends I bad (mret a).
Proof. intros s s' r HI [= <- <-]. split; [done |]. intros x Hx. done. Qed.

Lemma ends_throw {A} (I : S -> Prop) (bad : exn + Z -> Prop) (e : exn) :
  bad (inl e) -> ends I bad (throw (A := A) e).
Proof.
  intros Hbad s s' r HI [= <- <-]. split; [done |]. by intros x [= <-].
Qed.

Lemma ends_exit {A} (I : S -> Prop) (bad : exn + Z -> Prop) (code : Z) :
  bad (inr code) -> ends I bad (process_exit (A := A) code).
Proof.
  intros Hbad s s' r HI [= <- <-]. split; [done |]. by intros x [= <-].
Qed.

Lemma ends_gets {A} (I : S -> Prop) (bad : exn + Z -> Prop) (f : S -> A) :
  ends I bad (gets f).
Proof. intros s s' r HI [= <- <-]. split; [done |]. intros x Hx. done. Qed.

Lemma ends_modify (I : S -> Prop) (bad : exn + Z -> Prop) (f : S -> S) :
  (forall s, I s -> I (f s)) -> ends I bad (modify f).
Proof.
  intros Hf s s' r HI [= <- <-]. split; [by apply Hf |]. intros x Hx. done.
Qed.

Lemma ends_bind {A B} (I : S -> Prop) (bad : exn + Z -> Prop) (m : M S A)
    (f : A -> M S B) :
  ends I bad m -> (forall a, ends I bad (f a)) -> ends I bad (m ≫= f).
Proof.
  intros Hm Hf s s' r HI Hrun. rewrite bind_run in Hrun.
  destruct (m s) as [s1 [a|e|code]] eqn:Hms;
    destruct (Hm s s1 _ HI Hms) as [HI1 Hr].
  - by apply (Hf a s1).
  - injection Hrun as <- <-. split; [done |]. intros x [= <-]. by apply Hr.
  - injection Hrun as <- <-. split; [done |]. intros x [= <-]. by apply Hr.
Qed.

(** When what is read is known, only its continuation is run. *)
Lemma ends_bind_gets {A B} (I : S -> Prop) (bad : exn + Z -> Prop)
    (f : S -> A) (a : A) (k : A -> M S B) :
  (forall s, f s = a) -> ends I bad (k a) -> ends I bad (gets f ≫= k).
Proof.
  intros Hf Hk s s' r HI Hrun. rewrite bind_run in Hrun. cbn [gets] in Hrun.
  rewrite Hf in Hrun. by apply (Hk s).
Qed.



Lemma ends_when (I : S -> Prop) (bad : exn + Z -> Prop) (c : bool)
    (m : M S unit) :
  ends I bad m -> ends I bad (when c m).
Proof. intros Hm. destruct c; [exact Hm | apply ends_ret]. Qed.

Lemma ends_for_each {A} (I : S -> Prop) (bad : exn + Z -> Prop) (l : list A)
    (body : A -> M S unit) :
  (forall x, x ∈ l -> ends I bad (body x)) -> ends I bad (for_each l body).
Proof.
  induction l as [|x l IH]; intros Hbody; cbn [for_each]; [apply ends_ret |].
  apply ends_bind; [apply Hbody; left | intros _].
  apply IH. intros y Hy. apply Hbody. by right.
Qed.

Lemma ends_lift_result {A} (I : S -> Prop) (bad : exn + Z -> Prop)
    (r : result A) :
  (forall x, abnormal r = Some x -> bad x) -> ends I bad (lift_result r).
Proof. intros Hr s s' r' HI [= <- <-]. done. Qed.

Lemma keeps_ends {A} (I : S -> Prop) (m : M S A) :
  keeps I m <-> ends I thrown m.
Proof.
  split; intros Hm s s' r HI Hrun; destruct (Hm s s' r HI Hrun) as [HI' Hr];
    (split; [done |]).
  - intros x Hx. destruct r as [a|e|code]; [done | |by destruct (Hr code)].
    injection Hx as <-. by exists e.
  - intros code ->. destruct (Hr _ eq_refl) as [e He]. done.
Qed.

End Ends.

(** ** Steps that only print *)
Section ConsoleBlind.
Import Runs Effects.
Context `{Collaborators}.
Context (I : world -> Prop) (bad : exn + Z -> Prop).
Context (Hprint : forall e w, I w -> I (print e w)).

Lemma ends_print (e : event) : ends I bad (modify (print e)).
Proof. apply ends_modify. intros w. apply Hprint. Qed.

Lemma ends_log (text : string) : ends I bad (log text).
Proof. apply ends_print. Qed.

Lemma ends_log_error (text : string) : ends I bad (log_error text).
Proof. apply ends_print. Qed.



Lemma ends_log_all (texts : list string) : ends I bad (log_all texts).
Proof. apply ends_for_each. intros text _. apply ends_log. Qed.

Lemma ends_ask (q : question) : ends I bad (ask q).
Proof. apply ends_gets. Qed.

Lemma ends_validated (options : InstallOptions) (continue : M world unit) :
  bad (inl (Error "Project validation failed")) ->
  ends I bad continue -> ends I bad (validated options continue).
Proof.
  intros Hbad Hcontinue. unfold validated.
  apply ends_bind; [apply ends_gets | intros validation].
  destruct (negb (isValid validation)).
  - apply ends_bind; [apply ends_log_error | intros _].
    apply ends_bind; [| intros _; by apply ends_throw].
    apply ends_for_each. intros error _. apply ends_log_error.
  - apply ends_bind.
    + destruct (nonempty (warnings validation)); [| apply ends_ret].
      apply ends_bind; [apply ends_log | intros _].
      apply ends_bind.
      * apply ends_for_each. intros warning _. apply ends_log.
      * intros _. destruct (_ && _); [apply ends_ask | apply ends_ret].
    + intros proceed. destruct (negb proceed); [apply ends_log |].
      apply ends_bind; [apply ends_log | intros _].
      apply ends_bind; [apply ends_gets | intros packageManager].
      apply ends_bind; [apply ends_log | intros _]. exact Hcontinue.
Qed.

Lemma ends_preview :
  (forall packages, ends I bad (getMissingPackages packages)) ->
  ends I bad preview_packages_scripts_files.
Proof.
  intros Hmissing. unfold preview_packages_scripts_files.
  apply ends_bind; [apply ends_log | intros _].
  apply ends_bind; [apply Hmissing | intros missingPackages].
  apply ends_bind; [apply Hmissing | intros missingDevPackages].
  apply ends_bind; [| intros _; apply ends_log_all].
  destruct (_ && _); [apply ends_log |].
  apply ends_bind; [| intros _]; apply ends_for_each; intros pkg _; apply ends_log.
Qed.

End ConsoleBlind.

(** ** Runs that stop before the [try] block *)
Section NoWrite.
Import Runs Effects.
Context `{Collaborators}.

Lemma same_disk_print (w0 : world) (e : event) (w : world) :
  same_disk w0 w -> same_disk w0 (print e w).
Proof. by intros (? & ? & ?). Qed.

Lemma same_disk_refl (w : world) : same_disk w w.
Proof. done. Qed.

Lemma unit_result_cases (r : result unit) (bad : exn + Z -> Prop) :
  (forall x, abnormal r = Some x -> bad x) ->
  r = Ok tt \/ (exists e, r = Throw e /\ bad (inl e))
  \/ (exists code, r = Exit code /\ bad (inr code)).
Proof.
  intros Hr. destruct r as [[]|e|code]; [by left | right; left | right; right].
  - exists e. split; [done | by apply Hr].
  - exists code. split; [done | by apply Hr].
Qed.

(** X13: a dry run changes no file and no directory and stays where it
    is, in both revisions of [installCommand], provided
    [PackageUtils.getMissingPackages] only reads; it never ends the
    process. *)
Theorem dry_run_changes_nothing (options : InstallOptions) (w w' : world)
    (r : result unit) :
  (forall packages, read_only (getMissingPackages packages)) ->
  dryRun options = true ->
  installCommand options w = (w', r) \/ installCommand_v2 options w = (w', r) ->
  cwd w' = cwd w /\ files w' = files w /\ dirs w' = dirs w /\
  forall code, r <> Exit code.
Proof.
  intros Hmissing Hdry Hrun.
  assert (ends (same_disk w) thrown (installCommand options) /\
          ends (same_disk w) thrown (installCommand_v2 options)) as [Hv1 Hv2].
  { pose proof (same_disk_print w) as Hprint.
    unfold installCommand, installCommand_v2. rewrite Hdry. split.
    - apply ends_bind; [by apply ends_log | intros _].
      apply ends_validated; [done | by eexists |].
      apply ends_bind; [by apply ends_log | intros _].
      unfold showDryRunPreview.
      apply ends_bind; [by apply ends_log | intros _].
      apply ends_bind; [by apply ends_log | intros _].
      apply ends_preview; [done | intros packages; apply Hmissing].
    - apply ends_bind; [apply ends_when; by apply ends_log | intros _].
      apply ends_validated; [done | by eexists |].
      apply ends_bind; [by apply ends_log | intros _].
      unfold showDryRunPreview_v2.
      apply ends_bind; [by apply ends_log | intros _].
      apply ends_bind; [by apply ends_log | intros _].
      apply ends_bind; [apply ends_gets | intros trixInstalled].
      apply ends_bind; [apply ends_when; by apply ends_log_all | intros _].
      apply ends_bind; [apply ends_when; by apply ends_log_all | intros _].
      apply ends_preview; [done | intros packages; apply Hmissing]. }
  assert (same_disk w w' /\ forall x, abnormal r = Some x -> thrown x)
    as [(Hc & Hf & Hd) Hr].
  { destruct Hrun as [Hrun | Hrun];
      [apply (Hv1 w w' r) | apply (Hv2 w w' r)]; done. }
  repeat split; try done. intros code ->. by destruct (Hr _ eq_refl).
Qed.

(** X14: when the final confirmation is declined, both revisions of
    [installCommand] change no file and no directory; the command returns
    normally, or throws the validation error when the project is not
    valid. *)
Theorem declined_install_changes_nothing (options : InstallOptions)
    (w w' : world) (r : result unit) :
  (forall w1, confirm ConfirmInstall w1 = false) ->
  dryRun options = false ->
  installCommand options w = (w', r) \/ installCommand_v2 options w = (w', r) ->
  cwd w' = cwd w /\ files w' = files w /\ dirs w' = dirs w /\
  (r = Ok tt \/ r = Throw (Error "Project validation failed")).
Proof.
  intros Hdecline Hdry Hrun.
  set (bad := fun x : exn + Z => x = inl (Error "Project validation failed")).
  assert (ends (same_disk w) bad (installCommand options) /\
          ends (same_disk w) bad (installCommand_v2 options)) as [Hv1 Hv2].
  { pose proof (same_disk_print w) as Hprint.
    unfold installCommand, installCommand_v2. rewrite Hdry. split.
    - apply ends_bind; [by apply ends_log | intros _].
      apply ends_validated; [done | done |].
      apply (ends_bind_gets _ _ _ false); [exact Hdecline |].
      by apply ends_log.
    - apply ends_bind; [apply ends_when; by apply ends_log | intros _].
      apply ends_validated; [done | done |].
      apply ends_bind.
      { destruct (negb (verbose options)); [| apply ends_ret].
        apply ends_bind; [apply ends_gets | intros trixInstalled].
        destruct (negb trixInstalled); [apply ends_gets |].
        apply ends_bind; [by apply ends_log | intros _]. apply ends_ret. }
      intros shouldInstallTrix. apply ends_bind.
      { destruct (negb (verbose options)); [| apply ends_ret].
        apply ends_bind; [apply ends_gets | intros currentTrixInstalled].
        destruct (_ || _); [apply ends_gets | apply ends_ret]. }
      intros includeDevnet.
      apply (ends_bind_gets _ _ _ false); [exact Hdecline |].
      by apply ends_log. }
  assert (same_disk w w' /\ forall x, abnormal r = Some x -> bad x)
    as [(Hc & Hf & Hd) Hr].
  { destruct Hrun as [Hrun | Hrun];
      [apply (Hv1 w w' r) | apply (Hv2 w w' r)]; done. }
  repeat split; try done.
  destruct (unit_result_cases r bad Hr) as [-> | [[e [-> He]] | [code [-> Hcode]]]].
  - by left.
  - right. unfold bad in He. congruence.
  - done.
Qed.

End NoWrite.

(** ** The rollback, whatever the state *)
Section RollbackTotal.
Import Runs Effects.
Context `{Collaborators}.

Lemma restoreFromBackup_total (backup : BackupEntry) (w : world) :
  exists w' r,
    restoreFromBackup backup w = (w', r) /\
    (forall code, r <> Exit code) /\
    cwd w' = cwd w /\ dirs w' = dirs w /\ console w' = console w /\
    (forall p, p <> resolve (cwd w) (originalPath backup) ->
       files w' !! p = files w !! p).
Proof.
  unfold restoreFromBackup. destruct (existedBefore backup).
  - rewrite bind_run. unfold readFile at 1.
    destruct (files w !! resolve (cwd w) (backupPath backup)) as [content|].
    + unfold writeFile. destruct (directoryExists (originalPath backup) w).
      * eexists _, _. split; [reflexivity |]. by repeat split.
      * eexists _, _. split; [reflexivity |]. repeat split; try done.
        intros p Hp. cbn. by rewrite lookup_insert_ne.
    + eexists _, _. split; [reflexivity |]. by repeat split.
  - rewrite bind_run. cbn [gets]. destruct (fileExists (originalPath backup) w).
    + eexists _, _. split; [reflexivity |]. repeat split; try done.
      intros p Hp. cbn. by rewrite lookup_delete_ne.
    + eexists _, _. split; [reflexivity |]. by repeat split.
Qed.

Lemma restore_body_total (backup : BackupEntry) (s : istate) :
  exists s',
    restore_body backup s = (s', Ok tt) /\
    backups s' = backups s /\
    cwd (iworld s') = cwd (iworld s) /\ dirs (iworld s') = dirs (iworld s) /\
    (forall p, p <> resolve (cwd (iworld s)) (originalPath backup) ->
       files (iworld s') !! p = files (iworld s) !! p) /\
    (console (iworld s') = console (iworld s) \/
     exists rollbackError,
       console (iworld s')
       = console (iworld s)
           ++ [LogError ("Failed to restore " +:+ originalPath backup +:+ ": "
                           +:+ exn_toString rollbackError)]).
Proof.
  destruct (restoreFromBackup_total backup (iworld s))
    as (w' & r & Hrun & Hback & Hc & Hd & Hcons & Hfiles).
  unfold restore_body. rewrite try_catch_run, lift_run, Hrun. cbn [fst snd].
  destruct r as [[]|e|code]; [| | by destruct (Hback code)].
  - eexists. split; [reflexivity |]. cbn. repeat split; try done. by left.
  - rewrite lift_run. cbn. eexists. split; [reflexivity |]. cbn.
    repeat split; try done. right. exists e. by rewrite Hcons.
Qed.

Lemma restore_loop_total (todo : list BackupEntry) (s : istate) :
  exists s' lines,
    for_each todo restore_body s = (s', Ok tt) /\
    backups s' = backups s /\
    cwd (iworld s') = cwd (iworld s) /\ dirs (iworld s') = dirs (iworld s) /\
    (forall p,
       (forall backup, backup ∈ todo ->
          p <> resolve (cwd (iworld s)) (originalPath backup)) ->
       files (iworld s') !! p = files (iworld s) !! p) /\
    console (iworld s') = console (iworld s) ++ lines /\
    Forall (restore_failure todo) lines.
Proof.
  revert s. induction todo as [|backup todo IH]; intros s.
  - exists s, []. cbn. repeat split; try done. by rewrite app_nil_r.
  - destruct (restore_body_total backup s)
      as (s1 & Hrun1 & Hb1 & Hc1 & Hd1 & Hf1 & Hcons1).
    destruct (IH s1) as (s2 & lines & Hrun2 & Hb2 & Hc2 & Hd2 & Hf2 & Hcons2 & Hlines).
    assert (Forall (restore_failure (backup :: todo)) lines) as Hlines'.
    { eapply Forall_impl; [exact Hlines |].
      intros e (b & err & Hb & ->). exists b, err. split; [by right | done]. }
    cbn [for_each]. rewrite bind_run, Hrun1.
    destruct Hcons1 as [Hsame | [err Hone]].
    + exists s2, lines. split; [exact Hrun2 |].
      rewrite Hb2, Hc2, Hd2, Hcons2, Hb1, Hc1, Hd1, Hsame.
      repeat split; try done.
      intros p Hp. rewrite Hf2, Hf1; [done | apply Hp; left |].
      intros b Hb. rewrite Hc1. apply Hp. by right.
    + exists s2, (LogError ("Failed to restore " +:+ originalPath backup +:+ ": "
                              +:+ exn_toString err) :: lines).
      split; [exact Hrun2 |].
      rewrite Hb2, Hc2, Hd2, Hcons2, Hb1, Hc1, Hd1, Hone, <- app_assoc.
      repeat split; try done.
      * intros p Hp. rewrite Hf2, Hf1; [done | apply Hp; left |].
        intros b Hb. rewrite Hc1. apply Hp. by right.
      * constructor; [| done]. exists backup, err. split; [left | done].
Qed.

Lemma restoreFromBackup_Ok (backup : BackupEntry) (w w' : world) :
  restoreFromBackup backup w = (w', Ok tt) -> restored backup w w'.
Proof.
  unfold restoreFromBackup, restored. destruct (existedBefore backup).
  - rewrite bind_run. unfold readFile at 1.
    destruct (files w !! resolve (cwd w) (backupPath backup)) as [content|];
      [| done].
    unfold writeFile. destruct (directoryExists (originalPath backup) w); [done |].
    intros [= <-]. exists content. split; [done |]. cbn.
    by rewrite lookup_insert_eq.
  - rewrite bind_run. cbn [gets].
    destruct (fileExists (originalPath backup) w) eqn:Hexists.
    + intros [= <-]. cbn. by rewrite lookup_delete_eq.
    + intros [= <-]. unfold fileExists in Hexists.
      apply bool_decide_eq_false in Hexists.
      destruct (files w !! resolve (cwd w) (originalPath backup)) eqn:Hfile;
        [| done].
      destruct Hexists. by eexists.
Qed.

Lemma restore_loop_trace (todo : list BackupEntry) (s : istate) :
  exists w' lines,
    for_each todo restore_body s = (IState w' (backups s), Ok tt) /\
    restores todo (iworld s) w' lines.
Proof.
  revert s. induction todo as [|backup todo IH]; intros s.
  - exists (iworld s), []. split; [by destruct s | constructor].
  - destruct (restoreFromBackup_total backup (iworld s))
      as (w1 & r & Hrun & Hback & _).
    cbn [for_each]. rewrite bind_run. unfold restore_body at 1.
    rewrite try_catch_run, lift_run, Hrun. cbn [fst snd].
    destruct r as [[]|e|code]; [| | by destruct (Hback code)].
    + destruct (IH (IState w1 (backups s))) as (w' & lines & Hloop & Hrest).
      exists w', lines. split; [exact Hloop |].
      by apply (restores_next backup todo (iworld s) w1 w' lines).
    + rewrite lift_run. cbn [log_error modify fst snd iworld backups].
      destruct (IH (IState (print (restore_failure_line backup e) w1) (backups s)))
        as (w' & lines & Hloop & Hrest).
      exists w', (restore_failure_line backup e :: lines).
      split; [exact Hloop |].
      by apply (restores_failed backup todo (iworld s) w1 w' e lines).
Qed.

Lemma restores_frame (todo : list BackupEntry) (w w' : world)
    (lines : list event) :
  restores todo w w' lines ->
  cwd w' = cwd w /\ dirs w' = dirs w /\
  (forall p,
     (forall backup, backup ∈ todo ->
        p <> resolve (cwd w) (originalPath backup)) ->
     files w' !! p = files w !! p) /\
  console w' = console w ++ lines /\
  Forall (restore_failure todo) lines.
Proof.
  induction 1 as [w | backup todo w w1 w' lines Hrun Hrest IH
                    | backup todo w w1 w' e lines Hrun Hrest IH].
  - repeat split; try done. by rewrite app_nil_r.
  - destruct (restoreFromBackup_total backup w)
      as (w2 & r & Hrun' & _ & Hc & Hd & Hcons & Hf).
    rewrite Hrun in Hrun'. injection Hrun' as <- <-.
    destruct IH as (Hc' & Hd' & Hf' & Hcons' & Hlines).
    rewrite Hc', Hd', Hcons', Hc, Hd, Hcons. repeat split; try done.
    + intros p Hp. rewrite Hf', Hf; [done | apply Hp; left |].
      intros b Hb. rewrite Hc. apply Hp. by right.
    + eapply Forall_impl; [exact Hlines |].
      intros line (b & err & Hb & ->). exists b, err. split; [by right | done].
  - destruct (restoreFromBackup_total backup w)
      as (w2 & r & Hrun' & _ & Hc & Hd & Hcons & Hf).
    rewrite Hrun in Hrun'. injection Hrun' as <- <-.
    destruct IH as (Hc' & Hd' & Hf' & Hcons' & Hlines). cbn in Hc', Hd', Hf', Hcons'.
    rewrite Hc', Hd', Hcons', Hc, Hd, Hcons, <- app_assoc.
    repeat split; try done.
    + intros p Hp. rewrite Hf', Hf; [done | apply Hp; left |].
      intros b Hb. rewrite Hc. apply Hp. by right.
    + constructor.
      * exists backup, e. split; [left | done].
      * eapply Forall_impl; [exact Hlines |].
        intros line (b & err & Hb & ->). exists b, err. split; [by right | done].
Qed.

Lemma separate_cons (c : path) (backup : BackupEntry) (todo : list BackupEntry) :
  separate c (backup :: todo) ->
  separate c todo /\
  (forall b, b ∈ todo ->
     resolve c (originalPath backup) <> resolve c (originalPath b)) /\
  (forall b, b ∈ backup :: todo ->
     resolve c (backupPath b) <> resolve c (originalPath backup)).
Proof.
  intros [Hnodup Hcopies]. cbn [map] in Hnodup.
  apply NoDup_cons in Hnodup as [Hfresh Hnodup].
  split; [split; [exact Hnodup |] |].
  - intros b b' Hb Hb'. apply Hcopies; by right.
  - split.
    + intros b Hb Heq. apply Hfresh. rewrite Heq.
      by apply (list_elem_of_fmap_2 (fun b => resolve c (originalPath b))).
    + intros b Hb. apply Hcopies; [exact Hb | left].
Qed.

Lemma restored_later (backup : BackupEntry) (w w1 w' : world) :
  cwd w1 = cwd w ->
  files w1 !! resolve (cwd w) (backupPath backup)
  = files w !! resolve (cwd w) (backupPath backup) ->
  restored backup w1 w' -> restored backup w w'.
Proof.
  unfold restored. intros Hc Hcopy. rewrite Hc.
  destruct (existedBefore backup); [| done].
  intros (content & Hread & Hwritten). exists content. by rewrite <- Hcopy.
Qed.

Lemma restored_kept (backup : BackupEntry) (w w1 w' : world) :
  cwd w1 = cwd w ->
  files w' !! resolve (cwd w) (originalPath backup)
  = files w1 !! resolve (cwd w) (originalPath backup) ->
  restored backup w w1 -> restored backup w w'.
Proof.
  unfold restored. intros Hc Hsame. rewrite Hsame. done.
Qed.

Lemma restores_each (todo : list BackupEntry) (w w' : world)
    (lines : list event) :
  restores todo w w' lines ->
  separate (cwd w) todo ->
  forall backup, backup ∈ todo ->
    reported backup lines \/ restored backup w w'.
Proof.
  induction 1 as [w | backup todo w w1 w' lines Hrun Hrest IH
                    | backup todo w w1 w' e lines Hrun Hrest IH];
    intros Hsep b Hb.
  - by apply elem_of_nil in Hb.
  - destruct (restoreFromBackup_total backup w)
      as (w2 & r & Hrun' & _ & Hc & _ & _ & Hf).
    rewrite Hrun in Hrun'. injection Hrun' as <- <-.
    destruct (separate_cons _ _ _ Hsep) as (Hsep' & Hfresh & Hcopies).
    destruct (restores_frame _ _ _ _ Hrest) as (Hc' & _ & Hf' & _).
    rewrite Hc in Hf'.
    apply elem_of_cons in Hb as [-> | Hb].
    + right.
      apply (restored_kept backup w w1 w' Hc); [| by apply restoreFromBackup_Ok].
      apply Hf'. exact Hfresh.
    + rewrite <- Hc in Hsep'. destruct (IH Hsep' b Hb) as [Hrep | Hres];
        [by left | right].
      apply (restored_later b w w1 w' Hc); [| exact Hres].
      apply Hf. apply Hcopies. by right.
  - destruct (restoreFromBackup_total backup w)
      as (w2 & r & Hrun' & _ & Hc & _ & _ & Hf).
    rewrite Hrun in Hrun'. injection Hrun' as <- <-.
    destruct (separate_cons _ _ _ Hsep) as (Hsep' & Hfresh & Hcopies).
    apply elem_of_cons in Hb as [-> | Hb].
    + left. exists e. left.
    + assert (separate (cwd (print (restore_failure_line backup e) w1)) todo)
        as Hsep1 by (cbn; by rewrite Hc).
      destruct (IH Hsep1 b Hb) as [[err Hrep] | Hres].
      * left. exists err. by right.
      * right.
        apply (restored_later b w (print (restore_failure_line backup e) w1) w');
          [exact Hc | | exact Hres].
        cbn. apply Hf. apply Hcopies. by right.
Qed.

(** X11: the [catch] block of [installCommand] always runs to its end, in
    any state and with any list of backups.  After its three lines the
    restores are run over the whole list, each from the state the one before
    left; one that throws adds its line to the console and the loop goes on
    with the next entry.  The command then prints that the rollback is
    completed and exits with status 1.  It changes no directory and no file
    other than the originals of the backups.  When the entries have distinct
    originals and no copy is an original, every entry is restored in the end
    or its failure was printed. *)
Theorem rollback_always_completes (verbose : bool) (error : exn) (s : istate) :
  let before :=
    print (Log "Rolling back changes...")
      (print (LogError ("Error: " +:+ exn_message error))
         (print (if verbose then Log "Installation failed"
                 else Spinner Fail "Installation failed")
            (iworld s))) in
  exists s' lines after,
    rollback verbose error s = (s', Exit 1) /\
    backups s' = backups s /\
    cwd (iworld s') = cwd (iworld s) /\ dirs (iworld s') = dirs (iworld s) /\
    (forall p,
       (forall backup, backup ∈ backups s ->
          p <> resolve (cwd (iworld s)) (originalPath backup)) ->
       files (iworld s') !! p = files (iworld s) !! p) /\
    console (iworld s')
    = console (iworld s)
        ++ [ if verbose then Log "Installation failed"
             else Spinner Fail "Installation failed";
             LogError ("Error: " +:+ exn_message error);
             Log "Rolling back changes..." ]
        ++ lines ++ [ Log "Rollback completed" ] /\
    Forall (restore_failure (backups s)) lines /\
    restores (backups s) before after lines /\
    iworld s' = print (Log "Rollback completed") after /\
    (separate (cwd (iworld s)) (backups s) ->
     forall backup, backup ∈ backups s ->
       reported backup lines \/ restored backup (iworld s) (iworld s')).
Proof.
  intros before.
  destruct (restore_loop_trace (backups s) (IState before (backups s)))
    as (after & lines & Hloop & Hrest).
  cbn [iworld backups] in Hloop, Hrest.
  destruct (restores_frame _ _ _ _ Hrest) as (Hc & Hd & Hf & Hcons & Hlines).
  exists (IState (print (Log "Rollback completed") after) (backups s)), lines, after.
  split; [| cbn [iworld backups]; repeat split; try done].
  - unfold rollback. rewrite bind_run, lift_run, progress_run. cbn [fst snd].
    rewrite bind_run, lift_run. cbn [fst snd log_error modify iworld backups].
    rewrite bind_run, lift_run. cbn [fst snd log modify iworld backups].
    rewrite bind_run. cbn [gets backups].
    rewrite bind_run.
    change (for_each (backups s) _ ?s1)
      with (for_each (backups s) restore_body (IState before (backups s))).
    rewrite Hloop.
    rewrite bind_run, lift_run. cbn [fst snd log modify]. reflexivity.
  - cbn. rewrite Hcons. cbn. by rewrite <- !app_assoc.
  - intros Hsep backup Hb.
    destruct (restores_each _ _ _ _ Hrest Hsep backup Hb) as [Hrep | Hres];
      [by left | right].
    unfold restored in *. cbn in Hres. cbn. exact Hres.
Qed.

End RollbackTotal.

(** ** The backup step *)
Section BackupFootprint.
Import Runs Effects.
Context `{Collaborators}.

Lemma original_outside_backups (c : path) (file : string) :
  file ∈ protected -> ~ (c ++ [backupDir]) `prefix_of` original c file.
Proof.
  intros Hin Hpre. unfold original in Hpre. apply prefix_app_inv in Hpre.
  apply prefix_cons_inv_1 in Hpre.
  apply protected_cases in Hin as [-> | ->]; done.
Qed.

Lemma backup_copy_inside (c : path) (file : string) :
  (c ++ [backupDir]) `prefix_of` backup_copy c file.
Proof.
  unfold backup_copy. apply prefix_app. exists [file]. done.
Qed.

Lemma footprint_print (w : world) (e : event) :
  ends (backup_footprint w) thrown (lift (modify (print e))).
Proof.
  intros s s' r HI [= <- <-]. split; [exact HI |]. intros x Hx. done.
Qed.

Lemma footprint_progress (w : world) (verbose : bool) (call : spinner_call)
    (text : string) :
  ends (backup_footprint w) thrown (lift (progress verbose call text)).
Proof. destruct verbose; apply footprint_print. Qed.

Lemma footprint_ensureBackupDir (w : world) :
  ends (backup_footprint w) thrown (lift ensureBackupDir).
Proof.
  intros s s' r (Hc & Hf & Hd & Hn & Hb) Hrun. rewrite lift_run in Hrun.
  unfold ensureBackupDir, createDirectory, mkdir_recursive in Hrun.
  destruct (bool_decide _); injection Hrun as <- <-; cbn.
  - split; [done |]. intros x [= <-]. by eexists.
  - split; [| intros x Hx; done].
    split; [done |]. split; [done |]. split; [| split; [| done]].
    + intros d Hin. apply elem_of_union. left. by apply Hd.
    + intros d [Hold | Hnew]%elem_of_union; [by apply Hn |].
      right. apply elem_of_list_to_set, elem_of_prefixes_of in Hnew.
      rewrite Hc in Hnew. exact Hnew.
Qed.

Lemma footprint_backup_body (w : world) (file : string) :
  file ∈ protected ->
  is_Some (files w !! original (cwd w) file) ->
  ends (backup_footprint w) thrown (backup_body file).
Proof.
  intros Hin [bytes Hbytes] s s' r (Hc & Hf & Hd & Hn & Hb) Hrun.
  assert (files (iworld s) !! resolve (cwd (iworld s)) file = Some bytes) as Hfile.
  { rewrite Hc, resolve_protected by done.
    rewrite Hf; [done | by apply original_outside_backups]. }
  unfold backup_body in Hrun. rewrite bind_run, lift_run in Hrun.
  rewrite (backupFile_run file _ bytes Hfile) in Hrun.
  destruct (directoryExists (backupPath (entry_of file)) (iworld s)) eqn:Hdir;
    cbn [fst snd push_backup modify iworld backups] in Hrun;
    injection Hrun as <- <-.
  - split; [done |]. intros x [= <-]. by eexists.
  - split; [| intros x Hx; done].
    change (backupDir +:+ "/" +:+ file) with (backupPath (entry_of file)).
    rewrite Hc, resolve_backupPath by done. cbn.
    split; [done |]. split; [| split; [done |]; split; [done |]].
    + intros p Hp. cbn. rewrite lookup_insert_ne; [by apply Hf |].
      intros <-. apply Hp, backup_copy_inside.
    + cbn. intros b [Hold | ->%list_elem_of_singleton]%elem_of_app.
      * destruct (Hb b Hold) as (g & Hg & -> & Hsome & Hcopy).
        exists g. repeat (split; [done |]).
        destruct (decide (g = file)) as [-> | Hne].
        -- by rewrite lookup_insert_eq.
        -- rewrite lookup_insert_ne; [done |].
           intros Heq%backup_copy_inj. done.
      * exists file. repeat (split; [done || by eexists |]).
        by rewrite lookup_insert_eq.
Qed.

Lemma footprint_start (w : world) : backup_footprint w (IState w []).
Proof.
  repeat split; try done; [by left |].
  intros b Hb. by apply elem_of_nil in Hb.
Qed.

(** X10: the backup step of [installCommand] writes inside the backup
    directory only: every other file is as before, no directory is removed
    and none is made but the backup directory.  Every entry it records is
    that of [package.json] or [tsconfig.json], for a file that existed, with
    [existedBefore] set and the bytes of the file in its copy; so no entry
    ever asks the rollback to delete a file.  It never ends the process. *)
Theorem take_backups_footprint (verbose : bool) (w : world) (s' : istate)
    (r : result unit) :
  take_backups verbose (IState w []) = (s', r) ->
  (forall code, r <> Exit code) /\
  cwd (iworld s') = cwd w /\
  (forall p, ~ (cwd w ++ [backupDir]) `prefix_of` p ->
     files (iworld s') !! p = files w !! p) /\
  (forall d, d ∈ dirs w -> d ∈ dirs (iworld s')) /\
  (forall d, d ∈ dirs (iworld s') ->
     d ∈ dirs w \/ d `prefix_of` (cwd w ++ [backupDir])) /\
  (forall b, b ∈ backups s' ->
     existedBefore b = true /\
     originalPath b ∈ protected /\
     backupPath b = backupDir +:+ "/" +:+ originalPath b /\
     is_Some (files w !! original (cwd w) (originalPath b)) /\
     files (iworld s') !! backup_copy (cwd w) (originalPath b)
     = files w !! original (cwd w) (originalPath b)).
Proof.
  intros Hrun.
  assert (ends (backup_footprint w) thrown (take_backups verbose)) as Hends.
  { unfold take_backups.
    apply ends_bind; [apply footprint_progress | intros _].
    apply ends_bind; [apply footprint_ensureBackupDir | intros _].
    intros s s1 r1 HI Hrun1. rewrite bind_run, lift_run in Hrun1.
    cbn [gets fst snd] in Hrun1. revert Hrun1.
    set (todo := List.filter _ _).
    assert (IState (iworld s) (backups s) = s) as -> by (by destruct s).
    apply ends_bind; [| intros _; apply footprint_progress | exact HI].
    apply ends_for_each. intros file Hfile.
    apply list_elem_of_In, filter_In in Hfile as [Hin Hexists].
    apply list_elem_of_In in Hin. fold protected in Hin.
    apply footprint_backup_body; [done |].
    destruct HI as (Hc & Hf & _). unfold fileExists in Hexists.
    apply bool_decide_eq_true in Hexists.
    rewrite Hc, resolve_protected, Hf in Hexists;
      [done | by apply original_outside_backups | done]. }
  destruct (Hends (IState w []) s' r (footprint_start w) Hrun)
    as [(Hc & Hf & Hd & Hn & Hb) Hr].
  split; [intros code ->; by destruct (Hr _ eq_refl) |].
  repeat (split; [done |]).
  intros b Hin. destruct (Hb b Hin) as (file & Hprot & -> & Hsome & Hcopy).
  by repeat split.
Qed.

End BackupFootprint.

(** ** The TX3 files *)
Section Tx3Files.
Import Runs Effects.
Context `{Collaborators}.

Lemma mkdir_recursive_run (p : string) (w : world) :
  mkdir_recursive p w =
  if bool_decide (is_Some (files w !! resolve (cwd w) p)) then
    (w, Throw (Error ("EEXIST: file already exists, mkdir " +:+ p)))
  else
    (set_dirs (dirs w ∪ list_to_set (prefixes_of (resolve (cwd w) p))) w, Ok tt).
Proof. reflexivity. Qed.

Lemma writeFile_run (p content : string) (w : world) :
  writeFile p content w =
  if bool_decide (resolve (cwd w) p ∈ dirs w) then
    (w, Throw (Error ("EISDIR: illegal operation on a directory, open " +:+ p)))
  else (set_files (<[resolve (cwd w) p := content]> (files w)) w, Ok tt).
Proof. reflexivity. Qed.

(** What a successful [createTx3Files] has done. *)
Lemma createTx3Files_Ok (w w' : world) :
  createTx3Files w = (w', Ok tt) ->
  let c := cwd w in
  w' = World c
         (<[resolve c "scripts/generate-tx3.mjs" := generateScriptTemplate]>
            (<[resolve c "tx3/main.tx3" := mainTx3Template]>
               (<[resolve c "tx3/trix.toml" := trixTomlTemplate]> (files w))))
         (dirs w ∪ list_to_set (prefixes_of (resolve c "tx3"))
            ∪ list_to_set (prefixes_of (resolve c "scripts")))
         (console w) /\
  files w !! resolve c "tx3" = None /\
  files w !! resolve c "scripts" = None /\
  (resolve c "tx3/trix.toml" ∉ dirs w') /\
  (resolve c "tx3/main.tx3" ∉ dirs w') /\
  (resolve c "scripts/generate-tx3.mjs" ∉ dirs w').
Proof.
  intros Hrun c. unfold createTx3Files, createDirectory in Hrun.
  rewrite bind_run, mkdir_recursive_run in Hrun.
  destruct (bool_decide (is_Some (files w !! resolve (cwd w) "tx3"))) eqn:H1;
    [done |].
  rewrite bind_run, mkdir_recursive_run in Hrun.
  cbn [cwd files dirs set_dirs] in Hrun.
  destruct (bool_decide (is_Some (files w !! resolve (cwd w) "scripts"))) eqn:H2;
    [done |].
  rewrite bind_run, writeFile_run in Hrun.
  cbn [cwd files dirs set_dirs set_files] in Hrun.
  destruct (bool_decide (resolve (cwd w) "tx3/trix.toml" ∈ _)) eqn:H3; [done |].
  rewrite bind_run, writeFile_run in Hrun.
  cbn [cwd files dirs set_dirs set_files] in Hrun.
  destruct (bool_decide (resolve (cwd w) "tx3/main.tx3" ∈ _)) eqn:H4; [done |].
  rewrite writeFile_run in Hrun.
  cbn [cwd files dirs set_dirs set_files] in Hrun.
  destruct (bool_decide (resolve (cwd w) "scripts/generate-tx3.mjs" ∈ _)) eqn:H5;
    [done |].
  injection Hrun as <-.
  apply bool_decide_eq_false in H1, H2, H3, H4, H5.
  split; [reflexivity |].
  split; [by apply eq_None_not_Some |].
  split; [by apply eq_None_not_Some |]. done.
Qed.


Lemma resolve_tx3 (c : path) :
  resolve c "tx3" = c ++ ["tx3"] /\
  resolve c "scripts" = c ++ ["scripts"] /\
  resolve c "tx3/trix.toml" = c ++ ["tx3"; "trix.toml"] /\
  resolve c "tx3/main.tx3" = c ++ ["tx3"; "main.tx3"] /\
  resolve c "scripts/generate-tx3.mjs" = c ++ ["scripts"; "generate-tx3.mjs"].
Proof.
  repeat split; try reflexivity.
  - change (resolve c "tx3/trix.toml") with ((c ++ ["tx3"]) ++ ["trix.toml"]).
    by rewrite <- app_assoc.
  - change (resolve c "tx3/main.tx3") with ((c ++ ["tx3"]) ++ ["main.tx3"]).
    by rewrite <- app_assoc.
  - change (resolve c "scripts/generate-tx3.mjs")
      with ((c ++ ["scripts"]) ++ ["generate-tx3.mjs"]).
    by rewrite <- app_assoc.
Qed.

Lemma app_tail_ne (c s1 s2 : path) : s1 <> s2 -> c ++ s1 <> c ++ s2.
Proof. intros Hne Heq. by apply app_inv_head in Heq. Qed.

(** The three files and the two directories after a successful
    [createTx3Files]. *)
Lemma createTx3Files_made (w w' : world) :
  createTx3Files w = (w', Ok tt) ->
  cwd w' = cwd w /\
  files w' !! resolve (cwd w) "tx3/trix.toml" = Some trixTomlTemplate /\
  files w' !! resolve (cwd w) "tx3/main.tx3" = Some mainTx3Template /\
  files w' !! resolve (cwd w) "scripts/generate-tx3.mjs"
  = Some generateScriptTemplate /\
  resolve (cwd w) "tx3" ∈ dirs w' /\ resolve (cwd w) "scripts" ∈ dirs w'.
Proof.
  intros Hrun. apply createTx3Files_Ok in Hrun as (-> & _).
  destruct (resolve_tx3 (cwd w)) as (Ht & Hs & Ha & Hb & Hg).
  rewrite Ht, Hs, Ha, Hb, Hg. cbn [files dirs cwd console].
  split; [done |]. split; [| split; [| split; [| split]]].
  - rewrite lookup_insert_ne by (by apply app_tail_ne).
    rewrite lookup_insert_ne by (by apply app_tail_ne).
    by rewrite lookup_insert_eq.
  - rewrite lookup_insert_ne by (by apply app_tail_ne).
    by rewrite lookup_insert_eq.
  - by rewrite lookup_insert_eq.
  - apply elem_of_union. left. apply elem_of_union. right.
    apply elem_of_list_to_set, elem_of_prefixes_of. done.
  - apply elem_of_union. right.
    apply elem_of_list_to_set, elem_of_prefixes_of. done.
Qed.

(** X8: when [createTx3Files] succeeds, the three files hold their
    templates, whatever they held before, both directories exist, every
    other file is as it was and no directory is gone. *)
Theorem createTx3Files_writes_templates (w w' : world) :
  createTx3Files w = (w', Ok tt) ->
  let c := cwd w in
  files w' !! resolve c "tx3/trix.toml" = Some trixTomlTemplate /\
  files w' !! resolve c "tx3/main.tx3" = Some mainTx3Template /\
  files w' !! resolve c "scripts/generate-tx3.mjs" = Some generateScriptTemplate /\
  (forall p,
     p <> resolve c "tx3/trix.toml" -> p <> resolve c "tx3/main.tx3" ->
     p <> resolve c "scripts/generate-tx3.mjs" ->
     files w' !! p = files w !! p) /\
  resolve c "tx3" ∈ dirs w' /\ resolve c "scripts" ∈ dirs w' /\
  (forall d, d ∈ dirs w -> d ∈ dirs w') /\
  cwd w' = c /\ console w' = console w.
Proof.
  intros Hrun c.
  destruct (createTx3Files_made w w' Hrun) as (Hc & Ha & Hb & Hg & Ht & Hs).
  destruct (createTx3Files_Ok w w' Hrun) as (Hw' & _). fold c in Hw'.
  split; [exact Ha |]. split; [exact Hb |]. split; [exact Hg |].
  split; [| split; [exact Ht |]; split; [exact Hs |]; split; [| split; [exact Hc |]]].
  - intros p Hpa Hpb Hpg. rewrite Hw'. cbn [files].
    by rewrite !lookup_insert_ne.
  - intros d Hd. rewrite Hw'. cbn [dirs].
    apply elem_of_union. left. apply elem_of_union. by left.
  - by rewrite Hw'.
Qed.

(** X9: [createTx3Files] can be run again: after a successful run a second
    one succeeds and changes nothing. *)
Theorem createTx3Files_idempotent (w w' : world) :
  createTx3Files w = (w', Ok tt) -> createTx3Files w' = (w', Ok tt).
Proof.
  intros Hrun. apply createTx3Files_Ok in Hrun as (-> & Ht0 & Hs0 & Ha0 & Hb0 & Hg0).
  set (c := cwd w) in *.
  destruct (resolve_tx3 c) as (Ht & Hs & Ha & Hb & Hg).
  rewrite Ht, Hs, Ha, Hb, Hg in *.
  set (fs := <[c ++ ["scripts"; "generate-tx3.mjs"] := generateScriptTemplate]> _) in *.
  set (ds := _ ∪ _) in *.
  assert (fs !! (c ++ ["tx3"]) = None) as Ht1.
  { subst fs. by rewrite !lookup_insert_ne by (by apply app_tail_ne). }
  assert (fs !! (c ++ ["scripts"]) = None) as Hs1.
  { subst fs. by rewrite !lookup_insert_ne by (by apply app_tail_ne). }
  assert (ds ∪ list_to_set (prefixes_of (c ++ ["tx3"])) = ds) as Hd1.
  { apply set_eq. intros d. subst ds. rewrite !elem_of_union. tauto. }
  assert (ds ∪ list_to_set (prefixes_of (c ++ ["scripts"])) = ds) as Hd2.
  { apply set_eq. intros d. subst ds. rewrite !elem_of_union. tauto. }
  assert (<[c ++ ["tx3"; "trix.toml"] := trixTomlTemplate]> fs = fs) as Hf1.
  { apply insert_id. subst fs.
    rewrite !lookup_insert_ne by (by apply app_tail_ne). by rewrite lookup_insert_eq. }
  assert (<[c ++ ["tx3"; "main.tx3"] := mainTx3Template]> fs = fs) as Hf2.
  { apply insert_id. subst fs.
    rewrite !lookup_insert_ne by (by apply app_tail_ne). by rewrite lookup_insert_eq. }
  assert (<[c ++ ["scripts"; "generate-tx3.mjs"] := generateScriptTemplate]> fs = fs)
    as Hf3.
  { apply insert_id. subst fs. by rewrite lookup_insert_eq. }
  unfold createTx3Files, createDirectory.
  rewrite bind_run, mkdir_recursive_run. cbn [cwd files dirs]. fold c.
  rewrite Ht, Ht1, bool_decide_eq_false_2 by (by intros [? ?]).
  rewrite bind_run, mkdir_recursive_run. cbn [cwd files dirs set_dirs]. fold c.
  rewrite Hs, Hs1, bool_decide_eq_false_2 by (by intros [? ?]).
  rewrite Hd1, Hd2.
  rewrite bind_run, writeFile_run. cbn [cwd files dirs set_dirs set_files]. fold c.
  rewrite Ha, bool_decide_eq_false_2 by done. rewrite Hf1.
  rewrite bind_run, writeFile_run. cbn [cwd files dirs set_dirs set_files]. fold c.
  rewrite Hb, bool_decide_eq_false_2 by done. rewrite Hf2.
  rewrite writeFile_run. cbn [cwd files dirs set_dirs set_files]. fold c.
  rewrite Hg, bool_decide_eq_false_2 by done. rewrite Hf3.
  reflexivity.
Qed.

End Tx3Files.

(** ** A run that completes *)
Section Inversion.
Context {S : Type}.

Lemma bind_Ok_inv {A B} (m : M S A) (f : A -> M S B) (s s' : S) (b : B) :
  (m ≫= f) s = (s', Ok b) ->
  exists s1 a, m s = (s1, Ok a) /\ f a s1 = (s', Ok b).
Proof.
  rewrite bind_run. destruct (m s) as [s1 [a|e|code]]; [| done | done].
  intros Hf. by exists s1, a.
Qed.

Lemma try_catch_Ok_inv {A} (m : M S A) (h : exn -> M S A) (s s' : S) (a : A) :
  try_catch m h s = (s', Ok a) ->
  m s = (s', Ok a) \/ exists s1 e, m s = (s1, Throw e) /\ h e s1 = (s', Ok a).
Proof.
  rewrite try_catch_run. destruct (m s) as [s1 [a'|e|code]]; [| | done].
  - intros [= <- <-]. by left.
  - intros Hh. right. by exists s1, e.
Qed.

End Inversion.

Section Success.
Import Runs Effects.
Context `{Collaborators}.

Lemma lift_Ok_inv {A} (m : M world A) (s s' : istate) (a : A) :
  lift m s = (s', Ok a) ->
  m (iworld s) = (iworld s', Ok a) /\ backups s' = backups s.
Proof.
  rewrite lift_run. destruct (m (iworld s)) as [w' r]. cbn.
  by intros [= <- ->].
Qed.

Lemma rollback_exits (verbose : bool) (error : exn) (s : istate) :
  exists s', rollback verbose error s = (s', Exit 1).
Proof.
  unfold rollback. rewrite bind_run, lift_run, progress_run. cbn [fst snd].
  rewrite bind_run, lift_run. cbn [fst snd log_error modify iworld backups].
  rewrite bind_run, lift_run. cbn [fst snd log modify iworld backups].
  rewrite bind_run. cbn [gets backups].
  rewrite bind_run.
  match goal with |- context [for_each (backups s) _ ?s0] =>
    destruct (restore_loop_total (backups s) s0) as (s1 & lines & Hloop & _);
    change (for_each (backups s) _ s0) with (for_each (backups s) restore_body s0)
  end.
  rewrite Hloop.
  rewrite bind_run, lift_run. cbn [fst snd log modify]. by eexists.
Qed.

(** X12: when the [try] block of [installCommand] completes, the three TX3
    files are in the working directory with their templates, the two
    directories exist, and the last lines printed are those of the
    completion: nothing after [createTx3Files] touches them. *)
Theorem completed_install_has_tx3_files (w w' : world) :
  install_try w = (w', Ok tt) ->
  files w' !! resolve (cwd w') "tx3/trix.toml" = Some trixTomlTemplate /\
  files w' !! resolve (cwd w') "tx3/main.tx3" = Some mainTx3Template /\
  files w' !! resolve (cwd w') "scripts/generate-tx3.mjs"
  = Some generateScriptTemplate /\
  directoryExists "tx3" w' = true /\
  directoryExists "scripts" w' = true /\
  exists before, console w' = before ++ completed_lines.
Proof.
  unfold install_try, with_backups. intros Hrun.
  destruct (try_catch _ _ (IState w [])) as [s' r] eqn:Htry.
  injection Hrun as <- ->.
  apply try_catch_Ok_inv in Htry as [Hbody | (s1 & e & _ & Hroll)]; cycle 1.
  { destruct (rollback_exits false e s1) as [s2 Hexit]. congruence. }
  apply bind_Ok_inv in Hbody as (s5 & [] & Hsteps & Hdone).
  apply lift_Ok_inv in Hdone as [Hdone _].
  rewrite install_completed_run in Hdone. injection Hdone as Hw'.
  unfold backup_and_mutate in Hsteps.
  apply bind_Ok_inv in Hsteps as (s1 & [] & _ & Hsteps).
  apply bind_Ok_inv in Hsteps as (s2 & [] & _ & Hsteps).
  apply bind_Ok_inv in Hsteps as (s3 & [] & _ & Hsteps).
  apply bind_Ok_inv in Hsteps as (s4 & [] & _ & Hcreate).
  unfold create_files in Hcreate.
  apply bind_Ok_inv in Hcreate as (sa & [] & _ & Hcreate).
  apply bind_Ok_inv in Hcreate as (sb & [] & Hfiles & Hlast).
  apply lift_Ok_inv in Hfiles as [Hfiles _].
  apply lift_Ok_inv in Hlast as [Hlast _].
  rewrite progress_run in Hlast. injection Hlast as Hs5.
  apply createTx3Files_made in Hfiles as (Hc & Ha & Hb & Hg & Ht & Hs).
  rewrite <- Hw', <- Hs5. cbn [cwd files dirs console print].
  unfold directoryExists. cbn [cwd dirs]. rewrite Hc.
  repeat (split; [done || by apply bool_decide_eq_true |]).
  by eexists.
Qed.

End Success.

(** ** [initCommand] before the [try] block *)
Section InitNoWrite.
Import Runs Effects.
Context `{Collaborators}.

Lemma ends_init_checked (I : world -> Prop) (bad : exn + Z -> Prop)
    (options : InitOptions) (preview create : string -> M world unit) :
  (forall e w, I w -> I (print e w)) ->
  bad (inr 1) ->
  (forall name, ends I bad (preview name)) ->
  init_dryRun options = true \/ (forall w, confirm ConfirmInit w = false) ->
  ends I bad (init_checked options preview create).
Proof.
  intros Hprint Hbad Hpreview Hstop. unfold init_checked.
  apply ends_bind; [by apply ends_log | intros _].
  apply ends_bind.
  { destruct (projectName options) as [[|c name]|];
      [apply ends_gets | apply ends_ret | apply ends_gets]. }
  intros name. apply ends_bind; [apply ends_gets | intros exists_].
  destruct exists_.
  { apply ends_bind; [by apply ends_log_error | intros _]. by apply ends_exit. }
  destruct (init_dryRun options) eqn:Hdry.
  { apply ends_bind; [by apply ends_log | intros _]. apply Hpreview. }
  destruct Hstop as [Hstop | Hdecline]; [done |].
  apply (ends_bind_gets _ _ _ false); [exact Hdecline |]. by apply ends_log.
Qed.

(** X16: [initCommand], in both revisions, changes no file and no directory
    on a dry run or when the confirmation is declined; it returns normally,
    or exits with status 1 when the directory is already there. *)
Theorem init_without_go_ahead_changes_nothing (options : InitOptions)
    (w w' : world) (r : result unit) :
  init_dryRun options = true \/ (forall w1, confirm ConfirmInit w1 = false) ->
  initCommand options w = (w', r) \/ initCommand_v2 options w = (w', r) ->
  cwd w' = cwd w /\ files w' = files w /\ dirs w' = dirs w /\
  (r = Ok tt \/ r = Exit 1).
Proof.
  intros Hstop Hrun.
  set (bad := fun x : exn + Z => x = inr 1).
  pose proof (same_disk_print w) as Hprint.
  assert (same_disk w w' /\ forall x, abnormal r = Some x -> bad x)
    as [(Hc & Hf & Hd) Hr].
  { destruct Hrun as [Hrun | Hrun].
    - eapply (ends_init_checked (same_disk w) bad options); try done.
      intros name. by apply ends_log_all.
    - eapply (ends_init_checked (same_disk w) bad options); try done.
      intros name. by apply ends_log_all. }
  repeat split; try done.
  destruct (unit_result_cases r bad Hr) as [-> | [[e [-> He]] | [code [-> Hcode]]]].
  - by left.
  - done.
  - right. unfold bad in Hcode. congruence.
Qed.

End InitNoWrite.

(** ** How the commands end *)
Section ComesBack.
Import Runs Effects.
Context `{Collaborators}.














Context `{!WellBehaved}.







Section Generator.
Context (Hexec : forall command dir w1 w2 r1,
           execSync command dir w1 = (w2, r1) -> forall code, r1 <> Exit code).





End Generator.


End ComesBack.

(** ** The cleanup of [initCommand] *)
Section InitCleanup.
Import Runs Effects.
Context `{Collaborators}.

(** X17: when the project generator fails, before the change of directory,
    [initCommand] removes the directory it made: no file and no directory at
    or below it is left, the working directory is the one it was started in
    and the command exits with status 1.  The generator is taken not to
    change the working directory and not to remove directories; the name is
    that of no file or directory yet. *)
Theorem init_removes_directory_when_generator_fails (options : InitOptions)
    (name : string) (w w' : world) (r : result unit) :
  projectName options = Some name ->
  name <> EmptyString ->
  init_dryRun options = false ->
  (forall w1, confirm ConfirmInit w1 = true) ->
  (forall w1, exists w2 e,
     execSync shadcn_command (Some name) w1 = (w2, Throw e) /\
     cwd w2 = cwd w1 /\ forall d, d ∈ dirs w1 -> d ∈ dirs w2) ->
  directoryExists name w = false ->
  fileExists name w = false ->
  initCommand options w = (w', r) ->
  r = Exit 1 /\ cwd w' = cwd w /\
  forall p, resolve (cwd w) name `prefix_of` p ->
    files w' !! p = None /\ p ∉ dirs w'.
Proof.
  intros Hname Hne Hdry Hconfirm Hgen Hnodir Hnofile.
  unfold initCommand, init_checked.
  rewrite bind_run. cbn [log modify]. rewrite Hname.
  destruct name as [|c0 name0] eqn:Hn; [done |]. rewrite <- Hn in *. clear Hne.
  rewrite bind_run. cbn [mret M_ret]. rewrite bind_run. cbn [gets].
  set (w0 := print (Log "Initializing new Next.js project with TX3...") w).
  change (directoryExists name w0) with (directoryExists name w).
  rewrite Hnodir, Hdry. rewrite bind_run. unfold ask. cbn [gets].
  rewrite Hconfirm. cbn [negb].
  rewrite try_catch_run, bind_run. cbn [spinner modify].
  rewrite bind_run. unfold initializeShadcnProject at 1.
  rewrite try_catch_run, bind_run, mkdir_recursive_run.
  set (w1 := print (Spinner Start "Creating Next.js project with shadcn/ui...") w0).
  change (files w1) with (files w). change (cwd w1) with (cwd w).
  unfold fileExists in Hnofile. rewrite Hnofile.
  rewrite bind_run. cbn [log modify].
  match goal with |- context [execSync shadcn_command (Some name) ?w2] =>
    destruct (Hgen w2) as (wg & e & Hexec & Hcwd & Hdirs); rewrite Hexec
  end.
  cbn [throw]. unfold init_failed.
  rewrite bind_run. cbn [spinner modify].
  rewrite bind_run. cbn [log_error modify].
  rewrite bind_run, try_catch_run, bind_run. cbn [gets].
  set (wf := print _ (print _ wg)).
  assert (directoryExists name wf = true) as Hexists.
  { unfold directoryExists. apply bool_decide_eq_true.
    change (cwd wf) with (cwd wg). change (dirs wf) with (dirs wg).
    rewrite Hcwd. apply Hdirs. cbn. apply elem_of_union. right.
    apply elem_of_list_to_set, elem_of_prefixes_of. done. }
  rewrite Hexists, Hn. cbn [String.eqb negb andb when]. rewrite <- Hn.
  unfold log, modify, removeDirectory, process_exit, mbind, M_bind.
  intros [= <- <-]. split; [done |]. cbn [cwd files dirs print].
  rewrite Hcwd. cbn [cwd]. split; [done |].
  intros p Hp. split.
  - apply map_lookup_filter_None. right. intros x _ Hnot. by apply Hnot.
  - intros [Hnot _]%elem_of_filter. by apply Hnot.
Qed.

End InitCleanup.

(** ** The project name *)
Section ProjectNames.
Import ProjectName.

Lemma strip_white_space_first (c : ascii) (s rest : string) :
  strip_white_space (String c s) = Some rest -> name_char c = false.
Proof.
  unfold strip_white_space. intros Hstrip.
  destruct (List.find _ white_space) as [p|] eqn:Hfind; [| done].
  apply find_some in Hfind as [Hin Hp].
  assert (forallb
            (fun p => match p with
                      | EmptyString => false
                      | String a _ => negb (name_char a)
                      end) white_space = true) as Hall
    by (vm_compute; reflexivity).
  rewrite forallb_forall in Hall. apply Hall in Hin.
  destruct p as [|a p]; [done |]. cbn [startsWith] in Hp.
  destruct (Ascii.eqb_spec a c) as [<- | Hne]; [| done].
  by apply negb_true_iff.
Qed.

Lemma blank_not_name (n : nat) (input : string) :
  blank_within n input = true -> test_name input = false.
Proof.
  destruct input as [|c s]; [done |]. destruct n as [|n]; [done |].
  cbn [blank_within]. destruct (strip_white_space (String c s)) as [rest|] eqn:Hs;
    [| done].
  intros _. apply strip_white_space_first in Hs.
  unfold test_name. cbn [all_name_chars]. rewrite Hs. by rewrite andb_false_r.
Qed.

Lemma validate_Accepted_inv (input : string) :
  validate input = Accepted ->
  input <> EmptyString /\ all_name_chars input = true.
Proof.
  unfold validate. destruct (blank input); [done |].
  unfold test_name. destruct (String.eqb_spec input EmptyString) as [-> | Hne];
    [done |].
  cbn [negb andb]. by destruct (all_name_chars input).
Qed.

(** X20: the prompt accepts a project name exactly when it is not empty
    and made of ASCII letters, digits, hyphens and underscores; the test for
    blank input decides the message only. *)
Theorem validate_accepts_plain_names (input : string) :
  validate input = Accepted <->
  input <> EmptyString /\ all_name_chars input = true.
Proof.
  split; [apply validate_Accepted_inv |]. intros [Hne Hall].
  assert (test_name input = true) as Htest.
  { unfold test_name. rewrite Hall, andb_true_r. apply negb_true_iff.
    by apply String.eqb_neq. }
  unfold validate. destruct (blank input) eqn:Hblank.
  - apply blank_not_name in Hblank. congruence.
  - by rewrite Htest.
Qed.

(** The two messages: blank input, also of no-break spaces, is told that a
    name is required; any other refused input is told what a name may
    contain. *)
Lemma validate_messages :
  validate EmptyString = Refused "Project name is required" /\
  validate (" " +:+ bytes [194; 160; 9]%nat) = Refused "Project name is required" /\
  validate "my app"
  = Refused "Project name can only contain letters, numbers, hyphens, and underscores" /\
  validate "../up"
  = Refused "Project name can only contain letters, numbers, hyphens, and underscores" /\
  validate "My-App_2" = Accepted.
Proof. repeat split; vm_compute; reflexivity. Qed.

Lemma name_char_not_special (c : ascii) :
  name_char c = true -> c <> "/"%char /\ c <> "."%char.
Proof.
  intros Hc. split; intros ->; vm_compute in Hc; discriminate Hc.
Qed.

Lemma split_name (s : string) :
  all_name_chars s = true -> split "/" s = [s].
Proof.
  induction s as [|c s IH]; [done |]. cbn [all_name_chars split].
  intros [Hc Hs]%andb_true_iff. rewrite IH by done.
  apply name_char_not_special in Hc as [Hslash _].
  by destruct (Ascii.eqb_spec c "/").
Qed.

(** X21: a name accepted at the prompt names a direct child of the working
    directory: it has no separator and is neither [.] nor [..]. *)
Theorem validate_accepted_names_resolve (input : string) (c : path) :
  validate input = Accepted -> resolve c input = c ++ [input].
Proof.
  intros [Hne Hall]%validate_Accepted_inv.
  unfold resolve. rewrite split_name by done.
  destruct input as [|a s]; [done |].
  cbn [all_name_chars] in Hall. apply andb_true_iff in Hall as [Ha Hs].
  apply name_char_not_special in Ha as [Hslash Hdot].
  cbn [startsWith].
  destruct (Ascii.eqb_spec "/" a) as [<- | _]; [done |].
  cbn [fold_left]. unfold push_segment.
  assert (String.eqb (String a s) "" = false) as -> by done.
  assert (String.eqb (String a s) "." = false) as ->.
  { apply String.eqb_neq. congruence. }
  assert (String.eqb (String a s) ".." = false) as ->.
  { apply String.eqb_neq. congruence. }
  done.
Qed.

End ProjectNames.

(** ** What is never asked, and never run *)
Section NeverAsked.
Import Scenarios.

(** X15: with [force] set, the question about TX3 files that are already
    there is not asked: whatever the answer to it would be, both revisions
    of [installCommand] run the same. *)
Theorem force_skips_the_question (C : Collaborators) (answer : world -> bool)
    (options : InstallOptions) :
  force options = true ->
  @installCommand (with_answers C (proceed_answer C answer)) options
  = @installCommand C options /\
  @installCommand_v2 (with_answers C (proceed_answer C answer)) options
  = @installCommand_v2 C options.
Proof.
  destruct options as [d f fr v]. cbn [force]. intros ->.
  split; reflexivity.
Qed.

(** X19: with [verbose] set and no dry run, the revision of [installCommand]
    that has the trix and devnet steps runs neither of them, and does not
    look whether trix is installed: with any other installer, bundle and
    check it runs the same.  [initCommand] of that revision calls it so, and
    is as independent of them. *)
Theorem verbose_install_never_runs_trix_or_devnet (C : Collaborators)
    (check : world -> bool) (install : bool -> M world unit)
    (copy : string -> M world unit) (options : InstallOptions) :
  verbose options = true ->
  dryRun options = false ->
  @installCommand_v2 (with_tools C check install copy) options
  = @installCommand_v2 C options /\
  forall init_options,
    @initCommand_v2 (with_tools C check install copy) init_options
    = @initCommand_v2 C init_options.
Proof.
  destruct options as [d f fr v]. cbn [verbose dryRun]. intros -> ->.
  split; [reflexivity |]. intros init_options. reflexivity.
Qed.

Lemma verbose_install_never_runs_trix_or_devnet_witness :
  let options := {| dryRun := false; force := true; fresh := true;
                    verbose := true |} in
  let C := Sample.collaborators Sample.all_fine in
  @installCommand_v2
    (with_tools C (fun _ => true) (fun _ => throw (Error "tx3up"))
       (fun _ => throw (Error "devnet"))) options
  = @installCommand_v2 C options.
Proof.
  intros options C.
  exact (proj1 (verbose_install_never_runs_trix_or_devnet C (fun _ => true)
                  (fun _ => throw (Error "tx3up"))
                  (fun _ => throw (Error "devnet")) options eq_refl eq_refl)).
Defined.

End NeverAsked.

(** ** The properties on the sample project *)
Section Witnesses.
Import Runs Effects ProjectName Scenarios Sample.

Lemma pair_eq {A B} (x : A * B) : x = (x.1, x.2).
Proof. by destruct x. Qed.

Lemma updateTsConfig_changes_only_tsconfig_witness :
  let run := @updateTsConfig (collaborators all_fine) project in
  run.2 = Ok tt /\
  forall p, p <> resolve (cwd project) tsconfigPath ->
    files run.1 !! p = files project !! p.
Proof.
  intros run. split; [vm_compute; reflexivity |].
  destruct (@updateTsConfig_changes_only_tsconfig (collaborators all_fine)
              project run.1 run.2 (pair_eq run)) as (_ & _ & _ & _ & Hf & _).
  exact Hf.
Defined.

Lemma createTx3Files_writes_templates_witness :
  let run := @createTx3Files (collaborators all_fine) project in
  run.2 = Ok tt /\
  files run.1 !! (root ++ ["tx3"; "main.tx3"]) = Some "party Sender;" /\
  files run.1 !! (root ++ ["package.json"]) = Some package_text.
Proof.
  intros run.
  assert (run.2 = Ok tt) as Hok by (vm_compute; reflexivity).
  split; [exact Hok |].
  destruct (@createTx3Files_writes_templates (collaborators all_fine)
              project run.1 (run_eq run (Ok tt) Hok))
    as (_ & Hmain & _ & Hother & _).
  split; [exact Hmain |]. by rewrite Hother.
Defined.

Lemma createTx3Files_idempotent_witness :
  let run := @createTx3Files (collaborators all_fine) project in
  run.2 = Ok tt /\
  @createTx3Files (collaborators all_fine) run.1 = (run.1, Ok tt).
Proof.
  intros run.
  assert (run.2 = Ok tt) as Hok by (vm_compute; reflexivity).
  split; [exact Hok |].
  exact (@createTx3Files_idempotent (collaborators all_fine) project run.1
           (run_eq run (Ok tt) Hok)).
Defined.

Lemma take_backups_footprint_witness :
  let run := take_backups false (IState project []) in
  run.2 = Ok tt /\
  backups run.1 = [entry_of "package.json"; entry_of "tsconfig.json"] /\
  files (iworld run.1) !! (root ++ ["tsconfig.json"]) = Some tsconfig_text /\
  forall b, b ∈ backups run.1 -> existedBefore b = true.
Proof.
  intros run.
  assert (run.2 = Ok tt) as Hok by (vm_compute; reflexivity).
  split; [exact Hok |]. split; [vm_compute; reflexivity |].
  destruct (take_backups_footprint false project run.1 run.2 (pair_eq run))
    as (_ & _ & Hf & _ & _ & Hb).
  split.
  - rewrite Hf; [reflexivity |]. intros Hpre%prefix_app_inv.
    by apply prefix_cons_inv_1 in Hpre.
  - intros b Hin. by destruct (Hb b Hin).
Defined.

Lemma completed_install_has_tx3_files_witness :
  let run := @install_try (collaborators all_fine) project in
  run.2 = Ok tt /\
  files run.1 !! (root ++ ["tx3"; "trix.toml"]) = Some "[protocol]".
Proof.
  intros run.
  assert (run.2 = Ok tt) as Hok by (vm_compute; reflexivity).
  split; [exact Hok |].
  destruct (@completed_install_has_tx3_files (collaborators all_fine)
              project run.1 (run_eq run (Ok tt) Hok)) as (Htrix & _).
  assert (cwd run.1 = root) as Hc by (vm_compute; reflexivity).
  rewrite Hc in Htrix. exact Htrix.
Defined.

Lemma sample_getMissingPackages_read_only (packages : list string) :
  read_only (sample_getMissingPackages packages).
Proof.
  intros w0. unfold sample_getMissingPackages.
  apply ends_bind; [| intros packageJson; apply ends_ret].
  unfold sample_readPackageJson. apply ends_bind.
  - intros w w' r HI Hrun. unfold readFile in Hrun.
    destruct (files w !! resolve (cwd w) "package.json");
      injection Hrun as <- <-; (split; [done |]).
    + intros x Hx. done.
    + intros x [= <-]. by eexists.
  - intros content. destruct (parse content); [apply ends_ret |].
    apply ends_throw. by eexists.
Qed.

Lemma dry_run_changes_nothing_witness :
  let options := {| dryRun := true; force := false; fresh := false;
                    verbose := false |} in
  let run := @installCommand (collaborators all_fine) options project in
  run.2 = Ok tt /\ files run.1 = files project /\ dirs run.1 = dirs project.
Proof.
  intros options run. split; [vm_compute; reflexivity |].
  destruct (@dry_run_changes_nothing (collaborators all_fine) options project
              run.1 run.2 sample_getMissingPackages_read_only eq_refl
              (or_introl (pair_eq run))) as (_ & Hf & Hd & _).
  by split.
Defined.

Lemma declined_install_changes_nothing_witness :
  let C := with_answers (collaborators all_fine) (fun _ _ => false) in
  let run := @installCommand C Sample.options project in
  run.2 = Ok tt /\ files run.1 = files project /\ dirs run.1 = dirs project.
Proof.
  intros C run. split; [vm_compute; reflexivity |].
  destruct (@declined_install_changes_nothing C Sample.options project
              run.1 run.2 (fun _ => eq_refl) eq_refl (or_introl (pair_eq run)))
    as (_ & Hf & Hd & _).
  by split.
Defined.

Lemma init_without_go_ahead_changes_nothing_witness :
  let options := {| projectName := Some "my-app"; init_dryRun := true |} in
  let run := @initCommand (collaborators all_fine) options workspace in
  run.2 = Ok tt /\ files run.1 = files workspace /\ dirs run.1 = dirs workspace.
Proof.
  intros options run. split; [vm_compute; reflexivity |].
  destruct (@init_without_go_ahead_changes_nothing (collaborators all_fine)
              options workspace run.1 run.2 (or_introl eq_refl)
              (or_introl (pair_eq run))) as (_ & Hf & Hd & _).
  by split.
Defined.

Lemma init_removes_directory_when_generator_fails_witness :
  let C := collaborators {| valid := true; pm_ok := true; trix_ok := true;
                            devnet_ok := true; scaffold_ok := false |} in
  let run := @initCommand C init_options workspace in
  run.2 = Exit 1 /\
  files run.1 !! ["home"; "dev"; "my-app"; "package.json"] = None /\
  ["home"; "dev"; "my-app"] ∉ dirs run.1.
Proof.
  intros C run.
  destruct (@init_removes_directory_when_generator_fails C init_options "my-app"
              workspace run.1 run.2) as (Hexit & _ & Hgone).
  - reflexivity.
  - done.
  - reflexivity.
  - intros w1. reflexivity.
  - intros w1. exists w1, (Error ("Command failed: " +:+ shadcn_command)).
    by repeat split.
  - vm_compute. reflexivity.
  - vm_compute. reflexivity.
  - apply pair_eq.
  - split; [exact Hexit |]. split.
    + apply (Hgone ["home"; "dev"; "my-app"; "package.json"]).
      by exists ["package.json"].
    + apply (Hgone ["home"; "dev"; "my-app"]). done.
Defined.



Lemma validate_accepted_names_resolve_witness :
  validate "my-app_2" = Accepted /\
  resolve ["home"; "dev"] "my-app_2" = ["home"; "dev"; "my-app_2"].
Proof.
  assert (validate "my-app_2" = Accepted) as Hok by (vm_compute; reflexivity).
  split; [exact Hok |].
  exact (validate_accepted_names_resolve "my-app_2" ["home"; "dev"] Hok).
Defined.

Lemma force_skips_the_question_witness :
  let warned :=
    with_validation (collaborators all_fine)
      (fun _ => {| isValid := true; errors := [];
                   warnings := ["TX3 files already exist in this project"] |}) in
  let refusing := with_answers warned (proceed_answer warned (fun _ => false)) in
  let forced := {| dryRun := false; force := true; fresh := false;
                   verbose := false |} in
  @installCommand refusing forced = @installCommand warned forced /\
  files (@installCommand refusing forced project).1
    !! (root ++ ["tx3"; "trix.toml"]) = Some "[protocol]" /\
  last (console (@installCommand refusing options project).1)
  = Some (Log "Installation cancelled.") /\
  files (@installCommand refusing options project).1
    !! (root ++ ["tx3"; "trix.toml"]) = None /\
  files (@installCommand warned options project).1
    !! (root ++ ["tx3"; "trix.toml"]) = Some "[protocol]".
Proof.
  intros warned refusing forced.
  split; [| repeat split; vm_compute; reflexivity].
  exact (proj1 (force_skips_the_question warned (fun _ => false) forced eq_refl)).
Defined.

Lemma rollback_always_completes_witness :
  let s := (@backup_and_mutate (collaborators all_fine) false
              (IState project_blocked [])).1 in
  backups s = [entry_of "package.json"; entry_of "tsconfig.json"] /\
  separate (cwd (iworld s)) (backups s) /\
  exists s' lines,
    rollback false (Error "EISDIR") s = (s', Exit 1) /\
    forall backup, backup ∈ backups s ->
      reported backup lines \/ restored backup (iworld s) (iworld s').
Proof.
  intros s.
  assert (backups s = [entry_of "package.json"; entry_of "tsconfig.json"]) as Hb
    by (vm_compute; reflexivity).
  assert (separate (cwd (iworld s)) (backups s)) as Hsep.
  { rewrite Hb. split.
    - apply (bool_decide_unpack _). vm_compute. exact I.
    - intros b b' Hin Hin'.
      apply elem_of_cons in Hin as [-> | Hin];
        [| apply list_elem_of_singleton in Hin as ->];
        (apply elem_of_cons in Hin' as [-> | Hin'];
         [| apply list_elem_of_singleton in Hin' as ->]);
        vm_compute; discriminate. }
  split; [exact Hb |]. split; [exact Hsep |].
  destruct (rollback_always_completes false (Error "EISDIR") s)
    as (s' & lines & after & Hrun & _ & _ & _ & _ & _ & _ & _ & _ & Heach).
  exists s', lines. split; [exact Hrun |]. exact (Heach Hsep).
Defined.

End Witnesses.
